(** * Trace rewriter of [scripts/copy_public_trace.py]

    A shallow embedding of [TraceTransformer] (its constructor,
    [transform_runs] and [_transform_single_run]) together with the parts of
    the Python runtime those methods rely on: strings, [datetime], [uuid],
    dictionaries living in a shared store, exceptions and [sorted]. *)

From Stdlib Require Import ZArith NArith Ascii String List Lia.
From stdpp Require Import base option gmap strings list fin_maps sorting relations.

Local Open Scope string_scope.

(** ** Python strings

    A Python [str] is modelled by its UTF-8 bytes. Lexicographic comparison
    of UTF-8 byte strings agrees with comparison by code point, which is what
    Python's [<] on [str] does. *)
Module PyStr.

(** [s.replace(old, new)] for a one-character [old]. *)
Fixpoint replace (old : ascii) (new : string) (s : string) : string :=
  match s with
  | EmptyString => EmptyString
  | String c s' =>
      if Ascii.eqb c old then new +:+ replace old new s'
      else String c (replace old new s')
  end.

(** Truth value of a string: [bool(s)]. *)
Definition nonempty (s : string) : bool :=
  match s with EmptyString => false | String _ _ => true end.

Fixpoint repeat (c : ascii) (n : nat) : string :=
  match n with O => EmptyString | S n' => String c (repeat c n') end.

(** [s[i:j]] for [0 <= i <= j]. *)
Definition slice (i j : nat) (s : string) : string := substring i (j - i) s.

(** The digit character of [d < 16], lower case as ['%x'] prints it. *)
Definition digit_char (d : N) : ascii :=
  if (d <? 10)%N then ascii_of_N (48 + d) else ascii_of_N (87 + d).

(** Digits of [n] in base [b], most significant first, no leading zero
    (["0"] for zero). [fuel] bounds the number of digits. *)
Fixpoint digits (b : N) (fuel : nat) (n : N) : string :=
  match fuel with
  | O => EmptyString
  | S fuel' =>
      (if (n <? b)%N then EmptyString else digits b fuel' (n / b))
        +:+ String (digit_char (n mod b)) EmptyString
  end.

(** ['%0<w>d' % n] and ['%0<w>x' % n]: at least [w] digits, zero padded. *)
Definition zfill (b : N) (w : nat) (n : N) : string :=
  let s := digits b (S (N.to_nat (N.log2 n))) n in
  repeat "0"%char (w - String.length s) +:+ s.

Definition fmt_d (w : nat) (n : N) : string := zfill 10 w n.
Definition fmt_x (w : nat) (n : N) : string := zfill 16 w n.

(** [str(z)] for an integer. *)
Definition of_Z (z : Z) : string :=
  match z with
  | Zneg p => String "-"%char (fmt_d 1 (Npos p))
  | _ => fmt_d 1 (Z.to_N z)
  end.

(** Every character of [s] satisfies [P]. *)
Fixpoint all_chars (P : ascii -> bool) (s : string) : bool :=
  match s with
  | EmptyString => true
  | String c s' => P c && all_chars P s'
  end.

End PyStr.

(** ** [datetime.datetime]

    The seven calendar fields and the UTC offset of an aware value (in
    microseconds), [None] for a naive one. *)
Record datetime := mkDatetime {
  year : N; month : N; day : N;
  hour : N; minute : N; second : N; microsecond : N;
  utcoffset : option Z
}.

Module Datetime.

(** The ranges Python's [datetime] type enforces on construction. *)
Definition valid (d : datetime) : Prop :=
  (1 <= year d <= 9999 /\ 1 <= month d <= 12 /\ 1 <= day d <= 31 /\
   hour d < 24 /\ minute d < 60 /\ second d < 60 /\ microsecond d < 1000000)%N.

(** [d.strftime("%Y%m%dT%H%M%S%f")]: the one format the rewriter uses.
    [%Y] is the year as the C library prints it, in decimal without padding
    (CPython on Linux: [datetime(999, 5, 5).strftime("%Y")] is ['999']); the
    other fields are zero padded, [%f] to six digits. *)
Definition strftime_compact (d : datetime) : string :=
  PyStr.fmt_d 1 (year d) +:+ PyStr.fmt_d 2 (month d) +:+ PyStr.fmt_d 2 (day d)
    +:+ "T" +:+ PyStr.fmt_d 2 (hour d) +:+ PyStr.fmt_d 2 (minute d)
    +:+ PyStr.fmt_d 2 (second d) +:+ PyStr.fmt_d 6 (microsecond d).

(** The rendering of a UTC offset by [isoformat]: [+HH:MM], with [:SS] and
    [.ffffff] only when they are not zero. *)
Definition format_offset (off : Z) : string :=
  let a := Z.to_N (Z.abs off) in
  let us := (a mod 1000000)%N in
  let s := (a / 1000000)%N in
  (if (off <? 0)%Z then "-" else "+")
    +:+ PyStr.fmt_d 2 (s / 3600) +:+ ":" +:+ PyStr.fmt_d 2 (s / 60 mod 60)
    +:+ (if ((s mod 60 =? 0) && (us =? 0))%N then EmptyString
         else ":" +:+ PyStr.fmt_d 2 (s mod 60))
    +:+ (if (us =? 0)%N then EmptyString else "." +:+ PyStr.fmt_d 6 us).

(** [d.isoformat()]. *)
Definition isoformat (d : datetime) : string :=
  PyStr.fmt_d 4 (year d) +:+ "-" +:+ PyStr.fmt_d 2 (month d) +:+ "-"
    +:+ PyStr.fmt_d 2 (day d) +:+ "T" +:+ PyStr.fmt_d 2 (hour d) +:+ ":"
    +:+ PyStr.fmt_d 2 (minute d) +:+ ":" +:+ PyStr.fmt_d 2 (second d)
    +:+ (if (microsecond d =? 0)%N then EmptyString
         else "." +:+ PyStr.fmt_d 6 (microsecond d))
    +:+ match utcoffset d with None => EmptyString | Some off => format_offset off end.

End Datetime.

(** ** [uuid.UUID]: a 128-bit integer *)
Module UUID.

Definition hex (u : N) : string := PyStr.fmt_x 32 (u mod 2 ^ 128).

(** [str(u)]: the 32 hex digits grouped 8-4-4-4-12. *)
Definition str (u : N) : string :=
  let h := hex u in
  PyStr.slice 0 8 h +:+ "-" +:+ PyStr.slice 8 12 h +:+ "-"
    +:+ PyStr.slice 12 16 h +:+ "-" +:+ PyStr.slice 16 20 h +:+ "-"
    +:+ PyStr.slice 20 32 h.

End UUID.

(** ** Python values and the object store

    Run records arrive as decoded JSON ([Dict[str, Any]]); the rewriter also
    accepts [datetime] objects as [start_time]. Dictionaries are mutable
    objects: a [VDict] is a reference into the store, so two records (an
    input and its transformed copy) may share one dictionary. Lists are never
    mutated by the rewriter and are kept by value. Numbers are integers: the
    rewriter looks at a number only to take its truth value or its [str()],
    and no identifier, parent reference or sort key is a float. *)
Definition loc := nat.

#[warnings="-register-all"]
Inductive value :=
  | VNone
  | VBool (b : bool)
  | VInt (z : Z)
  | VStr (s : string)
  | VDatetime (d : datetime)
  | VList (l : list value)
  | VDict (l : loc).

Inductive exn :=
  | KeyError (key : string)
  | ValueError
  | TypeError
  | AttributeError.

Inductive outcome (A : Type) :=
  | Ok (a : A)
  | Raise (e : exn).
Arguments Ok {A} a.
Arguments Raise {A} e.

(** [TraceTransformer]'s instance attributes. *)
Record TraceTransformer := mkTraceTransformer {
  target_project : string;
  preserve_timestamps : bool;
  id_mapping : gmap string string;
  dotted_order_mapping : gmap string string;
  new_trace_id : option string
}.

(** What a method call can read and change: the transformer object, the
    dictionaries in the store, and how many times the clock and the random
    source have been consulted. *)
Record state := mkState {
  self : TraceTransformer;
  mem : gmap loc (gmap string value);
  clock : nat;
  entropy : nat
}.

(** The parts of the Python runtime the rewriter calls but does not define.
    - [uuid4_draw n]: the integer of the [n]-th [uuid4()] of the process;
    - [utcnow_at n]: the [n]-th reading of [datetime.utcnow()];
    - [fromisoformat]: [datetime.fromisoformat], [None] for [ValueError];
    - [str_object]: [str()] of a datetime, list or dictionary;
    - [sorted_objects]: [sorted] on records whose sort keys are not all
      strings (it may order them or raise [TypeError]). *)
Record runtime := mkRuntime {
  uuid4_draw : nat -> N;
  utcnow_at : nat -> datetime;
  fromisoformat : string -> option datetime;
  str_object : gmap loc (gmap string value) -> value -> string;
  sorted_objects :
    gmap loc (gmap string value) -> list (gmap string value) ->
    outcome (list (gmap string value))
}.

(** ** Computations that may mutate the state or raise *)
Definition M (A : Type) : Type := state -> outcome A * state.

Definition ret {A} (a : A) : M A := fun st => (Ok a, st).
Definition raise {A} (e : exn) : M A := fun st => (Raise e, st).
Definition bind {A B} (c : M A) (k : A -> M B) : M B :=
  fun st =>
    match c st with
    | (Ok a, st') => k a st'
    | (Raise e, st') => (Raise e, st')
    end.

Notation "x <- c ;; k" := (bind c (fun x => k))
  (at level 100, c at next level, right associativity).
Notation "c ;;; k" := (bind c (fun _ => k))
  (at level 100, right associativity).

Definition gets {A} (f : state -> A) : M A := fun st => (Ok (f st), st).
Definition modify (f : state -> state) : M unit := fun st => (Ok tt, f st).

(** [for x in l: body(x)] *)
Fixpoint for_each {A} (l : list A) (body : A -> M unit) : M unit :=
  match l with
  | [] => ret tt
  | x :: l' => body x ;;; for_each l' body
  end.

(** [out = []; for x in l: out.append(body(x))] *)
Fixpoint collect {A B} (body : A -> M B) (l : list A) : M (list B) :=
  match l with
  | [] => ret []
  | x :: l' => y <- body x ;; ys <- collect body l' ;; ret (y :: ys)
  end.

Definition set_self (f : TraceTransformer -> TraceTransformer) (st : state) : state :=
  mkState (f (self st)) (mem st) (clock st) (entropy st).
Definition set_mem (f : gmap loc (gmap string value) -> gmap loc (gmap string value))
    (st : state) : state :=
  mkState (self st) (f (mem st)) (clock st) (entropy st).

Definition set_id_mapping (k v : string) (t : TraceTransformer) : TraceTransformer :=
  mkTraceTransformer (target_project t) (preserve_timestamps t)
    (<[k := v]> (id_mapping t)) (dotted_order_mapping t) (new_trace_id t).
Definition set_dotted_order_mapping (k v : string) (t : TraceTransformer)
    : TraceTransformer :=
  mkTraceTransformer (target_project t) (preserve_timestamps t)
    (id_mapping t) (<[k := v]> (dotted_order_mapping t)) (new_trace_id t).
Definition set_new_trace_id (v : string) (t : TraceTransformer) : TraceTransformer :=
  mkTraceTransformer (target_project t) (preserve_timestamps t)
    (id_mapping t) (dotted_order_mapping t) (Some v).

(** ** Dictionary and object primitives *)

(** [d.get(k, dflt)] on a record. *)
Definition get (k : string) (dflt : value) (d : gmap string value) : value :=
  default dflt (d !! k).

(** [d[k]] on a record. *)
Definition getitem (k : string) (d : gmap string value) : M value :=
  match d !! k with
  | Some v => ret v
  | None => raise (KeyError k)
  end.

(** A fresh empty dictionary [{}]. *)
Definition new_dict : M value :=
  fun st =>
    let l := fresh (dom (mem st)) in
    (Ok (VDict l), set_mem (insert l ∅) st).

(** [d.get(k, {})]: the default dictionary is a new object. (Python builds it
    on every call; when the key is present it is dropped at once, so only the
    other case allocates here.) *)
Definition get_or_new_dict (k : string) (d : gmap string value) : M value :=
  match d !! k with
  | Some v => ret v
  | None => new_dict
  end.

(** The dictionary a reference points to; an empty one if it dangles, which
    no reference built by [new_dict] or decoded from JSON does. *)
Definition deref (h : gmap loc (gmap string value)) (l : loc) : gmap string value :=
  default ∅ (h !! l).

(** [k not in o]. On a dictionary this is a key test. On any other value
    that reaches this point the statement the test guards, or the subscript
    that follows it, raises [TypeError]; the test itself is given that
    outcome. *)
Definition not_in (k : string) (o : value) : M bool :=
  match o with
  | VDict l => gets (fun st => bool_decide (deref (mem st) l !! k = None))
  | _ => raise TypeError
  end.

(** [o[k]] on an object. *)
Definition subscript (o : value) (k : string) : M value :=
  match o with
  | VDict l =>
      d <- gets (fun st => deref (mem st) l) ;;
      match d !! k with Some v => ret v | None => raise (KeyError k) end
  | _ => raise TypeError
  end.

(** [o[k] = v] on an object. *)
Definition store_subscript (o : value) (k : string) (v : value) : M unit :=
  match o with
  | VDict l => modify (fun st => set_mem (fun h => <[l := <[k := v]> (deref h l)]> h) st)
  | _ => raise TypeError
  end.

(** [bool(v)]. *)
Definition truthy (h : gmap loc (gmap string value)) (v : value) : bool :=
  match v with
  | VNone => false
  | VBool b => b
  | VInt z => negb (z =? 0)%Z
  | VStr s => PyStr.nonempty s
  | VDatetime _ => true
  | VList l => match l with [] => false | _ :: _ => true end
  | VDict l => negb (bool_decide (deref h l = ∅))
  end.

(** The truth value of an optional string ([None] or a [str]). *)
Definition truthy_opt (o : option string) : bool :=
  match o with Some s => PyStr.nonempty s | None => false end.

Definition value_of_opt (o : option string) : value :=
  match o with Some s => VStr s | None => VNone end.

(** ** [sorted] with a string key: a stable sort

    On keys that are all strings the comparison is a total preorder, so every
    stable sort returns the same list; insertion sort stands for Timsort. *)
Fixpoint insert_sorted {A} (key : A -> string) (x : A) (l : list A) : list A :=
  match l with
  | [] => [x]
  | y :: l' =>
      if String.ltb (key y) (key x) then y :: insert_sorted key x l'
      else x :: y :: l'
  end.

Definition sorted_by {A} (key : A -> string) (l : list A) : list A :=
  foldr (insert_sorted key) [] l.

(** The sort key [r.get("dotted_order", EmptyString)]. *)
Definition sort_key (r : gmap string value) : value := get "dotted_order" (VStr EmptyString) r.

Definition str_of_key (v : value) : option string :=
  match v with VStr s => Some s | _ => None end.

(** The key as a string, for records whose key is one. *)
Definition dotted_key (r : gmap string value) : string :=
  default EmptyString (str_of_key (sort_key r)).

Section Rewriter.

Variable rt : runtime.

(** [str(v)]. *)
Definition py_str (h : gmap loc (gmap string value)) (v : value) : string :=
  match v with
  | VStr s => s
  | VNone => "None"
  | VBool true => "True"
  | VBool false => "False"
  | VInt z => PyStr.of_Z z
  | _ => str_object rt h v
  end.

Definition str_ (v : value) : M string := gets (fun st => py_str (mem st) v).

(** [str(uuid4())] *)
Definition uuid4_str : M string :=
  fun st =>
    (Ok (UUID.str (uuid4_draw rt (entropy st))),
     mkState (self st) (mem st) (clock st) (S (entropy st))).

(** [datetime.utcnow()] *)
Definition utcnow : M datetime :=
  fun st =>
    (Ok (utcnow_at rt (clock st)),
     mkState (self st) (mem st) (S (clock st)) (entropy st)).

(** [sorted(runs, key=lambda r: r.get("dotted_order", EmptyString))] *)
Definition sorted_runs (runs : list (gmap string value)) : M (list (gmap string value)) :=
  if forallb (fun r => bool_decide (is_Some (str_of_key (sort_key r)))) runs
  then ret (sorted_by dotted_key runs)
  else fun st => (sorted_objects rt (mem st) runs, st).

(** [TraceTransformer.__init__] *)
Definition __init__ (target_project : string) (preserve_timestamps : bool)
    : TraceTransformer :=
  mkTraceTransformer target_project preserve_timestamps ∅ ∅ None.

(** [if k in run: transformed[k] = run[k]] *)
Definition copy_if_present (k : string) (run transformed : gmap string value)
    : gmap string value :=
  match run !! k with
  | Some v => <[k := v]> transformed
  | None => transformed
  end.

(** [_transform_single_run], lines 152-159: the old id, its new id and the
    new parent id ([None] when the run names no parent or the parent has no
    entry in [id_mapping]). *)
Definition resolve_ids (run : gmap string value)
    : M (string * string * option string) :=
  id_v <- getitem "id" run ;;
  old_id <- str_ id_v ;;
  ids <- gets (fun st => id_mapping (self st)) ;;
  new_id <- match ids !! old_id with
            | Some n => ret n
            | None => raise (KeyError old_id)
            end ;;
  let old_parent_id := get "parent_run_id" VNone run in
  parent_given <- gets (fun st => truthy (mem st) old_parent_id) ;;
  new_parent_id <- (if parent_given : bool
                    then (p <- str_ old_parent_id ;; ret (ids !! p))
                    else ret None) ;;
  ret (old_id, new_id, new_parent_id).

(** Lines 162-178: the dictionary literal. *)
Definition build_transformed (run : gmap string value) (new_id : string)
    (new_parent_id : option string) : M (gmap string value) :=
  trace_id <- gets (fun st => new_trace_id (self st)) ;;
  preserve <- gets (fun st => preserve_timestamps (self st)) ;;
  start_v <- (if preserve : bool then ret (get "start_time" VNone run)
              else (now <- utcnow ;; ret (VStr (Datetime.isoformat now)))) ;;
  let end_v := if preserve then get "end_time" VNone run else VNone in
  inputs <- get_or_new_dict "inputs" run ;;
  outputs <- get_or_new_dict "outputs" run ;;
  extra <- get_or_new_dict "extra" run ;;
  project <- gets (fun st => target_project (self st)) ;;
  ret (<["session_name" := VStr project]> (
       <["tags" := get "tags" (VList []) run]> (
       <["events" := get "events" (VList []) run]> (
       <["serialized" := get "serialized" VNone run]> (
       <["error" := get "error" VNone run]> (
       <["extra" := extra]> (
       <["outputs" := outputs]> (
       <["inputs" := inputs]> (
       <["end_time" := end_v]> (
       <["start_time" := start_v]> (
       <["run_type" := get "run_type" VNone run]> (
       <["name" := get "name" VNone run]> (
       <["parent_run_id" := value_of_opt new_parent_id]> (
       <["trace_id" := value_of_opt trace_id]> (
       <["id" := VStr new_id]> ∅))))))))))))))).

(** Lines 181-187: provenance written into [extra.metadata]. *)
Definition add_source_metadata (old_id : string) (transformed : gmap string value)
    : M (gmap string value) :=
  transformed <- match transformed !! "extra" with
                 | None | Some VNone =>
                     e <- new_dict ;; ret (<["extra" := e]> transformed)
                 | Some _ => ret transformed
                 end ;;
  extra <- getitem "extra" transformed ;;
  missing <- not_in "metadata" extra ;;
  (if missing : bool
   then (m <- new_dict ;; store_subscript extra "metadata" m)
   else ret tt) ;;;
  md <- subscript extra "metadata" ;;
  store_subscript md "copied_from_shared_trace" (VBool true) ;;;
  md <- subscript extra "metadata" ;;
  store_subscript md "original_run_id" (VStr old_id) ;;;
  ret transformed.

(** Lines 190-197: token counts, copied when present. *)
Definition copy_token_counts (run transformed : gmap string value)
    : gmap string value :=
  copy_if_present "first_token_time" run (
  copy_if_present "completion_tokens" run (
  copy_if_present "prompt_tokens" run (
  copy_if_present "total_tokens" run transformed))).

(** Lines 204-208: [start_time_dt]. *)
Definition start_time_dt (run : gmap string value) : M value :=
  let start_time := get "start_time" VNone run in
  match start_time with
  | VStr s =>
      match fromisoformat rt (PyStr.replace "Z"%char "+00:00" s) with
      | Some d => ret (VDatetime d)
      | None => raise ValueError
      end
  | _ =>
      given <- gets (fun st => truthy (mem st) start_time) ;;
      if given : bool then ret start_time
      else (now <- utcnow ;; ret (VDatetime now))
  end.

(** [v.strftime("%Y%m%dT%H%M%S%f")]: only a datetime has the method. *)
Definition strftime (v : value) : M string :=
  match v with
  | VDatetime d => ret (Datetime.strftime_compact d)
  | _ => raise AttributeError
  end.

(** Lines 215-226: the new dotted order from [current_part]. *)
Definition new_dotted_order (run : gmap string value)
    (new_parent_id : option string) (current_part : string) : M string :=
  if truthy_opt new_parent_id
  then
    old_parent_id <- str_ (get "parent_run_id" VNone run) ;;
    parent_dotted_order <-
      gets (fun st => dotted_order_mapping (self st) !! old_parent_id) ;;
    if truthy_opt parent_dotted_order
    then ret (default EmptyString parent_dotted_order +:+ "." +:+ current_part)
    else ret current_part
  else ret current_part.

(** [TraceTransformer._transform_single_run] *)
Definition _transform_single_run (run : gmap string value) : M (gmap string value) :=
  ids <- resolve_ids run ;;
  let '(old_id, new_id, new_parent_id) := ids in
  transformed <- build_transformed run new_id new_parent_id ;;
  transformed <- add_source_metadata old_id transformed ;;
  let transformed := copy_token_counts run transformed in
  start_time_dt <- start_time_dt run ;;
  stamp <- strftime start_time_dt ;;
  let formatted_timestamp := stamp +:+ "Z" in
  let run_id_hex := PyStr.replace "-"%char EmptyString new_id in
  let current_part := formatted_timestamp +:+ run_id_hex in
  dotted <- new_dotted_order run new_parent_id current_part ;;
  let transformed := <["dotted_order" := VStr dotted]> transformed in
  modify (set_self (set_dotted_order_mapping old_id dotted)) ;;;
  ret transformed.

(** First pass of [transform_runs]: a new id for one run. *)
Definition assign_new_id (run : gmap string value) : M unit :=
  id_v <- getitem "id" run ;;
  old_id <- str_ id_v ;;
  new_id <- uuid4_str ;;
  modify (set_self (set_id_mapping old_id new_id)) ;;;
  match get "parent_run_id" VNone run with
  | VNone => modify (set_self (set_new_trace_id new_id))
  | _ => ret tt
  end.

(** [TraceTransformer.transform_runs] *)
Definition transform_runs (runs : list (gmap string value))
    : M (list (gmap string value)) :=
  sorted <- sorted_runs runs ;;
  for_each sorted assign_new_id ;;;
  collect _transform_single_run sorted.

End Rewriter.

(** ** A reference runtime

    [datetime.fromisoformat] for the grammar
    [YYYY-MM-DD[*HH[:MM[:SS[.fff[fff]]]][+HH:MM[:SS[.ffffff]]]]], the one
    documented since Python 3.7 (later versions accept more). The theorems
    below hold for every [runtime]; this instance runs the examples. *)
Module IsoRef.

Definition digit_val (c : ascii) : option N :=
  let n := N_of_ascii c in
  if ((48 <=? n) && (n <=? 57))%N then Some (n - 48)%N else None.

(** Exactly [k] decimal digits. *)
Fixpoint number (k : nat) (acc : N) (s : string) : option (N * string) :=
  match k with
  | O => Some (acc, s)
  | S k' =>
      match s with
      | String c s' => d ← digit_val c; number k' (10 * acc + d)%N s'
      | EmptyString => None
      end
  end.

Definition expect (c : ascii) (s : string) : option string :=
  match s with
  | String c' s' => if Ascii.eqb c c' then Some s' else None
  | EmptyString => None
  end.

Fixpoint find (c : ascii) (s : string) : option nat :=
  match s with
  | EmptyString => None
  | String c' s' => if Ascii.eqb c c' then Some O else S <$> find c s'
  end.

(** [HH[:MM[:SS[.fff[fff]]]]], the whole of [s]. *)
Definition hh_mm_ss_ff (s : string) : option (N * N * N * N) :=
  '(h, s) ← number 2 0 s;
  if negb (PyStr.nonempty s) then Some (h, 0, 0, 0)%N else
  s ← expect ":" s;
  '(m, s) ← number 2 0 s;
  if negb (PyStr.nonempty s) then Some (h, m, 0, 0)%N else
  s ← expect ":" s;
  '(sec, s) ← number 2 0 s;
  if negb (PyStr.nonempty s) then Some (h, m, sec, 0)%N else
  s ← expect "." s;
  match String.length s with
  | 3 => '(f, _) ← number 3 0 s; Some (h, m, sec, f * 1000)%N
  | 6 => '(f, _) ← number 6 0 s; Some (h, m, sec, f)
  | _ => None
  end.

Definition is_leap (y : N) : bool :=
  ((y mod 4 =? 0) && (negb (y mod 100 =? 0) || (y mod 400 =? 0)))%N.

Definition days_in_month (y m : N) : N :=
  if (m =? 2)%N then (if is_leap y then 29 else 28)%N
  else if ((m =? 4) || (m =? 6) || (m =? 9) || (m =? 11))%N then 30%N
  else 31%N.

(** The UTC offset after the sign, in microseconds. *)
Definition tz_offset (negative : bool) (s : string) : option Z :=
  let n := String.length s in
  if negb ((n =? 5)%nat || (n =? 8)%nat || (n =? 15)%nat) then None else
  '(h, m, sec, us) ← hh_mm_ss_ff s;
  if negb ((h <? 24) && (m <? 60) && (sec <? 60))%N then None else
  let off := Z.of_N (((h * 60 + m) * 60 + sec) * 1000000 + us) in
  Some (if negative then (- off)%Z else off).

Definition time_part (s : string) : option (N * N * N * N * option Z) :=
  let tz_pos := match find "-" s with Some i => Some i | None => find "+" s end in
  match tz_pos with
  | None => '(h, m, sec, us) ← hh_mm_ss_ff s; Some (h, m, sec, us, None)
  | Some i =>
      '(h, m, sec, us) ← hh_mm_ss_ff (substring 0 i s);
      off ← tz_offset (bool_decide (String.get i s = Some "-"%char))
              (substring (S i) (String.length s - S i) s);
      Some (h, m, sec, us, Some off)
  end.

Definition fromisoformat (s : string) : option datetime :=
  '(y, s) ← number 4 0 s;
  s ← expect "-" s;
  '(mo, s) ← number 2 0 s;
  s ← expect "-" s;
  '(d, s) ← number 2 0 s;
  '(h, mi, sec, us, tz) ←
    match s with
    | EmptyString => Some (0, 0, 0, 0, None)%N
    | String _ EmptyString => Some (0, 0, 0, 0, None)%N
    | String _ t => time_part t
    end;
  if ((1 <=? y) && (1 <=? mo) && (mo <=? 12) && (1 <=? d)
      && (d <=? days_in_month y mo) && (h <? 24) && (mi <? 60) && (sec <? 60))%N
  then Some (mkDatetime y mo d h mi sec us tz)
  else None.

End IsoRef.

(** ** Conditions on the input

    What §3 of the specification asks of an input collection, and what a
    record must look like for the rewrite of it to run to completion. *)

(** The identifier of a record, when it is a string. *)
Definition id_of (r : gmap string value) : option string := r !! "id" ≫= str_of_key.

(** The parent reference of a record, when it is a string. *)
Definition parent_of (r : gmap string value) : option string :=
  str_of_key (get "parent_run_id" VNone r).

(** [r.get("parent_run_id") is None] *)
Definition is_root (r : gmap string value) : bool :=
  match get "parent_run_id" VNone r with VNone => true | _ => false end.

(** The start time a record carries, as the rewriter reads it: a parseable
    string (after the [Z] normalisation) or a datetime object. *)
Definition recorded_start (rt : runtime) (r : gmap string value) : option datetime :=
  match get "start_time" VNone r with
  | VStr s => fromisoformat rt (PyStr.replace "Z"%char "+00:00" s)
  | VDatetime d => Some d
  | _ => None
  end.

(** [start_time] is absent, a recognisable timestamp, or one of the false
    scalars that [start_time or utcnow()] replaces. *)
Definition start_ok (rt : runtime) (r : gmap string value) : Prop :=
  match get "start_time" VNone r with
  | VStr s => is_Some (fromisoformat rt (PyStr.replace "Z"%char "+00:00" s))
  | VDatetime _ | VNone => True
  | VBool b => b = false
  | VInt z => z = 0%Z
  | VList l => l = []
  | VDict _ => False
  end.

(** The dictionary at [l] has no [metadata] entry or one that is itself a
    dictionary. *)
Definition metadata_ok (h : gmap loc (gmap string value)) (l : loc) : Prop :=
  match deref h l !! "metadata" with
  | None | Some (VDict _) => True
  | Some _ => False
  end.

(** [extra] is absent, [None], or a dictionary with a usable [metadata]. *)
Definition extra_ok (h : gmap loc (gmap string value)) (r : gmap string value) : Prop :=
  match r !! "extra" with
  | None | Some VNone => True
  | Some (VDict l) => metadata_ok h l
  | Some _ => False
  end.

(** A record the rewriter can process. *)
Record record_ok (rt : runtime) (h : gmap loc (gmap string value))
    (r : gmap string value) : Prop := mk_record_ok {
  ok_id : is_Some (id_of r);
  ok_parent : is_root r = true \/ is_Some (parent_of r);
  ok_key : is_Some (str_of_key (sort_key r));
  ok_start : start_ok rt r;
  ok_extra : extra_ok h r
}.

(** Every parent stands before its children. *)
Definition topological (l : list (gmap string value)) : Prop :=
  forall i j p c,
    l !! i = Some p -> l !! j = Some c ->
    is_Some (parent_of c) -> parent_of c = id_of p -> (i < j)%nat.

(** A valid single-root input (§3, "Invariants on the input collection"):
    unique non-empty string identifiers, exactly one record without a parent,
    every other parent reference resolving inside the collection, and string
    [dotted_order] keys whose sort is a topological order. *)
Record valid_trace (runs : list (gmap string value)) : Prop := mk_valid_trace {
  vt_ids : Forall (fun r => exists s, id_of r = Some s /\ s <> EmptyString) runs;
  vt_nodup : NoDup (id_of <$> runs);
  vt_root : exists r0, r0 ∈ runs /\ is_root r0 = true /\
              forall r, r ∈ runs -> is_root r = true -> r = r0;
  vt_parents : forall c, c ∈ runs ->
                 is_root c = true \/ exists p, p ∈ runs /\ parent_of c = id_of p;
  vt_keys : Forall (fun r => is_Some (str_of_key (sort_key r))) runs;
  vt_topo : topological (sorted_by dotted_key runs)
}.

(** The payload of every record lets the rewrite complete. *)
Definition payload_ok (rt : runtime) (h : gmap loc (gmap string value))
    (runs : list (gmap string value)) : Prop :=
  Forall (fun r => start_ok rt r /\ extra_ok h r) runs.

(** The laws of the runtime the proofs rely on: [sorted] returns a
    permutation of its argument. *)
Definition sorted_permutes (rt : runtime) : Prop :=
  forall h l l', sorted_objects rt h l = Ok l' -> l' ≡ₚ l.

(** The only ways the rewriter changes the store: a new empty dictionary,
    a [metadata] entry added to a dictionary that has none, and the two
    provenance keys. *)
Inductive heap_step : gmap loc (gmap string value) -> gmap loc (gmap string value) -> Prop :=
  | hs_alloc h :
      heap_step h (<[fresh (dom h) := ∅]> h)
  | hs_metadata h l m :
      deref h l !! "metadata" = None ->
      heap_step h (<[l := <["metadata" := VDict m]> (deref h l)]> h)
  | hs_copied h m :
      heap_step h (<[m := <["copied_from_shared_trace" := VBool true]> (deref h m)]> h)
  | hs_original h m s :
      heap_step h (<[m := <["original_run_id" := VStr s]> (deref h m)]> h).

(** The provenance of [extra] is in place: its [metadata] is a dictionary
    that holds both injected keys. *)
Definition has_provenance (h : gmap loc (gmap string value)) (l : loc) : Prop :=
  is_Some (h !! l) /\
  exists m, deref h l !! "metadata" = Some (VDict m) /\ is_Some (h !! m) /\
    deref h m !! "copied_from_shared_trace" = Some (VBool true) /\
    exists s, deref h m !! "original_run_id" = Some (VStr s).

(** ** What one rewrite establishes

    The outcome of [_transform_single_run] on a record, read off the state it
    starts in, and the relation the second pass of [transform_runs] builds
    from it, one record after the other. *)

Definition old_id (r : gmap string value) : string := default EmptyString (id_of r).

(** [current_part] for a start instant and a new id: the timestamp, a ['Z'],
    and the id without its hyphens. *)
Definition current_part (d : datetime) (new_id : string) : string :=
  (Datetime.strftime_compact d +:+ "Z") +:+ PyStr.replace "-"%char EmptyString new_id.

Definition new_id_of (ids : gmap string string) (r : gmap string value) : string :=
  default EmptyString (ids !! old_id r).

(** The mapped parent: [None] when the record names no parent (or an empty
    one) and when the parent has no entry in the id map. *)
Definition new_parent (ids : gmap string string) (r : gmap string value)
    : option string :=
  match parent_of r with
  | Some p => if PyStr.nonempty p then ids !! p else None
  | None => None
  end.

(** The instant that is stamped into the dotted order: the recorded start
    time, or a reading of the clock when the record has none. *)
Definition stamp_time (rt : runtime) (r : gmap string value) (st : state) : datetime :=
  match recorded_start rt r with
  | Some d => d
  | None =>
      utcnow_at rt (if preserve_timestamps (self st) then clock st else S (clock st))
  end.

Definition dotted_for (D : gmap string string) (npid : option string)
    (r : gmap string value) (part : string) : string :=
  if truthy_opt npid
  then match parent_of r ≫= (D !!.) with
       | Some pd => if PyStr.nonempty pd then pd +:+ "." +:+ part else part
       | None => part
       end
  else part.

Definition new_dotted (rt : runtime) (r : gmap string value) (st : state) : string :=
  let ids := id_mapping (self st) in
  dotted_for (dotted_order_mapping (self st)) (new_parent ids r) r
    (current_part (stamp_time rt r st) (new_id_of ids r)).

Record rewritten (rt : runtime) (r : gmap string value) (st : state)
    (t : gmap string value) (st' : state) : Prop := mk_rewritten {
  rw_self : self st' = set_dotted_order_mapping (old_id r) (new_dotted rt r st) (self st);
  rw_entropy : entropy st' = entropy st;
  rw_clock : (clock st <= clock st')%nat;
  rw_heap : rtc heap_step (mem st) (mem st');
  rw_id : t !! "id" = Some (VStr (new_id_of (id_mapping (self st)) r));
  rw_trace : t !! "trace_id" = Some (value_of_opt (new_trace_id (self st)));
  rw_parent :
    t !! "parent_run_id" = Some (value_of_opt (new_parent (id_mapping (self st)) r));
  rw_dotted : t !! "dotted_order" = Some (VStr (new_dotted rt r st));
  rw_start :
    t !! "start_time" =
      Some (if preserve_timestamps (self st) then get "start_time" VNone r
            else VStr (Datetime.isoformat (utcnow_at rt (clock st))));
  rw_end :
    t !! "end_time" =
      Some (if preserve_timestamps (self st) then get "end_time" VNone r else VNone);
  rw_extra :
    exists e, t !! "extra" = Some (VDict e) /\ has_provenance (mem st') e /\
      forall l, r !! "extra" = Some (VDict l) -> e = l
}.

(** The second pass: the records rewritten in order, each from the state the
    previous one left. *)
Inductive rewrites (rt : runtime) :
    list (gmap string value) -> state -> list (gmap string value) -> state -> Prop :=
  | rewrites_nil st : rewrites rt [] st [] st
  | rewrites_cons r l st t st1 out st' :
      rewritten rt r st t st1 ->
      rewrites rt l st1 out st' ->
      rewrites rt (r :: l) st (t :: out) st'.

(** The first pass: the id map and the trace id after new ids have been
    drawn for the records of [l], starting at draw [e]. *)
Fixpoint assigned_ids (rt : runtime) (e : nat) (l : list (gmap string value))
    (ids : gmap string string) : gmap string string :=
  match l with
  | [] => ids
  | r :: l' => assigned_ids rt (S e) l' (<[old_id r := UUID.str (uuid4_draw rt e)]> ids)
  end.

Fixpoint assigned_trace_id (rt : runtime) (e : nat) (l : list (gmap string value))
    (tid : option string) : option string :=
  match l with
  | [] => tid
  | r :: l' =>
      assigned_trace_id rt (S e) l'
        (if is_root r then Some (UUID.str (uuid4_draw rt e)) else tid)
  end.

Definition after_first_pass (rt : runtime) (l : list (gmap string value))
    (st : state) : state :=
  mkState
    (mkTraceTransformer (target_project (self st)) (preserve_timestamps (self st))
       (assigned_ids rt (entropy st) l (id_mapping (self st)))
       (dotted_order_mapping (self st))
       (assigned_trace_id rt (entropy st) l (new_trace_id (self st))))
    (mem st) (clock st) (entropy st + length l).

(** A present [start_time] that is no timestamp and that [bool()] takes for
    true: a string [fromisoformat] rejects, a non-zero number, [True], a
    non-empty list. *)
Definition unrecognised (rt : runtime) (v : value) : Prop :=
  match v with
  | VStr s => fromisoformat rt (PyStr.replace "Z"%char "+00:00" s) = None
  | VBool b => b = true
  | VInt z => z <> 0%Z
  | VList l => l <> []
  | _ => False
  end.

(** The characters of a compact timestamp: digits and the ['T']. *)
Definition stamp_char (c : ascii) : bool :=
  bool_decide (is_Some (IsoRef.digit_val c)) || Ascii.eqb c "T"%char.

(** The [original_run_id] found in the provenance of a transformed record. *)
Definition origin (h : gmap loc (gmap string value)) (t : gmap string value)
    : option value :=
  match t !! "extra" with
  | Some (VDict e) =>
      match deref h e !! "metadata" with
      | Some (VDict m) => deref h m !! "original_run_id"
      | _ => None
      end
  | _ => None
  end.

(** The result of a call seen through [f]: [f] of the final state and of
    each returned record, or the exception. *)
Definition observe {A : Type} (f : state -> gmap string value -> A)
    (x : outcome (list (gmap string value)) * state) : outcome (list A) :=
  match x with
  | (Ok out, st') => Ok (f st' <$> out)
  | (Raise e, _) => Raise e
  end.

(** ** Sample traces

    A root and two children that started at the same instant, as the tracing
    service would return them, and a runtime with three fixed version-4
    draws. The sample records have string identifiers and string sort keys,
    so [str_object] and [sorted_objects] are never reached; they are given
    the simplest values. *)
Module Sample.

Definition draws : list N :=
  [ 0xdc74395ec01849ce970d270dcc3d01d8;
    0xeeeeeeeeeeee4eeeaeeeeeeeeeeeeeee;
    0x11111111111141118111111111111111 ]%N.

Definition rt : runtime :=
  {| uuid4_draw n := nth n draws 0%N;
     utcnow_at n := mkDatetime 2026 1 2 3 4 5 (N.of_nat n) None;
     fromisoformat := IsoRef.fromisoformat;
     str_object _ _ := EmptyString;
     sorted_objects _ _ := Raise TypeError |}.

Definition root : gmap string value :=
  list_to_map
    [ ("id", VStr "A"); ("parent_run_id", VNone); ("name", VStr "agent");
      ("run_type", VStr "chain");
      ("start_time", VStr "2023-05-05T05:13:24.571809Z");
      ("end_time", VStr "2023-05-05T05:13:30Z");
      ("dotted_order", VStr "20230505T051324571809ZA");
      ("extra", VDict 0) ].

Definition child_b : gmap string value :=
  list_to_map
    [ ("id", VStr "B"); ("parent_run_id", VStr "A"); ("name", VStr "llm");
      ("run_type", VStr "llm");
      ("start_time", VStr "2023-05-05T05:13:25Z");
      ("dotted_order", VStr "20230505T051324571809ZA.20230505T051325000000ZB");
      ("total_tokens", VInt 42) ].

Definition child_c : gmap string value :=
  list_to_map
    [ ("id", VStr "C"); ("parent_run_id", VStr "A"); ("name", VStr "tool");
      ("run_type", VStr "tool");
      ("start_time", VStr "2023-05-05T05:13:25Z");
      ("dotted_order", VStr "20230505T051324571809ZA.20230505T051325000000ZC") ].

(** A record whose parent is not in the collection. *)
Definition orphan : gmap string value :=
  list_to_map
    [ ("id", VStr "B"); ("parent_run_id", VStr "X");
      ("start_time", VStr "2023-05-05T05:13:25Z");
      ("dotted_order", VStr "20230505T051324000000ZX.20230505T051325000000ZB") ].

(** A root whose [start_time] is the number zero. *)
Definition zero_start : gmap string value :=
  <["start_time" := VInt 0]> root.

(** A root that started in the year 999. *)
Definition early : gmap string value :=
  <["start_time" := VStr "0999-05-05T05:13:24.571809Z"]> root.

(** A root whose [start_time] is no timestamp. *)
Definition bad_start : gmap string value :=
  <["start_time" := VStr "yesterday"]> root.

(** The store before the call: the root's [extra], whose [metadata]
    already has one entry. *)
Definition heap0 : gmap loc (gmap string value) :=
  <[0%nat := {["metadata" := VDict 1]}]> (
  <[1%nat := {["revision" := VStr "abc"]}]> ∅).

Definition st0 : state := mkState (__init__ "Copied Traces" true) heap0 0 0.
Definition st0_updating : state := mkState (__init__ "Copied Traces" false) heap0 0 0.

Definition trace : list (gmap string value) := [child_b; root].
Definition siblings : list (gmap string value) := [child_c; root; child_b].
Definition orphaned : list (gmap string value) := [root; orphan].

End Sample.

(** * The command-line tool around the rewriter

    The rest of [scripts/copy_public_trace.py]: [PublicTraceDownloader],
    which fetches the runs of a shared trace page by page, [TraceUploader],
    which hands the transformed runs to the LangSmith client, and [main],
    which chains download, rewrite and upload. The HTTP server, the client,
    the process environment and the two output streams are outside the
    script; they are modelled by what the script sends to them and by what
    they may answer. *)

(** ** JSON documents

    The body of a response before [response.json()] turns it into Python
    objects. Numbers are integers, as in [value]. *)
#[warnings="-register-all"]
Inductive json :=
  | JNull
  | JBool (b : bool)
  | JNum (z : Z)
  | JStr (s : string)
  | JArr (l : list json)
  | JObj (l : list (string * json)).

(** A dictionary object with the given entries, at a new place in the store. *)
Definition new_object (d : gmap string value) : M value :=
  fun st =>
    let l := fresh (dom (mem st)) in
    (Ok (VDict l), set_mem (insert l d) st).

(** [json.loads]: every JSON object becomes a new dictionary, built once its
    members are decoded; of two members with the same name the later one
    stays. *)
Fixpoint decode (j : json) : M value :=
  match j with
  | JNull => ret VNone
  | JBool b => ret (VBool b)
  | JNum z => ret (VInt z)
  | JStr s => ret (VStr s)
  | JArr l =>
      vs <- (fix items (l : list json) : M (list value) :=
               match l with
               | [] => ret []
               | x :: l' => v <- decode x ;; vs <- items l' ;; ret (v :: vs)
               end) l ;;
      ret (VList vs)
  | JObj kvs =>
      d <- (fix members (kvs : list (string * json)) (d : gmap string value)
              : M (gmap string value) :=
              match kvs with
              | [] => ret d
              | (k, x) :: kvs' => v <- decode x ;; members kvs' (<[k := v]> d)
              end) kvs ∅ ;;
      new_object d
  end.

(** ** The outside world *)

(** A call of [requests.get(url, params=...)] or [requests.post(url, json=...)]. *)
Inductive request :=
  | GET (url : string) (params : list (string * json))
  | POST (url : string) (payload : list (string * json)).

(** A [requests.Response]: the status line, the body as text, and the body
    as JSON when it is JSON. *)
Record response := mkResponse {
  status_code : Z;
  text : string;
  json_body : option json
}.

(** The exceptions that can reach [main]: those of the interpreter that the
    rewriter already knows, [requests.HTTPError] with its [response]
    attribute (which is [None] when the error was made without one), the
    error of [response.json()] on a body that is not JSON, [IndexError], and
    any other exception class of a library ([ConnectionError], the errors of
    the LangSmith client, ...). All of them are [Exception]s; only
    [HTTPError] is a [requests.HTTPError]. *)
Inductive error :=
  | Python (e : exn)
  | HTTPError (r : option response)
  | JSONDecodeError
  | IndexError
  | LibraryError (name : string).

(** [langsmith.Client(api_key=..., api_url=...)] *)
Record Client := mkClient {
  api_key : string;
  api_url : string
}.

(** What the script does to the outside, in the order it happens: requests
    sent, lines printed on the two streams ([print] adds the line end), the
    traceback of [traceback.print_exc()], clients constructed and
    [create_run] calls with their keyword arguments. *)
Inductive event :=
  | Request (r : request)
  | Stdout (line : string)
  | Stderr (line : string)
  | Traceback (e : error)
  | NewClient (c : Client)
  | CreateRun (c : Client) (kwargs : gmap string value).

(** The interpreter's state and the events so far. *)
Record world := mkWorld {
  py : state;
  trail : list event
}.

(** The collaborators of the script. Each answer may depend on everything
    that happened before.
    - [http]: the answer to a request, a response or an exception raised by
      [requests] itself;
    - [getenv]: [os.getenv];
    - [client_init]: the exception [Client(...)] raises, if any;
    - [client_create_run]: the exception [client.create_run(...)] raises, if
      any;
    - [iter_object]: the items of iterating over a string (its characters)
      or a dictionary (its keys);
    - [str_error]: [str(e)] of an exception;
    - [json_dumps]: [json.dumps(run, indent=2, default=str)]. *)
Record services := mkServices {
  http : world -> request -> error + response;
  getenv : string -> option string;
  client_init : world -> Client -> option error;
  client_create_run : world -> Client -> gmap string value -> option error;
  iter_object : gmap loc (gmap string value) -> value -> list value;
  str_error : error -> string;
  json_dumps : gmap loc (gmap string value) -> gmap string value -> error + string
}.

(** ** Computations of the script

    How a call ends: with a value, with an exception, with [sys.exit], or
    not within the number of loop iterations it was allowed. *)
Inductive result (A : Type) :=
  | Done (a : A)
  | Fail (e : error)
  | Exit (code : Z)
  | Pending.
Arguments Done {A} a.
Arguments Fail {A} e.
Arguments Exit {A} code.
Arguments Pending {A}.

Definition IO (A : Type) : Type := world -> result A * world.

#[global] Instance IO_ret : MRet IO := fun A a w => (Done a, w).

#[global] Instance IO_bind : MBind IO := fun A B k c w =>
  match c w with
  | (Done a, w') => k a w'
  | (Fail e, w') => (Fail e, w')
  | (Exit n, w') => (Exit n, w')
  | (Pending, w') => (Pending, w')
  end.

(** [raise e] *)
Definition throw {A} (e : error) : IO A := fun w => (Fail e, w).

(** [sys.exit(code)] *)
Definition sys_exit {A} (code : Z) : IO A := fun w => (Exit code, w).

Definition pending {A} : IO A := fun w => (Pending, w).

(** A computation of the interpreter alone. *)
Definition lift {A} (c : M A) : IO A :=
  fun w =>
    match c (py w) with
    | (Ok a, st) => (Done a, mkWorld st (trail w))
    | (Raise e, st) => (Fail (Python e), mkWorld st (trail w))
    end.

Definition emit (ev : event) : IO unit :=
  fun w => (Done tt, mkWorld (py w) (trail w ++ [ev])%list).

(** [print(line)] and [print(line, file=sys.stderr)]; writing to the two
    streams does not fail. *)
Definition print (line : string) : IO unit := emit (Stdout line).
Definition eprint (line : string) : IO unit := emit (Stderr line).

(** [try: c  except Exception as e: handler(e)]. [sys.exit] is no
    [Exception] and passes through. *)
Definition try_except {A} (c : IO A) (handler : error -> IO A) : IO A :=
  fun w =>
    match c w with
    | (Fail e, w') => handler e w'
    | r => r
    end.

(** The line end inside a printed string. *)
Definition nl : string := String "010"%char EmptyString.

(** [str(len(l))] *)
Definition str_len {A} (l : list A) : string := PyStr.of_Z (Z.of_nat (length l)).

(** The page size of both listing loops. *)
Definition limit : nat := 100.

Record PublicTraceDownloader := mkPublicTraceDownloader {
  share_token : string;
  base_url : string
}.

Record TraceUploader := mkTraceUploader {
  client : Client
}.

(** The parsed command line, [args] of [main]. *)
Module args.

Inductive Region := eu | us.

Record Namespace := mkNamespace {
  share_token : string;
  project : string;
  api_key : option string;
  endpoint : option string;
  region : option Region;
  update_timestamps : bool;
  dry_run : bool
}.

End args.

(** [s.rstrip(c)] for a one-character [c]. *)
Fixpoint rstrip (c : ascii) (s : string) : string :=
  match s with
  | EmptyString => EmptyString
  | String x s' =>
      match rstrip c s' with
      | EmptyString => if Ascii.eqb x c then EmptyString else String x EmptyString
      | t => String x t
      end
  end.

Section Script.

Variable rt : runtime.
Variable sv : services.

(** [requests.get] and [requests.post] *)
Definition requests_send (r : request) : IO response :=
  fun w =>
    let w' := mkWorld (py w) (trail w ++ [Request r])%list in
    match http sv w r with
    | inl e => (Fail e, w')
    | inr resp => (Done resp, w')
    end.

(** [response.raise_for_status()] *)
Definition raise_for_status (r : response) : IO unit :=
  if ((400 <=? status_code r) && (status_code r <? 600))%Z
  then throw (HTTPError (Some r))
  else mret tt.

(** [response.json()] *)
Definition response_json (r : response) : IO value :=
  match json_body r with
  | Some j => lift (decode j)
  | None => throw JSONDecodeError
  end.

(** [o.get(k, dflt)] on an object: only a dictionary has the method. *)
Definition object_get (o : value) (k : string) (dflt : value) : IO value :=
  match o with
  | VDict l => lift (gets (fun st => get k dflt (deref (mem st) l)))
  | _ => throw (Python AttributeError)
  end.

(** The items [runs.extend(batch)] appends, for a [batch] that counts as
    true. [len(batch)] is their number. *)
Definition items_of (batch : value) : IO (list value) :=
  match batch with
  | VList l => mret l
  | VStr _ | VDict _ => lift (gets (fun st => iter_object sv (mem st) batch))
  | _ => throw (Python TypeError)
  end.

(** [not batch] *)
Definition is_falsy (v : value) : IO bool :=
  lift (gets (fun st => negb (truthy (mem st) v))).

(** [PublicTraceDownloader.__init__] *)
Definition PublicTraceDownloader__init__ (share_token base_url : string)
    : PublicTraceDownloader :=
  mkPublicTraceDownloader share_token (rstrip "/"%char base_url).

(** [PublicTraceDownloader.get_root_run] *)
Definition get_root_run (self : PublicTraceDownloader) : IO value :=
  let url := base_url self +:+ "/public/" +:+ share_token self +:+ "/run" in
  response ← requests_send (GET url []);
  raise_for_status response;;
  response_json response.

(** The [while True] loop of [get_all_runs], from the state of its variables
    [runs] and [offset], for at most [n] iterations. *)
Fixpoint get_all_runs_loop (n : nat) (self : PublicTraceDownloader)
    (runs : list value) (offset : nat) : IO (list value) :=
  match n with
  | O => pending
  | S n' =>
      let url := base_url self +:+ "/public/" +:+ share_token self +:+ "/runs/query" in
      let payload := [ ("offset", JNum (Z.of_nat offset));
                       ("limit", JNum (Z.of_nat limit)) ] in
      response ← requests_send (POST url payload);
      raise_for_status response;;
      data ← response_json response;
      batch ← object_get data "runs" (VList []);
      stop ← is_falsy batch;
      if stop : bool then mret runs else
      items ← items_of batch;
      let runs := (runs ++ items)%list in
      let offset := (offset + length items)%nat in
      if (length items <? limit)%nat then mret runs
      else get_all_runs_loop n' self runs offset
  end.

(** [PublicTraceDownloader.get_all_runs] *)
Definition get_all_runs (n : nat) (self : PublicTraceDownloader) : IO (list value) :=
  get_all_runs_loop n self [] 0.

(** The loop of [get_feedbacks]. *)
Fixpoint get_feedbacks_loop (n : nat) (self : PublicTraceDownloader)
    (run_ids : option (list string)) (feedbacks : list value) (offset : nat)
    : IO (list value) :=
  match n with
  | O => pending
  | S n' =>
      let url := base_url self +:+ "/public/" +:+ share_token self +:+ "/feedbacks" in
      let params := [ ("offset", JNum (Z.of_nat offset));
                      ("limit", JNum (Z.of_nat limit)) ] in
      let params :=
        match run_ids with
        | Some (id :: ids) => (params ++ [("run", JArr (JStr <$> id :: ids))])%list
        | _ => params
        end in
      response ← requests_send (GET url params);
      raise_for_status response;;
      batch ← response_json response;
      stop ← is_falsy batch;
      if stop : bool then mret feedbacks else
      items ← items_of batch;
      let feedbacks := (feedbacks ++ items)%list in
      let offset := (offset + length items)%nat in
      if (length items <? limit)%nat then mret feedbacks
      else get_feedbacks_loop n' self run_ids feedbacks offset
  end.

(** [PublicTraceDownloader.get_feedbacks] *)
Definition get_feedbacks (n : nat) (self : PublicTraceDownloader)
    (run_ids : option (list string)) : IO (list value) :=
  get_feedbacks_loop n self run_ids [] 0.

(** [self.client.create_run(...)]: the call and what the client makes of it. *)
Definition create_run (c : Client) (kwargs : gmap string value) : IO unit :=
  fun w =>
    let w' := mkWorld (py w) (trail w ++ [CreateRun c kwargs])%list in
    match client_create_run sv w c kwargs with
    | Some e => (Fail e, w')
    | None => (Done tt, w')
    end.

(** Lines 253-270 of [upload_runs]: the keyword arguments, evaluated from
    left to right, and the call. *)
Definition create_run_from (c : Client) (run : gmap string value)
    (project_name : string) : IO unit :=
  name ← lift (getitem "name" run);
  run_type ← lift (getitem "run_type" run);
  inputs ← lift (get_or_new_dict "inputs" run);
  trace_id ← lift (getitem "trace_id" run);
  id ← lift (getitem "id" run);
  create_run c (
    <["parent_run_id" := get "parent_run_id" VNone run]> (
    <["id" := id]> (
    <["dotted_order" := get "dotted_order" VNone run]> (
    <["trace_id" := trace_id]> (
    <["tags" := get "tags" VNone run]> (
    <["events" := get "events" VNone run]> (
    <["serialized" := get "serialized" VNone run]> (
    <["extra" := get "extra" VNone run]> (
    <["error" := get "error" VNone run]> (
    <["end_time" := get "end_time" VNone run]> (
    <["start_time" := get "start_time" VNone run]> (
    <["project_name" := VStr project_name]> (
    <["outputs" := get "outputs" VNone run]> (
    <["inputs" := inputs]> (
    <["run_type" := run_type]> (
    <["name" := name]> ∅)))))))))))))))).

(** One iteration of the loop of [upload_runs], for the [i]-th of [total]
    runs. *)
Definition upload_run (self : TraceUploader) (project_name : string)
    (total i : nat) (run : gmap string value) : IO unit :=
  try_except
    (create_run_from (client self) run project_name;;
     if (i mod 10 =? 0)%nat
     then print ("  Uploaded " +:+ PyStr.of_Z (Z.of_nat i) +:+ "/"
                   +:+ PyStr.of_Z (Z.of_nat total) +:+ " runs...")
     else mret tt)
    (fun e =>
       id ← lift (getitem "id" run);
       id_str ← lift (str_ rt id);
       eprint ("Error uploading run " +:+ id_str +:+ ": " +:+ str_error sv e);;
       throw e).

(** [for i, run in enumerate(runs, i): ...] *)
Fixpoint upload_each (self : TraceUploader) (project_name : string)
    (total i : nat) (runs : list (gmap string value)) : IO unit :=
  match runs with
  | [] => mret tt
  | run :: runs' =>
      upload_run self project_name total i run;;
      upload_each self project_name total (S i) runs'
  end.

(** [TraceUploader.upload_runs] *)
Definition upload_runs (self : TraceUploader) (runs : list (gmap string value))
    (project_name : string) : IO unit :=
  print ("Uploading " +:+ str_len runs +:+ " runs to project '"
           +:+ project_name +:+ "'...");;
  upload_each self project_name (length runs) 1 runs;;
  print ("✓ Successfully uploaded all " +:+ str_len runs +:+ " runs!").

(** [Client(api_key=api_key, api_url=endpoint)] *)
Definition Client__init__ (api_key api_url : string) : IO Client :=
  fun w =>
    let c := mkClient api_key api_url in
    let w' := mkWorld (py w) (trail w ++ [NewClient c])%list in
    match client_init sv w c with
    | Some e => (Fail e, w')
    | None => (Done c, w')
    end.

(** The run records behind a list of objects. [transform_runs] calls
    [r.get] on each of them before anything else; an object that is no
    dictionary has no such method. *)
Fixpoint records_of (runs : list value) : IO (list (gmap string value)) :=
  match runs with
  | [] => mret []
  | VDict l :: runs' =>
      r ← lift (gets (fun st => deref (mem st) l));
      rs ← records_of runs';
      mret (r :: rs)
  | _ :: _ => throw (Python AttributeError)
  end.

(** [transformer = TraceTransformer(...)]: the transformer the following
    method calls work on. *)
Definition new_transformer (target_project : string) (preserve_timestamps : bool)
    : IO unit :=
  lift (modify (set_self (fun _ => __init__ target_project preserve_timestamps))).

(** Lines 331-339 of [main]: the API endpoint. *)
Definition endpoint_of (a : args.Namespace) : string :=
  if truthy_opt (args.endpoint a) then default EmptyString (args.endpoint a)
  else
    match args.region a with
    | Some args.eu => "https://eu.api.smith.langchain.com"
    | _ => default "https://api.smith.langchain.com" (getenv sv "LANGCHAIN_ENDPOINT")
    end.

(** Line 342: [args.api_key or os.getenv("LANGSMITH_API_KEY")]. *)
Definition api_key_of (a : args.Namespace) : option string :=
  if truthy_opt (args.api_key a) then args.api_key a
  else getenv sv "LANGSMITH_API_KEY".

(** [str(v)] of an optional string. *)
Definition str_opt (o : option string) : string := default "None" o.

(** [json.dumps(run, indent=2, default=str)] *)
Definition dumps (run : gmap string value) : IO string :=
  fun w =>
    match json_dumps sv (mem (py w)) run with
    | inl e => (Fail e, w)
    | inr s => (Done s, w)
    end.

(** Lines 348-359 of [main], step 1: download the public trace. *)
Definition download_trace (n : nat) (a : args.Namespace) (endpoint : string)
    : IO (list value) :=
  print ("Fetching public trace with token: " +:+ args.share_token a);;
  print ("Using endpoint: " +:+ endpoint);;
  let downloader := PublicTraceDownloader__init__ (args.share_token a) endpoint in
  print "  Downloading root run...";;
  root_run ← get_root_run downloader;
  name ← object_get root_run "name" VNone;
  name_str ← lift (str_ rt name);
  id ← object_get root_run "id" VNone;
  id_str ← lift (str_ rt id);
  print ("  ✓ Root run: " +:+ name_str +:+ " (ID: " +:+ id_str +:+ ")");;
  print "  Downloading all runs in trace...";;
  all_runs ← get_all_runs n downloader;
  print ("  ✓ Found " +:+ str_len all_runs +:+ " runs");;
  mret all_runs.

(** Lines 361-369, step 2: transform the runs. *)
Definition transform_trace (a : args.Namespace) (all_runs : list value)
    : IO (list (gmap string value)) :=
  print (nl +:+ "Transforming runs for project '" +:+ args.project a +:+ "'...");;
  new_transformer (args.project a) (negb (args.update_timestamps a));;
  records ← records_of all_runs;
  transformed_runs ← lift (transform_runs rt records);
  print ("  ✓ Transformed " +:+ str_len transformed_runs +:+ " runs");;
  trace_id ← lift (gets (fun st => new_trace_id (self st)));
  print ("  New trace ID: " +:+ str_opt trace_id);;
  mret transformed_runs.

(** Lines 371-378: the report of a dry run. *)
Definition dry_run_report (a : args.Namespace)
    (transformed_runs : list (gmap string value)) : IO unit :=
  print (nl +:+ "[DRY RUN] Would upload the following:");;
  print ("  Project: " +:+ args.project a);;
  print ("  Runs: " +:+ str_len transformed_runs);;
  trace_id ← lift (gets (fun st => new_trace_id (self st)));
  print ("  Trace ID: " +:+ str_opt trace_id);;
  print (nl +:+ "Sample transformed run:");;
  match transformed_runs with
  | [] => throw IndexError
  | first :: _ => dumped ← dumps first; print dumped
  end.

(** Lines 380-388, step 3: upload to LangSmith. *)
Definition upload_trace (a : args.Namespace) (endpoint api_key : string)
    (all_runs : list value) (transformed_runs : list (gmap string value))
    : IO unit :=
  print (nl +:+ "Uploading to LangSmith...");;
  client ← Client__init__ api_key endpoint;
  let uploader := mkTraceUploader client in
  upload_runs uploader transformed_runs (args.project a);;
  print (nl +:+ "✓ Successfully copied trace to project '" +:+ args.project a +:+ "'!");;
  print ("  Original runs: " +:+ str_len all_runs);;
  trace_id ← lift (gets (fun st => new_trace_id (self st)));
  print ("  New trace ID: " +:+ str_opt trace_id).

(** Lines 347-388: the body of the [try] statement of [main]. *)
Definition copy_trace (n : nat) (a : args.Namespace) (endpoint api_key : string)
    : IO unit :=
  all_runs ← download_trace n a endpoint;
  transformed_runs ← transform_trace a all_runs;
  if args.dry_run a then dry_run_report a transformed_runs
  else upload_trace a endpoint api_key all_runs transformed_runs.

(** [main], from the parsed arguments on. *)
Definition main (n : nat) (a : args.Namespace) : IO unit :=
  let endpoint := endpoint_of a in
  let api_key := api_key_of a in
  if negb (truthy_opt api_key) then
    eprint "Error: API key required. Set LANGSMITH_API_KEY or use --api-key";;
    sys_exit 1
  else
    try_except (copy_trace n a endpoint (default EmptyString api_key))
      (fun e =>
         match e with
         | HTTPError response =>
             eprint (nl +:+ "HTTP Error: " +:+ str_error sv e);;
             match response with
             | Some r => eprint ("Response: " +:+ text r)
             | None => throw (Python AttributeError)
             end;;
             sys_exit 1
         | _ =>
             eprint (nl +:+ "Error: " +:+ str_error sv e);;
             emit (Traceback e);;
             sys_exit 1
         end).

End Script.

(** ** What the rewrite does with the payload *)

(** The keys of the dictionary literal of [_transform_single_run], with
    [dotted_order], and the token-count keys. *)
Definition fixed_keys : list string :=
  [ "id"; "trace_id"; "parent_run_id"; "name"; "run_type"; "start_time";
    "end_time"; "inputs"; "outputs"; "extra"; "error"; "serialized"; "events";
    "tags"; "session_name"; "dotted_order" ].

Definition token_keys : list string :=
  [ "total_tokens"; "prompt_tokens"; "completion_tokens"; "first_token_time" ].

(** The payload of the record [t] made from [r] for the project [project]:
    fields taken over as they are ([None], an empty list or a new
    dictionary standing for an absent one), the project as [session_name],
    the token counts that [r] has, and no other key. *)
Record carried_over (project : string) (r t : gmap string value) : Prop :=
  mk_carried_over {
  co_name : t !! "name" = Some (get "name" VNone r);
  co_run_type : t !! "run_type" = Some (get "run_type" VNone r);
  co_error : t !! "error" = Some (get "error" VNone r);
  co_serialized : t !! "serialized" = Some (get "serialized" VNone r);
  co_events : t !! "events" = Some (get "events" (VList []) r);
  co_tags : t !! "tags" = Some (get "tags" (VList []) r);
  co_inputs :
    match r !! "inputs" with
    | Some v => t !! "inputs" = Some v
    | None => exists l, t !! "inputs" = Some (VDict l)
    end;
  co_outputs :
    match r !! "outputs" with
    | Some v => t !! "outputs" = Some v
    | None => exists l, t !! "outputs" = Some (VDict l)
    end;
  co_session : t !! "session_name" = Some (VStr project);
  co_tokens : forall k, k ∈ token_keys -> t !! k = r !! k;
  co_others : forall k, k ∉ fixed_keys -> k ∉ token_keys -> t !! k = None
}.

(** ** What the download establishes *)

(** The Python value [v] is the JSON document [j], decoded into the store
    [h]. *)
Fixpoint represents (h : gmap loc (gmap string value)) (j : json) (v : value) : Prop :=
  match j with
  | JNull => v = VNone
  | JBool b => v = VBool b
  | JNum z => v = VInt z
  | JStr s => v = VStr s
  | JArr l =>
      exists vs, v = VList vs /\
        (fix items (l : list json) (vs : list value) : Prop :=
           match l, vs with
           | [], [] => True
           | x :: l', v :: vs' => represents h x v /\ items l' vs'
           | _, _ => False
           end) l vs
  | JObj kvs =>
      exists l d, v = VDict l /\ h !! l = Some d /\
        (fix members (kvs : list (string * json)) (acc : gmap string value) : Prop :=
           match kvs with
           | [] => d = acc
           | (k, x) :: kvs' =>
               exists v, represents h x v /\ members kvs' (<[k := v]> acc)
           end) kvs ∅
  end.

(** The value of the member [k] of a JSON object: the last one of that
    name. *)
Fixpoint member (k : string) (kvs : list (string * json)) : option json :=
  match kvs with
  | [] => None
  | (k', x) :: kvs' =>
      match member k kvs' with
      | Some y => Some y
      | None => if String.eqb k k' then Some x else None
      end
  end.

(** The requests among the events. *)
Definition requests (t : list event) : list request :=
  omap (fun ev => match ev with Request r => Some r | _ => None end) t.

(** The [create_run] calls among the events. *)
Definition created (t : list event) : list (Client * gmap string value) :=
  omap (fun ev => match ev with CreateRun c kw => Some (c, kw) | _ => None end) t.

(** The lines written to the error stream. *)
Definition stderr (t : list event) : list string :=
  omap (fun ev => match ev with Stderr s => Some s | _ => None end) t.

(** The request for the page of runs that starts at [offset]. *)
Definition page_request (d : PublicTraceDownloader) (offset : nat) : request :=
  POST (base_url d +:+ "/public/" +:+ share_token d +:+ "/runs/query")
    [ ("offset", JNum (Z.of_nat offset)); ("limit", JNum (Z.of_nat limit)) ].

(** A response that [raise_for_status] lets pass and whose body is an
    object with the member [k]. *)
Definition answers (r : response) (k : string) (j : json) : Prop :=
  ((status_code r < 400)%Z \/ (600 <= status_code r)%Z) /\
  exists kvs, json_body r = Some (JObj kvs) /\ member k kvs = Some j.

(** The server holds the runs [all] and answers the request for a page that
    starts before [bound] with that page, at most [limit] runs. *)
Definition serves_pages (sv : services) (d : PublicTraceDownloader)
    (all : list json) (bound : nat) : Prop :=
  forall w offset, (offset < bound)%nat ->
    exists r, http sv w (page_request d offset) = inr r /\
      answers r "runs" (JArr (take limit (drop offset all))).

(** The offsets of the pages asked for, for [total] runs. *)
Definition page_offsets (total : nat) : list nat :=
  (fun i => i * limit)%nat <$> seq 0 (S (total / limit)).

(** ** What the upload establishes *)

(** The keys [upload_runs] subscripts; the others it reads with [get]. *)
Definition required_keys : list string := [ "name"; "run_type"; "trace_id"; "id" ].

Definition optional_keys : list string :=
  [ "outputs"; "start_time"; "end_time"; "error"; "extra"; "serialized";
    "events"; "tags"; "dotted_order"; "parent_run_id" ].

(** A run that has the required keys. *)
Definition uploadable (run : gmap string value) : Prop :=
  Forall (fun k => is_Some (run !! k)) required_keys.

(** The keyword arguments [kwargs] are those of the [create_run] call for
    [run] and the project [project_name]: the required fields, the optional
    ones with [None] for an absent one, [inputs] with a new dictionary for
    an absent one, and the project name given to [upload_runs]. *)
Record sent (project_name : string) (run kwargs : gmap string value) : Prop :=
  mk_sent {
  sent_required : forall k, k ∈ required_keys -> kwargs !! k = run !! k;
  sent_optional : forall k, k ∈ optional_keys -> kwargs !! k = Some (get k VNone run);
  sent_inputs :
    match run !! "inputs" with
    | Some v => kwargs !! "inputs" = Some v
    | None => exists l, kwargs !! "inputs" = Some (VDict l)
    end;
  sent_project : kwargs !! "project_name" = Some (VStr project_name);
  sent_others :
    forall k, k ∉ required_keys -> k ∉ optional_keys -> k <> "inputs" ->
      k <> "project_name" -> kwargs !! k = None
}.

(** ** What [main] does to the outside *)

(** Every run of [c] appends only events that satisfy [ok] and does not end
    in [sys.exit]. *)
Definition behaves {A} (ok : event -> Prop) (c : IO A) : Prop :=
  forall w res w', c w = (res, w') ->
    (forall code, res <> Exit code) /\
    exists evs, trail w' = (trail w ++ evs)%list /\ Forall ok evs.

(** The address a request goes to. *)
Definition request_url (r : request) : string :=
  match r with GET url _ | POST url _ => url end.

(** The events [main] may cause for the arguments [a]: requests to the two
    addresses of the shared trace under the chosen endpoint, lines of
    output, the construction of the client for that endpoint and key, and
    [create_run] calls of that client for the project. *)
Definition main_event (sv : services) (a : args.Namespace) (ev : event) : Prop :=
  let base := rstrip "/"%char (endpoint_of sv a) in
  let the_client := mkClient (default EmptyString (api_key_of sv a)) (endpoint_of sv a) in
  match ev with
  | Request r =>
      request_url r = base +:+ "/public/" +:+ args.share_token a +:+ "/run" \/
      request_url r = base +:+ "/public/" +:+ args.share_token a +:+ "/runs/query"
  | NewClient c => c = the_client
  | CreateRun c kwargs =>
      c = the_client /\ kwargs !! "project_name" = Some (VStr (args.project a))
  | Stdout _ | Stderr _ | Traceback _ => True
  end.

(** An event that involves the LangSmith client. *)
Definition client_event (ev : event) : Prop :=
  match ev with
  | NewClient _ | CreateRun _ _ => True
  | _ => False
  end.

(** ** The shape of what is uploaded *)

(** The records (or the keyword arguments of the calls) [l] are one tree in
    creation order: all carry the trace id [tid], the one at [root] has that
    id and no parent, it is the only one without a parent, and every other
    one names as its parent the id of one that stands before it. *)
Definition parents_first (l : list (gmap string value)) (tid : string) (root : nat)
    : Prop :=
  (forall t, t ∈ l -> t !! "trace_id" = Some (VStr tid)) /\
  (exists t0, l !! root = Some t0 /\ t0 !! "id" = Some (VStr tid) /\
     t0 !! "parent_run_id" = Some VNone) /\
  (forall j t, l !! j = Some t -> j <> root ->
     exists i tp p, (i < j)%nat /\ l !! i = Some tp /\ tp !! "id" = Some (VStr p) /\
       t !! "parent_run_id" = Some (VStr p)).

(** The server answers the request for the root run with a JSON object. *)
Definition serves_root (sv : services) (d : PublicTraceDownloader) : Prop :=
  forall w, exists r kvs,
    http sv w (GET (base_url d +:+ "/public/" +:+ share_token d +:+ "/run") []) = inr r /\
    ((status_code r < 400)%Z \/ (600 <= status_code r)%Z) /\
    json_body r = Some (JObj kvs).

(** The run record behind the decoded JSON object [j]. *)
Definition record_in (h : gmap loc (gmap string value)) (j : json)
    (r : gmap string value) : Prop :=
  exists l, represents h j (VDict l) /\ h !! l = Some r.

(** The JSON documents [all] are the runs of a valid single-root trace:
    each is an object, and however they are decoded, the records are a
    valid trace whose payload can be rewritten. *)
Definition json_trace (rt : runtime) (all : list json) : Prop :=
  Forall (fun j => exists kvs, j = JObj kvs) all /\
  forall h records, Forall2 (record_in h) all records ->
    valid_trace records /\ payload_ok rt h records.

(** The request for the page of feedbacks that starts at [offset], with the
    filter on runs when [run_ids] holds ids. *)
Definition feedback_request (d : PublicTraceDownloader)
    (run_ids : option (list string)) (offset : nat) : request :=
  GET (base_url d +:+ "/public/" +:+ share_token d +:+ "/feedbacks")
    ([ ("offset", JNum (Z.of_nat offset)); ("limit", JNum (Z.of_nat limit)) ]
     ++ match run_ids with
        | Some (id :: ids) => [("run", JArr (JStr <$> id :: ids))]
        | _ => []
        end)%list.

(** The server holds the feedbacks [all] of the runs asked for and answers
    each request for a page with that page, a JSON array. *)
Definition serves_feedbacks (sv : services) (d : PublicTraceDownloader)
    (run_ids : option (list string)) (all : list json) : Prop :=
  forall w offset,
    exists r, http sv w (feedback_request d run_ids offset) = inr r /\
      ((status_code r < 400)%Z \/ (600 <= status_code r)%Z) /\
      json_body r = Some (JArr (take limit (drop offset all))).

(** ** A sample session

    A shared trace of two runs on a server that answers every request, a
    client that accepts every run, and the command line of a copy to the EU
    endpoint. *)
Module Scenario.

Definition root_run : json :=
  JObj [ ("id", JStr "A"); ("parent_run_id", JNull); ("name", JStr "agent");
         ("run_type", JStr "chain");
         ("start_time", JStr "2023-05-05T05:13:24.571809Z");
         ("dotted_order", JStr "20230505T051324571809ZA") ].

Definition child_run : json :=
  JObj [ ("id", JStr "B"); ("parent_run_id", JStr "A"); ("name", JStr "llm");
         ("run_type", JStr "llm");
         ("start_time", JStr "2023-05-05T05:13:25Z");
         ("dotted_order", JStr "20230505T051324571809ZA.20230505T051325000000ZB");
         ("total_tokens", JNum 42) ].

Definition all : list json := [child_run; root_run].

(** The page of [items] that the parameters of a request ask for. *)
Definition page_of (items : list json) (params : list (string * json)) : list json :=
  match params with
  | (_, JNum offset) :: _ => take limit (drop (Z.to_nat offset) items)
  | _ => []
  end.

(** A server that holds the runs [runs] and the feedbacks [feedbacks] of a
    trace, at whatever address it is asked; from the offset [stop] on, its
    listing of runs fails. *)
Definition serve (runs feedbacks : list json) (stop : option nat)
    (_ : world) (r : request) : error + response :=
  match r with
  | GET _ [] => inr (mkResponse 200 EmptyString (Some root_run))
  | GET _ params => inr (mkResponse 200 EmptyString (Some (JArr (page_of feedbacks params))))
  | POST _ ((k, JNum offset) :: params) =>
      if match stop with Some s => (s <=? Z.to_nat offset)%nat | None => false end
      then inr (mkResponse 500 "Internal Server Error" None)
      else inr (mkResponse 200 EmptyString
                  (Some (JObj [ ("runs", JArr (page_of runs ((k, JNum offset) :: params)));
                                ("cursors", JNull) ])))
  | POST _ _ => inr (mkResponse 422 "Unprocessable Entity" None)
  end.

(** A server whose listing of runs has a full page for every request. *)
Definition serve_endless (_ : world) (r : request) : error + response :=
  inr (mkResponse 200 EmptyString
         (Some (JObj [("runs", JArr (replicate limit (JObj [])))]))).

Definition services_with (http : world -> request -> error + response) : services :=
  {| http := http;
     getenv := fun _ => None;
     client_init := fun _ _ => None;
     client_create_run := fun _ _ _ => None;
     iter_object := fun _ _ => [];
     str_error := fun _ => "error";
     json_dumps := fun _ _ => inr "{}" |}.

Definition sv : services := services_with (serve all [root_run] None).

(** A hundred and fifty runs, and a server that fails from the second page
    on. *)
Definition many : list json := replicate 150 (JObj []).
Definition sv_failing : services := services_with (serve many [] (Some 100%nat)).

Definition sv_endless : services := services_with serve_endless.

(** A server without runs. *)
Definition sv_empty : services := services_with (serve [] [] None).

(** A connection on which every request raises an [HTTPError] that has no
    response. *)
Definition sv_broken : services :=
  services_with (fun _ _ => inl (HTTPError None)).

(** A server that does not know the share token. *)
Definition sv_missing : services :=
  services_with (fun _ _ => inr (mkResponse 404 "Not Found" None)).

Definition cli : args.Namespace :=
  args.mkNamespace "abc123def456" "Copied Traces" (Some "ls__xxx") None
    (Some args.eu) false false.

Definition cli_dry_run : args.Namespace :=
  args.mkNamespace "abc123def456" "Copied Traces" (Some "ls__xxx") None
    (Some args.eu) false true.

Definition cli_without_key : args.Namespace :=
  args.mkNamespace "abc123def456" "Copied Traces" None None None false true.

Definition downloader : PublicTraceDownloader :=
  PublicTraceDownloader__init__ "abc123def456" "https://eu.api.smith.langchain.com/".

Definition w0 : world := mkWorld Sample.st0 [].

Definition uploader : TraceUploader :=
  mkTraceUploader (mkClient "ls__xxx" "https://eu.api.smith.langchain.com").

(** A transformed run without [name]. *)
Definition nameless : gmap string value :=
  list_to_map [ ("id", VStr "n1"); ("trace_id", VStr "n1"); ("run_type", VStr "llm") ].

(** A run that can be uploaded. *)
Definition plain : gmap string value :=
  list_to_map [ ("id", VStr "p1"); ("trace_id", VStr "p1"); ("run_type", VStr "llm");
                ("name", VStr "plain") ].

(** Two records with the same id. *)
Definition twins : list (gmap string value) := [Sample.child_b; Sample.orphan].

(** A record without [id]. *)
Definition anonymous : gmap string value :=
  list_to_map [ ("name", VStr "anonymous"); ("parent_run_id", VStr "A") ].

(** Two roots. *)
Definition second_root : gmap string value :=
  list_to_map
    [ ("id", VStr "R"); ("parent_run_id", VNone);
      ("start_time", VStr "2023-05-05T05:13:26Z");
      ("dotted_order", VStr "20230505T051326000000ZR") ].

Definition two_roots : list (gmap string value) := [second_root; Sample.root].

(** Records without a root. *)
Definition rootless : list (gmap string value) := [Sample.child_b; Sample.child_c].

(** The records that [all] decodes to, with the members in the order in
    which decoding has added them. *)
Definition child_record : gmap string value :=
  list_to_map
    [ ("total_tokens", VInt 42);
      ("dotted_order", VStr "20230505T051324571809ZA.20230505T051325000000ZB");
      ("start_time", VStr "2023-05-05T05:13:25Z");
      ("run_type", VStr "llm"); ("name", VStr "llm");
      ("parent_run_id", VStr "A"); ("id", VStr "B") ].

Definition root_record : gmap string value :=
  list_to_map
    [ ("dotted_order", VStr "20230505T051324571809ZA");
      ("start_time", VStr "2023-05-05T05:13:24.571809Z");
      ("run_type", VStr "chain"); ("name", VStr "agent");
      ("parent_run_id", VNone); ("id", VStr "A") ].

Definition records : list (gmap string value) := [child_record; root_record].

End Scenario.

(** ** Auxiliary notions of the proofs *)

(** The order [sorted] works with: the key of [a] is not after that of [b]. *)
Definition key_le {A : Type} (key : A -> string) (a b : A) : Prop :=
  String.leb (key a) (key b) = true.

Definition not_hyphen (x : ascii) : bool := negb (Ascii.eqb x "-"%char).

(** Membership in a literal list, case by case. *)
Ltac in_list H :=
  repeat (apply elem_of_cons in H as [->|H]); try (by apply elem_of_nil in H).

(** A key that is none of the token-count keys. *)
Ltac not_token :=
  repeat (apply not_elem_of_cons; split; [done|]); apply not_elem_of_nil.

(** Decide the key comparisons of a sort of named records, leaving the
    records folded. *)
Ltac sort_sample :=
  cbv beta iota delta [sorted_by foldr insert_sorted];
  repeat (match goal with
          | |- context [String.ltb (dotted_key ?a) (dotted_key ?b)] =>
              let v := eval vm_compute in (String.ltb (dotted_key a) (dotted_key b)) in
              replace (String.ltb (dotted_key a) (dotted_key b)) with v
                by (vm_compute; reflexivity)
          end; cbv beta iota delta [insert_sorted]);
  reflexivity.

(** [valid_trace] of a literal list of at most three records, given its
    sorted form, its root and its list of ids. *)
Ltac valid_sample Hsorted root ids :=
  split;
  [ repeat (apply Forall_cons_2;
            [eexists; (split; [vm_compute; reflexivity|done])|]);
    apply Forall_nil_2
  | replace (id_of <$> _) with ids by (vm_compute; reflexivity);
    apply (bool_decide_unpack _); vm_compute; exact I
  | exists root; split_and!;
    [ repeat constructor | vm_compute; reflexivity
    | let r := fresh "r" in let Hr := fresh "Hr" in let Hroot := fresh "Hroot" in
      intros r Hr Hroot; in_list Hr; (done || (vm_compute in Hroot; discriminate)) ]
  | let c := fresh "c" in let Hc := fresh "Hc" in
    intros c Hc; in_list Hc;
    ((left; vm_compute; reflexivity)
     || (right; exists root; split; [repeat constructor|vm_compute; reflexivity]))
  | repeat (apply Forall_cons_2; [eexists; vm_compute; reflexivity|]);
    apply Forall_nil_2
  | rewrite Hsorted;
    let Hs := fresh "Hs" in let Hpc := fresh "Hpc" in
    intros [|[|[|?]]] [|[|[|?]]] ? ? ? ? [? Hs] Hpc; simplify_eq/=; try lia;
    vm_compute in Hs, Hpc; discriminate ].

Ltac payload_sample :=
  repeat (apply Forall_cons_2;
          [split; [(vm_compute; exact I) || (eexists; vm_compute; reflexivity)
                  |vm_compute; exact I]|]);
  apply Forall_nil_2.

Ltac record_sample :=
  split;
  [ eexists; vm_compute; reflexivity
  | (left; vm_compute; reflexivity) || (right; eexists; vm_compute; reflexivity)
  | eexists; vm_compute; reflexivity
  | (vm_compute; exact I) || (eexists; vm_compute; reflexivity)
  | vm_compute; exact I ].

(** A key outside a literal list of keys differs from each of them. *)
Ltac other_key H :=
  repeat (apply not_elem_of_cons in H as [? H]); try done.

(** A key of a literal list of keys. *)
Ltac is_key :=
  unfold fixed_keys, token_keys;
  repeat first [apply list_elem_of_here | apply list_elem_of_further].

(** The items of an array and the members of an object, as relations of
    their own. *)
Definition items_rep (h : gmap loc (gmap string value)) : list json → list value → Prop :=
  fix items l vs :=
    match l, vs with
    | [], [] => True
    | x :: l', v :: vs' => represents h x v ∧ items l' vs'
    | _, _ => False
    end.

Definition members_rep (h : gmap loc (gmap string value)) (d : gmap string value)
    : list (string * json) → gmap string value → Prop :=
  fix members kvs acc :=
    match kvs with
    | [] => d = acc
    | (k, x) :: kvs' => ∃ v, represents h x v ∧ members kvs' (<[k := v]> acc)
    end.

(** What one request for a page gives: the decoded page, in a world that
    has one more request and new dictionaries only. *)
Definition page_fetched (w : world) (req : request) (page : list json)
    (vs : list value) (w1 : world) : Prop :=
  Forall2 (represents (mem (py w1))) page vs ∧
  trail w1 = (trail w ++ [Request req])%list ∧
  self (py w1) = self (py w) ∧ clock (py w1) = clock (py w) ∧
  entropy (py w1) = entropy (py w) ∧ mem (py w) ⊆ mem (py w1).

(** Events that are neither a client event nor a line on the error stream. *)
Definition quiet (ev : event) : Prop :=
  match ev with Request _ | Stdout _ => True | _ => False end.

(** The Python value of a JSON document that is no array and no object. *)
Definition atom (j : json) : option value :=
  match j with
  | JNull => Some VNone
  | JBool b => Some (VBool b)
  | JNum z => Some (VInt z)
  | JStr s => Some (VStr s)
  | JArr _ | JObj _ => None
  end.

(** The dictionary of a JSON object whose members are all of that kind. *)
Fixpoint flat_record (kvs : list (string * json)) (acc : gmap string value)
    : option (gmap string value) :=
  match kvs with
  | [] => Some acc
  | (k, x) :: kvs' =>
      match atom x with
      | Some v => flat_record kvs' (<[k := v]> acc)
      | None => None
      end
  end.

(** * Properties *)

(** ** Strings *)
Section Strings.

Lemma nonempty_app_r (a b : string) :
  PyStr.nonempty b = true → PyStr.nonempty (a +:+ b) = true.
Proof. destruct a; simpl; [done|reflexivity]. Qed.

Lemma ascii_compare_refl (a : ascii) : Ascii.compare a a = Eq.
Proof. unfold Ascii.compare. apply N.compare_refl. Qed.

(** A string sorts strictly before each of its proper extensions. *)
Lemma ltb_app_cons (s : string) (c : ascii) (t : string) :
  String.ltb s (s +:+ String c t) = true.
Proof.
  unfold String.ltb. induction s as [|a s IH]; simpl; [done|].
  by rewrite ascii_compare_refl.
Qed.

Lemma ltb_leb (s t : string) : String.ltb s t = negb (String.leb t s).
Proof.
  unfold String.ltb, String.leb. rewrite (String.compare_antisym t s).
  by destruct (String.compare s t).
Qed.

Lemma str_length_app (a b : string) :
  String.length (a +:+ b) = (String.length a + String.length b)%nat.
Proof. induction a as [|x a IH]; simpl; [done|]. by rewrite IH. Qed.

Lemma str_length_repeat c n : String.length (PyStr.repeat c n) = n.
Proof. induction n; simpl; [done|]. by rewrite IHn. Qed.

Lemma length_digits (b : N) (w fuel : nat) (n : N) :
  (1 < b)%N → (0 < w)%nat → (0 < fuel)%nat → (n < b ^ N.of_nat w)%N →
  (1 <= String.length (PyStr.digits b fuel n) <= w)%nat.
Proof.
  intros Hb. revert w n. induction fuel as [|fuel IH]; intros w n Hw Hf Hn; [lia|].
  simpl. rewrite str_length_app. simpl.
  destruct (N.ltb_spec n b) as [Hlt|Hge]; simpl; [lia|].
  destruct fuel as [|fuel']; [simpl; lia|].
  destruct w as [|[|w]]; [lia| |].
  - simpl in Hn. rewrite N.pow_1_r in Hn. lia.
  - assert (n / b < b ^ N.of_nat (S w))%N.
    { apply N.Div0.div_lt_upper_bound.
      replace (N.of_nat (S (S w))) with (N.succ (N.of_nat (S w))) in Hn by lia.
      by rewrite N.pow_succ_r' in Hn. }
    specialize (IH (S w) (n / b)%N ltac:(lia) ltac:(lia) H). lia.
Qed.

(** A number below [b ^ w] prints in exactly [w] characters. *)
Lemma length_zfill (b : N) (w : nat) (n : N) :
  (1 < b)%N → (0 < w)%nat → (n < b ^ N.of_nat w)%N →
  String.length (PyStr.zfill b w n) = w.
Proof.
  intros Hb Hw Hn. unfold PyStr.zfill. rewrite str_length_app, str_length_repeat.
  pose proof (length_digits b w (S (N.to_nat (N.log2 n))) n Hb Hw ltac:(lia) Hn). lia.
Qed.

(** A number of at least [b ^ w] prints in more than [w] characters. *)
Lemma length_digits_lower (b : N) (w fuel : nat) (n : N) :
  (1 < b)%N → (w < fuel)%nat → (b ^ N.of_nat w <= n)%N →
  (S w <= String.length (PyStr.digits b fuel n))%nat.
Proof.
  intros Hb. revert fuel n. induction w as [|w IH]; intros fuel n Hf Hn.
  - destruct fuel as [|fuel]; [lia|]. simpl. rewrite str_length_app. simpl. lia.
  - destruct fuel as [|fuel]; [lia|]. simpl. rewrite str_length_app. simpl.
    replace (N.of_nat (S w)) with (N.succ (N.of_nat w)) in Hn by lia.
    rewrite N.pow_succ_r' in Hn.
    assert (b ^ N.of_nat w ≠ 0)%N as Hpos by (apply N.pow_nonzero; lia).
    destruct (N.ltb_spec n b) as [Hlt|Hge]; [nia|].
    assert (b ^ N.of_nat w <= n / b)%N as Hq by (apply N.div_le_lower_bound; lia).
    specialize (IH fuel (n / b)%N ltac:(lia) Hq). lia.
Qed.

(** [%Y] of a year of four digits. *)
Lemma length_fmt_year (y : N) :
  (1000 <= y < 10000)%N → String.length (PyStr.fmt_d 1 y) = 4%nat.
Proof.
  intros Hy. unfold PyStr.fmt_d, PyStr.zfill.
  rewrite str_length_app, str_length_repeat.
  assert (9 <= N.log2 y)%N as Hlog.
  { change 9%N with (N.log2 1000). apply N.log2_le_mono. lia. }
  pose proof (length_digits 10 4 (S (N.to_nat (N.log2 y))) y
                ltac:(lia) ltac:(lia) ltac:(lia) ltac:(simpl; lia)) as [_ Hup].
  pose proof (length_digits_lower 10 3 (S (N.to_nat (N.log2 y))) y
                ltac:(lia) ltac:(lia) ltac:(simpl; lia)) as Hlow.
  lia.
Qed.

(** The timestamp of a datetime whose year has four digits is 21
    characters wide. *)
Lemma length_strftime_compact (d : datetime) :
  Datetime.valid d → (1000 <= year d)%N →
  String.length (Datetime.strftime_compact d) = 21%nat.
Proof.
  intros (Hy & Hm & Hd & Hh & Hmi & Hs & Hus) Hy4.
  unfold Datetime.strftime_compact.
  rewrite !str_length_app, length_fmt_year by lia.
  unfold PyStr.fmt_d. rewrite !length_zfill; simpl; lia.
Qed.

Lemma nonempty_app_l (a b : string) :
  PyStr.nonempty a = true → PyStr.nonempty (a +:+ b) = true.
Proof. by destruct a. Qed.

Lemma str_app_cons (x : ascii) (a b : string) : String x a +:+ b = String x (a +:+ b).
Proof. reflexivity. Qed.

Lemma str_app_nil_l (a : string) : EmptyString +:+ a = a.
Proof. reflexivity. Qed.

Lemma str_app_assoc (a b c : string) : (a +:+ b) +:+ c = a +:+ (b +:+ c).
Proof. induction a as [|x a IH]; [done|]. by rewrite !str_app_cons, IH. Qed.

Lemma replace_app (c : ascii) (new a b : string) :
  PyStr.replace c new (a +:+ b) = PyStr.replace c new a +:+ PyStr.replace c new b.
Proof.
  induction a as [|x a IH]; [done|]. rewrite str_app_cons. simpl.
  destruct (Ascii.eqb x c); rewrite IH; by rewrite ?str_app_assoc.
Qed.

(** Replacing a character a string does not contain changes nothing. *)
Lemma replace_absent (c : ascii) (new s : string) :
  PyStr.all_chars (λ x, negb (Ascii.eqb x c)) s = true → PyStr.replace c new s = s.
Proof.
  induction s as [|x s IH]; simpl; [done|].
  intros [Hx Hs]%andb_true_iff. apply negb_true_iff in Hx. rewrite Hx. by rewrite IH.
Qed.

Lemma all_chars_app P (a b : string) :
  PyStr.all_chars P (a +:+ b) = PyStr.all_chars P a && PyStr.all_chars P b.
Proof.
  induction a as [|x a IH]; [done|]. rewrite str_app_cons. simpl. by rewrite IH, andb_assoc.
Qed.

Lemma all_chars_repeat P c n : P c = true → PyStr.all_chars P (PyStr.repeat c n) = true.
Proof. intros Hc. induction n; simpl; [done|]. by rewrite Hc, IHn. Qed.

Lemma all_chars_substring P i n (s : string) :
  PyStr.all_chars P s = true → PyStr.all_chars P (substring i n s) = true.
Proof.
  revert i n. induction s as [|x s IH]; intros i n; simpl.
  { by destruct i, n. }
  intros [Hx Hs]%andb_true_iff.
  destruct i as [|i]; [|by apply IH].
  destruct n as [|n]; simpl; [done|]. by rewrite Hx, IH.
Qed.

Lemma all_chars_digits P b fuel n :
  (0 < b)%N → (∀ d, (d < b)%N → P (PyStr.digit_char d) = true) →
  PyStr.all_chars P (PyStr.digits b fuel n) = true.
Proof.
  intros Hb HP. revert n. induction fuel as [|fuel IH]; intros n; simpl; [done|].
  rewrite all_chars_app. simpl. rewrite HP by (apply N.mod_lt; lia).
  destruct (n <? b)%N; simpl; [done|]. by rewrite IH.
Qed.

Lemma all_chars_zfill P b w n :
  (0 < b)%N → (∀ d, (d < b)%N → P (PyStr.digit_char d) = true) →
  PyStr.all_chars P (PyStr.zfill b w n) = true.
Proof.
  intros Hb HP. unfold PyStr.zfill. rewrite all_chars_app, all_chars_digits by done.
  rewrite all_chars_repeat; [done|]. apply (HP 0%N Hb).
Qed.

Lemma substring_nil i n : substring i n EmptyString = EmptyString.
Proof. by destruct i, n. Qed.

Lemma substring_split (s : string) i n m :
  substring i n s +:+ substring (i + n) m s = substring i (n + m) s.
Proof.
  revert i n. induction s as [|x s IH]; intros i n.
  { by rewrite !substring_nil. }
  destruct i as [|i]; simpl; [|apply IH].
  destruct n as [|n]; simpl; [done|]. rewrite str_app_cons. f_equal. apply (IH 0%nat).
Qed.

Lemma substring_full (s : string) : substring 0 (String.length s) s = s.
Proof. induction s; simpl; [done|]. by f_equal. Qed.

(** *** UUID strings *)

Lemma hex_digit_not_hyphen d : (d < 16)%N → not_hyphen (PyStr.digit_char d) = true.
Proof.
  intros Hd. destruct d as [|p]; [done|].
  do 4 (destruct p as [p|p|]; try done); lia.
Qed.

Lemma length_uuid_hex u : String.length (UUID.hex u) = 32%nat.
Proof.
  unfold UUID.hex, PyStr.fmt_x. apply length_zfill; [lia..|].
  change (16 ^ N.of_nat 32)%N with (2 ^ 128)%N. apply N.mod_lt. lia.
Qed.

Lemma uuid_hex_no_hyphen u : PyStr.all_chars not_hyphen (UUID.hex u) = true.
Proof.
  unfold UUID.hex, PyStr.fmt_x. apply all_chars_zfill; [lia|]. apply hex_digit_not_hyphen.
Qed.

(** Dropping the hyphens of a UUID string leaves its 32 hex digits. *)
Lemma replace_uuid_str u : PyStr.replace "-"%char EmptyString (UUID.str u) = UUID.hex u.
Proof.
  unfold UUID.str, PyStr.slice. simpl Nat.sub.
  pose proof (uuid_hex_no_hyphen u) as Hh.
  rewrite !replace_app.
  rewrite !(replace_absent _ _ (substring _ _ _)) by by apply all_chars_substring.
  change (PyStr.replace "-"%char EmptyString "-") with EmptyString. simpl append.
  pose proof (length_uuid_hex u) as Hlen. set (h := UUID.hex u) in *.
  pose proof (substring_split h 16 4 12) as H1.
  pose proof (substring_split h 12 4 16) as H2.
  pose proof (substring_split h 8 4 20) as H3.
  pose proof (substring_split h 0 8 24) as H4.
  change (16 + 4)%nat with 20%nat in H1. change (4 + 12)%nat with 16%nat in H1.
  change (12 + 4)%nat with 16%nat in H2. change (4 + 16)%nat with 20%nat in H2.
  change (8 + 4)%nat with 12%nat in H3. change (4 + 20)%nat with 24%nat in H3.
  change (0 + 8)%nat with 8%nat in H4. change (8 + 24)%nat with 32%nat in H4.
  rewrite !str_app_nil_l, H1, H2, H3, H4, <- Hlen. apply substring_full.
Qed.

Lemma nonempty_uuid_str u : PyStr.nonempty (UUID.str u) = true.
Proof. unfold UUID.str. by apply nonempty_app_r. Qed.

Lemma nonempty_current_part d nid : PyStr.nonempty (current_part d nid) = true.
Proof. unfold current_part. by apply nonempty_app_l, nonempty_app_r. Qed.

End Strings.

(** ** The stable sort *)
Section Sorting.
Context {A : Type} (key : A → string).

Lemma key_le_trans a b c : key_le key a b → key_le key b c → key_le key a c.
Proof.
  unfold key_le. intros H1 H2.
  assert (String.le (key a) (key c)) as H; [|by apply Is_true_true_1 in H].
  etrans; apply Is_true_true_2; eassumption.
Qed.

Lemma insert_sorted_perm x l : insert_sorted key x l ≡ₚ x :: l.
Proof.
  induction l as [|y l IH]; simpl; [done|].
  destruct (String.ltb (key y) (key x)); [|done].
  rewrite IH. apply Permutation_swap.
Qed.

Lemma sorted_by_perm l : sorted_by key l ≡ₚ l.
Proof.
  induction l as [|x l IH]; simpl; [done|].
  fold (sorted_by key l). by rewrite insert_sorted_perm, IH.
Qed.

Lemma length_sorted_by l : length (sorted_by key l) = length l.
Proof. by rewrite sorted_by_perm. Qed.

Lemma elem_of_sorted_by x l : x ∈ sorted_by key l ↔ x ∈ l.
Proof. by rewrite sorted_by_perm. Qed.

Lemma insert_sorted_sorted x l :
  StronglySorted (key_le key) l → StronglySorted (key_le key) (insert_sorted key x l).
Proof.
  induction 1 as [|y l Hl IH Hy]; simpl.
  { repeat constructor. }
  destruct (String.ltb (key y) (key x)) eqn:Hlt.
  - constructor; [done|].
    rewrite insert_sorted_perm. constructor; [|done].
    unfold key_le. rewrite ltb_leb in Hlt.
    destruct (String.leb_total (key y) (key x)) as [?|Hxy]; [done|].
    by rewrite Hxy in Hlt.
  - assert (key_le key x y) as Hxy.
    { unfold key_le. rewrite ltb_leb in Hlt. by destruct (String.leb (key x) (key y)). }
    constructor; [by constructor|].
    constructor; [done|].
    eapply Forall_impl; [exact Hy|]. intros z Hz. by eapply key_le_trans.
Qed.

Lemma sorted_by_sorted l : StronglySorted (key_le key) (sorted_by key l).
Proof.
  induction l as [|x l IH]; simpl; [constructor|].
  by apply insert_sorted_sorted.
Qed.

Lemma StronglySorted_lookup_le l i j x y :
  StronglySorted (key_le key) l → l !! i = Some x → l !! j = Some y → (i < j)%nat →
  key_le key x y.
Proof.
  intros Hs. revert i j. induction Hs as [|z l Hl IH Hz]; intros i j Hi Hj Hij.
  { by rewrite lookup_nil in Hi. }
  destruct j as [|j]; [lia|]. simpl in Hj.
  destruct i as [|i]; simpl in Hi.
  - injection Hi as ->. rewrite Forall_forall in Hz. apply Hz.
    by eapply list_elem_of_lookup_2.
  - eapply IH; eauto. lia.
Qed.

(** Two elements with strictly ordered keys come out in that order. *)
Lemma sorted_by_lt_precedes l x y :
  x ∈ l → y ∈ l → String.ltb (key x) (key y) = true →
  ∃ a b, (a < b)%nat ∧ sorted_by key l !! a = Some x ∧ sorted_by key l !! b = Some y.
Proof.
  intros Hx Hy Hlt.
  apply elem_of_sorted_by, list_elem_of_lookup_1 in Hx as [a Ha].
  apply elem_of_sorted_by, list_elem_of_lookup_1 in Hy as [b Hb].
  exists a, b. split_and!; [|done..].
  destruct (decide (a < b)%nat) as [|Hge]; [done|exfalso].
  rewrite ltb_leb in Hlt.
  destruct (decide (a = b)) as [->|Hne].
  - rewrite Ha in Hb. injection Hb as ->.
    assert (String.leb (key y) (key y) = true) as Hr.
    { destruct (String.leb_total (key y) (key y)); done. }
    by rewrite Hr in Hlt.
  - assert (key_le key y x) as Hle.
    { eapply (StronglySorted_lookup_le _ b a); eauto using sorted_by_sorted. lia. }
    unfold key_le in Hle. by rewrite Hle in Hlt.
Qed.

End Sorting.

(** ** Computations *)
Section Monad.

Lemma bind_Ok {A B} (c : M A) (k : A → M B) st a st1 :
  c st = (Ok a, st1) → bind c k st = k a st1.
Proof. unfold bind. by intros ->. Qed.

Lemma bind_Raise {A B} (c : M A) (k : A → M B) st e st1 :
  c st = (Raise e, st1) → bind c k st = (Raise e, st1).
Proof. unfold bind. by intros ->. Qed.

Lemma bind_ret {A B} (a : A) (k : A → M B) st : bind (ret a) k st = k a st.
Proof. reflexivity. Qed.

Lemma bind_gets {A B} (f : state → A) (k : A → M B) st :
  bind (gets f) k st = k (f st) st.
Proof. reflexivity. Qed.

Lemma bind_modify {B} (f : state → state) (k : unit → M B) st :
  bind (modify f) k st = k tt (f st).
Proof. reflexivity. Qed.

Lemma bind_raise {A B} (e : exn) (k : A → M B) st :
  bind (raise e) k st = (Raise e, st).
Proof. reflexivity. Qed.

(** A loop raises as soon as one of its records makes the body raise from
    every state. *)
Lemma collect_raises {A B} (f : A → M B) (l : list A) (x : A) :
  x ∈ l → (∀ st, ∃ e st', f x st = (Raise e, st')) →
  ∀ st, ∃ e st', collect f l st = (Raise e, st').
Proof.
  intros Hx Hf. induction l as [|y l IH]; intros st.
  { by apply elem_of_nil in Hx. }
  simpl. apply elem_of_cons in Hx as [<-|Hx].
  - destruct (Hf st) as (e & st' & Hr). exists e, st'. by apply bind_Raise.
  - destruct (f y st) as [[b|e] st1] eqn:Hy.
    + rewrite (bind_Ok _ _ _ _ _ Hy).
      destruct (IH Hx st1) as (e & st' & Hr). exists e, st'. by apply bind_Raise.
    + exists e, st1. by apply bind_Raise.
Qed.

End Monad.

(** ** The store *)
Section Store.
Implicit Types h : gmap loc (gmap string value).

Lemma deref_insert_eq h l d : deref (<[l := d]> h) l = d.
Proof. unfold deref. by rewrite lookup_insert_eq. Qed.

Lemma deref_insert_ne h l l' d : l ≠ l' → deref (<[l := d]> h) l' = deref h l'.
Proof. intros. unfold deref. by rewrite lookup_insert_ne. Qed.

Lemma fresh_None h : h !! fresh (dom h) = None.
Proof. apply not_elem_of_dom, is_fresh. Qed.

Lemma deref_fresh h : deref h (fresh (dom h)) = ∅.
Proof. unfold deref. by rewrite fresh_None. Qed.

Lemma fresh_ne h l : is_Some (h !! l) → fresh (dom h) ≠ l.
Proof. intros [d Hd] <-. by rewrite fresh_None in Hd. Qed.

Lemma metadata_ok_step h h' l : heap_step h h' → metadata_ok h l → metadata_ok h' l.
Proof.
  unfold metadata_ok. intros Hs.
  destruct Hs as [h|h l0 m Hm|h m|h m s];
    (match goal with |- context [deref (<[?w := _]> _) _] =>
       destruct (decide (w = l)) as [->|Hne] end;
     [rewrite deref_insert_eq|by rewrite deref_insert_ne]).
  - by rewrite lookup_empty.
  - by rewrite lookup_insert_eq.
  - by rewrite lookup_insert_ne.
  - by rewrite lookup_insert_ne.
Qed.

Lemma metadata_ok_steps h h' l : rtc heap_step h h' → metadata_ok h l → metadata_ok h' l.
Proof. induction 1; eauto using metadata_ok_step. Qed.

Lemma is_Some_step h h' l : heap_step h h' → is_Some (h !! l) → is_Some (h' !! l).
Proof.
  intros Hs Hl.
  destruct Hs;
    (match goal with |- context [<[?w := _]> _ !! _] =>
       destruct (decide (w = l)) as [->|Hne] end;
     [by rewrite lookup_insert_eq|by rewrite lookup_insert_ne]).
Qed.

(** Once written, the provenance of a dictionary stays. *)
Lemma has_provenance_step h h' l :
  heap_step h h' → has_provenance h l → has_provenance h' l.
Proof.
  intros Hs (Hl & m & Hmd & Hm & Hc & s & Ho).
  split; [by eapply is_Some_step|].
  destruct Hs as [h|h l0 m0 Hm0|h m0|h m0 s0].
  - exists m. rewrite !deref_insert_ne by by apply fresh_ne.
    split_and!; [done| |done|by exists s].
    by rewrite lookup_insert_ne by by apply fresh_ne.
  - assert (l0 ≠ l) by (intros ->; by rewrite Hmd in Hm0).
    exists m. rewrite deref_insert_ne by done.
    destruct (decide (l0 = m)) as [->|Hne].
    + rewrite lookup_insert_eq, deref_insert_eq, !lookup_insert_ne by done. eauto.
    + rewrite lookup_insert_ne, deref_insert_ne by done. eauto.
  - exists m. destruct (decide (m0 = l)) as [->|Hl0].
    + rewrite deref_insert_eq, lookup_insert_ne by done.
      destruct (decide (l = m)) as [->|Hne].
      * rewrite lookup_insert_eq, deref_insert_eq, lookup_insert_eq, lookup_insert_ne
          by done. eauto.
      * rewrite lookup_insert_ne, deref_insert_ne by done. eauto.
    + rewrite (deref_insert_ne _ _ l) by done.
      destruct (decide (m0 = m)) as [->|Hne].
      * rewrite lookup_insert_eq, deref_insert_eq, lookup_insert_eq, lookup_insert_ne
          by done. eauto.
      * rewrite lookup_insert_ne, deref_insert_ne by done. eauto.
  - exists m. destruct (decide (m0 = l)) as [->|Hl0].
    + rewrite deref_insert_eq, lookup_insert_ne by done.
      destruct (decide (l = m)) as [->|Hne].
      * rewrite lookup_insert_eq, deref_insert_eq, lookup_insert_eq, lookup_insert_ne
          by done. eauto.
      * rewrite lookup_insert_ne, deref_insert_ne by done. eauto.
    + rewrite (deref_insert_ne _ _ l) by done.
      destruct (decide (m0 = m)) as [->|Hne].
      * rewrite lookup_insert_eq, deref_insert_eq, lookup_insert_eq, lookup_insert_ne
          by done. eauto.
      * rewrite lookup_insert_ne, deref_insert_ne by done. eauto.
Qed.

Lemma has_provenance_steps h h' l :
  rtc heap_step h h' → has_provenance h l → has_provenance h' l.
Proof. induction 1; eauto using has_provenance_step. Qed.

End Store.

(** ** The blocks of [_transform_single_run] *)
Section Blocks.
Variable rt : runtime.
Implicit Types (r t : gmap string value) (st : state).

Lemma id_of_Some r oid : id_of r = Some oid → r !! "id" = Some (VStr oid).
Proof.
  unfold id_of. destruct (r !! "id") as [[]|]; simpl; intros; by simplify_eq.
Qed.

Lemma parent_of_Some r p :
  parent_of r = Some p → get "parent_run_id" VNone r = VStr p.
Proof.
  unfold parent_of. destruct (get "parent_run_id" VNone r); simpl; intros; by simplify_eq.
Qed.

Lemma is_root_true r : is_root r = true → get "parent_run_id" VNone r = VNone.
Proof. unfold is_root. by destruct (get "parent_run_id" VNone r). Qed.

Lemma resolve_ids_spec r st oid nid :
  id_of r = Some oid → id_mapping (self st) !! oid = Some nid →
  is_root r = true ∨ is_Some (parent_of r) →
  resolve_ids rt r st = (Ok (oid, nid, new_parent (id_mapping (self st)) r), st).
Proof.
  intros Hid%id_of_Some Hmap Hpar.
  unfold resolve_ids, getitem. rewrite Hid.
  cbv [bind ret gets str_ py_str raise]. rewrite Hmap.
  unfold new_parent.
  destruct Hpar as [Hroot|[p Hp]].
  - unfold parent_of. rewrite (is_root_true _ Hroot). done.
  - rewrite Hp. rewrite (parent_of_Some _ _ Hp). cbv [truthy].
    by destruct (PyStr.nonempty p).
Qed.

Lemma get_or_new_dict_spec k r st :
  ∃ v st1, get_or_new_dict k r st = (Ok v, st1) ∧
    self st1 = self st ∧ clock st1 = clock st ∧ entropy st1 = entropy st ∧
    rtc heap_step (mem st) (mem st1) ∧
    (r !! k = Some v ∨ r !! k = None ∧ ∃ l, v = VDict l ∧ deref (mem st1) l = ∅).
Proof.
  unfold get_or_new_dict. destruct (r !! k) as [v|] eqn:Hk.
  - exists v, st. split_and!; [done..|by left].
  - eexists _, _. split; [reflexivity|]. simpl. split_and!; [done..| |].
    + apply rtc_once. constructor.
    + right. split; [done|]. eexists. split; [done|]. by rewrite deref_insert_eq.
Qed.

Lemma build_transformed_spec r st nid npid :
  extra_ok (mem st) r →
  ∃ t st1, build_transformed rt r nid npid st = (Ok t, st1) ∧
    self st1 = self st ∧ entropy st1 = entropy st ∧
    clock st1 = (if preserve_timestamps (self st) then clock st else S (clock st)) ∧
    rtc heap_step (mem st) (mem st1) ∧
    t !! "id" = Some (VStr nid) ∧
    t !! "trace_id" = Some (value_of_opt (new_trace_id (self st))) ∧
    t !! "parent_run_id" = Some (value_of_opt npid) ∧
    t !! "start_time" =
      Some (if preserve_timestamps (self st) then get "start_time" VNone r
            else VStr (Datetime.isoformat (utcnow_at rt (clock st)))) ∧
    t !! "end_time" =
      Some (if preserve_timestamps (self st) then get "end_time" VNone r else VNone) ∧
    t !! "dotted_order" = None ∧
    extra_ok (mem st1) t ∧
    (∀ l, r !! "extra" = Some (VDict l) → t !! "extra" = Some (VDict l)).
Proof.
  intros Hex. unfold build_transformed.
  set (st0 := if preserve_timestamps (self st) then st
              else mkState (self st) (mem st) (S (clock st)) (entropy st)).
  assert (self st0 = self st ∧ mem st0 = mem st ∧ entropy st0 = entropy st ∧
          clock st0 = (if preserve_timestamps (self st) then clock st else S (clock st)))
    as (Hs0 & Hm0 & He0 & Hc0).
  { unfold st0. by destruct (preserve_timestamps (self st)). }
  destruct (get_or_new_dict_spec "inputs" r st0) as (vi & st1 & Ei & Hs1 & Hc1 & He1 & Hh1 & _).
  destruct (get_or_new_dict_spec "outputs" r st1) as (vo & st2 & Eo & Hs2 & Hc2 & He2 & Hh2 & _).
  destruct (get_or_new_dict_spec "extra" r st2) as (ve & st3 & Ee & Hs3 & Hc3 & He3 & Hh3 & Hve).
  assert ((if preserve_timestamps (self st)
           then ret (get "start_time" VNone r)
           else bind (utcnow rt) (λ now, ret (VStr (Datetime.isoformat now)))) st
          = (Ok (if preserve_timestamps (self st) then get "start_time" VNone r
                 else VStr (Datetime.isoformat (utcnow_at rt (clock st)))), st0)) as Est.
  { unfold st0. by destruct (preserve_timestamps (self st)). }
  eexists _, st3. split.
  { rewrite !bind_gets. erewrite bind_Ok by exact Est.
    erewrite bind_Ok by exact Ei. erewrite bind_Ok by exact Eo.
    erewrite bind_Ok by exact Ee. rewrite bind_gets. reflexivity. }
  assert (rtc heap_step (mem st) (mem st3)) as Hh.
  { rewrite <- Hm0. etrans; [exact Hh1|]. etrans; [exact Hh2|exact Hh3]. }
  split_and!; try congruence; try done.
  - unfold extra_ok. rewrite !lookup_insert_ne, lookup_insert_eq by done.
    destruct Hve as [Hr|(Hr & l & -> & Hl)].
    + unfold extra_ok in Hex. rewrite Hr in Hex.
      destruct ve; try done. by eapply metadata_ok_steps.
    + unfold metadata_ok. by rewrite Hl, lookup_empty.
  - intros l Hl. rewrite !lookup_insert_ne, lookup_insert_eq by done.
    destruct Hve as [Hr|(Hr & _)]; congruence.
Qed.

Lemma subscript_Some l k v st :
  deref (mem st) l !! k = Some v → subscript (VDict l) k st = (Ok v, st).
Proof. intros H. unfold subscript. rewrite bind_gets. by rewrite H. Qed.

(** The two provenance writes, on an [extra] whose [metadata] is the
    dictionary at [m]. *)
Lemma write_provenance e m oid t st :
  deref (mem st) e !! "metadata" = Some (VDict m) → is_Some (mem st !! e) →
  ∃ st', (md <- subscript (VDict e) "metadata" ;;
          store_subscript md "copied_from_shared_trace" (VBool true) ;;;
          md <- subscript (VDict e) "metadata" ;;
          store_subscript md "original_run_id" (VStr oid) ;;;
          ret t) st = (Ok t, st') ∧
    self st' = self st ∧ clock st' = clock st ∧ entropy st' = entropy st ∧
    rtc heap_step (mem st) (mem st') ∧ has_provenance (mem st') e.
Proof.
  intros Hmd He.
  set (h1 := <[m := <["copied_from_shared_trace" := VBool true]> (deref (mem st) m)]> (mem st)).
  set (h2 := <[m := <["original_run_id" := VStr oid]> (deref h1 m)]> h1).
  assert (deref h1 e !! "metadata" = Some (VDict m)) as Hmd1.
  { unfold h1. destruct (decide (m = e)) as [->|Hne].
    - by rewrite deref_insert_eq, lookup_insert_ne.
    - by rewrite deref_insert_ne. }
  assert (heap_step (mem st) h1) as S1 by constructor.
  assert (heap_step h1 h2) as S2 by constructor.
  exists (mkState (self st) h2 (clock st) (entropy st)).
  split.
  { erewrite bind_Ok by (by apply subscript_Some).
    unfold store_subscript at 1. rewrite bind_modify.
    erewrite bind_Ok by (by apply subscript_Some).
    reflexivity. }
  simpl. split_and!; [done..| |].
  { etrans; apply rtc_once; eassumption. }
  split; [by do 2 (eapply is_Some_step; [eassumption|])|].
  exists m. split_and!.
  - unfold h2. destruct (decide (m = e)) as [->|Hne].
    + by rewrite deref_insert_eq, lookup_insert_ne.
    + by rewrite deref_insert_ne.
  - unfold h2. by rewrite lookup_insert_eq.
  - unfold h2, h1. by rewrite !deref_insert_eq, lookup_insert_ne, lookup_insert_eq.
  - exists oid. unfold h2. by rewrite deref_insert_eq, lookup_insert_eq.
Qed.

Lemma add_source_metadata_spec oid t st :
  extra_ok (mem st) t →
  ∃ t' st', add_source_metadata oid t st = (Ok t', st') ∧
    self st' = self st ∧ clock st' = clock st ∧ entropy st' = entropy st ∧
    rtc heap_step (mem st) (mem st') ∧
    (∀ k, k ≠ "extra" → t' !! k = t !! k) ∧
    ∃ e, t' !! "extra" = Some (VDict e) ∧ has_provenance (mem st') e ∧
      ∀ l, t !! "extra" = Some (VDict l) → e = l.
Proof.
  intros Hex.
  (* the [extra] dictionary, created if there is none *)
  assert (∃ t1 st1 e,
    (match t !! "extra" with
     | None | Some VNone => e <- new_dict ;; ret (<["extra" := e]> t)
     | Some _ => ret t
     end) st = (Ok t1, st1) ∧
    self st1 = self st ∧ clock st1 = clock st ∧ entropy st1 = entropy st ∧
    rtc heap_step (mem st) (mem st1) ∧
    (∀ k, k ≠ "extra" → t1 !! k = t !! k) ∧
    t1 !! "extra" = Some (VDict e) ∧ metadata_ok (mem st1) e ∧
    ∀ l, t !! "extra" = Some (VDict l) → e = l) as
    (t1 & st1 & e & E1 & Hs1 & Hc1 & He1 & Hh1 & Hk1 & Hx1 & Hm1 & Hl1).
  { unfold extra_ok in Hex.
    destruct (t !! "extra") as [[]|] eqn:Hx; try done.
    1,3: (eexists _, _, _; split; [reflexivity|]; simpl;
      split_and!; [done..|apply rtc_once; constructor| | | |done];
      [by intros; rewrite lookup_insert_ne
      |by rewrite lookup_insert_eq
      |unfold metadata_ok; by rewrite deref_insert_eq, lookup_empty]).
    exists t, st, l. split_and!; [done..|]. congruence. }
  (* the [metadata] dictionary, created if there is none *)
  assert (∃ st2 m,
    (if bool_decide (deref (mem st1) e !! "metadata" = None)
     then (m <- new_dict ;; store_subscript (VDict e) "metadata" m)
     else ret tt) st1 = (Ok tt, st2) ∧
    self st2 = self st1 ∧ clock st2 = clock st1 ∧ entropy st2 = entropy st1 ∧
    rtc heap_step (mem st1) (mem st2) ∧
    deref (mem st2) e !! "metadata" = Some (VDict m) ∧ is_Some (mem st2 !! e)) as
    (st2 & m & E2 & Hs2 & Hc2 & He2 & Hh2 & Hmd2 & Hin2).
  { destruct (deref (mem st1) e !! "metadata") as [v|] eqn:Hv.
    - rewrite bool_decide_eq_false_2 by done.
      unfold metadata_ok in Hm1. rewrite Hv in Hm1. destruct v; try done.
      exists st1, l. split_and!; [done..|].
      unfold deref in Hv. destruct (mem st1 !! e); [by eexists|].
      simpl in Hv. by rewrite lookup_empty in Hv.
    - rewrite bool_decide_eq_true_2 by done.
      eexists _, _. split; [reflexivity|]. simpl. split_and!; [done..| | |].
      + etrans; [apply rtc_once; apply hs_alloc|].
        apply rtc_once. apply hs_metadata.
        destruct (decide (fresh (dom (mem st1)) = e)) as [<-|Hne].
        * by rewrite deref_insert_eq, lookup_empty.
        * by rewrite deref_insert_ne.
      + by rewrite deref_insert_eq, lookup_insert_eq.
      + by rewrite lookup_insert_eq. }
  destruct (write_provenance e m oid t1 st2 Hmd2 Hin2)
    as (st3 & E3 & Hs3 & Hc3 & He3 & Hh3 & Hp3).
  exists t1, st3. split.
  { unfold add_source_metadata.
    erewrite bind_Ok by exact E1.
    unfold getitem. rewrite Hx1, bind_ret.
    unfold not_in. rewrite bind_gets.
    erewrite bind_Ok by exact E2. exact E3. }
  split_and!; try congruence.
  - etrans; [exact Hh1|]. etrans; [exact Hh2|exact Hh3].
  - done.
  - by exists e.
Qed.

Lemma start_time_dt_spec r st :
  start_ok rt r →
  ∃ st', start_time_dt rt r st =
           (Ok (VDatetime (default (utcnow_at rt (clock st)) (recorded_start rt r))), st') ∧
    self st' = self st ∧ mem st' = mem st ∧ entropy st' = entropy st ∧
    (clock st ≤ clock st')%nat.
Proof.
  unfold start_ok, start_time_dt, recorded_start. intros Hok.
  destruct (get "start_time" VNone r) as [|b|z|s|d|l|l] eqn:Hv; try done.
  - eexists. split; [reflexivity|]. simpl. split_and!; [done..|lia].
  - subst b. eexists. split; [reflexivity|]. simpl. split_and!; [done..|lia].
  - subst z. eexists. split; [reflexivity|]. simpl. split_and!; [done..|lia].
  - destruct Hok as [d ->]. by exists st.
  - by exists st.
  - subst l. eexists. split; [reflexivity|]. simpl. split_and!; [done..|lia].
Qed.

Lemma new_dotted_order_spec r ids part st :
  is_root r = true ∨ is_Some (parent_of r) →
  new_dotted_order rt r (new_parent ids r) part st =
    (Ok (dotted_for (dotted_order_mapping (self st)) (new_parent ids r) r part), st).
Proof.
  intros Hpar. unfold new_dotted_order, dotted_for.
  destruct (truthy_opt (new_parent ids r)) eqn:Ht; [|done].
  destruct Hpar as [Hroot|[p Hp]].
  - unfold new_parent, parent_of in Ht. by rewrite (is_root_true _ Hroot) in Ht.
  - rewrite Hp, (parent_of_Some _ _ Hp). simpl.
    unfold str_. rewrite bind_gets, bind_gets. simpl.
    destruct (dotted_order_mapping (self st) !! p) as [pd|]; simpl; [|done].
    by destruct (PyStr.nonempty pd).
Qed.

Lemma lookup_copy_if_present k k' r t :
  k ≠ k' → copy_if_present k r t !! k' = t !! k'.
Proof. intros. unfold copy_if_present. destruct (r !! k); [|done]. by rewrite lookup_insert_ne. Qed.

Lemma lookup_copy_token_counts k r t :
  k ∉ ["total_tokens"; "prompt_tokens"; "completion_tokens"; "first_token_time"] →
  copy_token_counts r t !! k = t !! k.
Proof.
  intros Hk. unfold copy_token_counts.
  rewrite !lookup_copy_if_present; [done|intros <-; apply Hk; repeat constructor..].
Qed.

(** [_transform_single_run] returns, and what it returns is [rewritten]. *)
Lemma transform_single_run_spec r st :
  record_ok rt (mem st) r → is_Some (id_mapping (self st) !! old_id r) →
  ∃ t st', _transform_single_run rt r st = (Ok t, st') ∧ rewritten rt r st t st'.
Proof.
  intros [[oid Hid] Hpar _ Hstart Hextra] [nid Hnid].
  assert (old_id r = oid) as Hold by (unfold old_id; by rewrite Hid).
  rewrite Hold in Hnid.
  assert (new_id_of (id_mapping (self st)) r = nid) as Hnew.
  { unfold new_id_of. by rewrite Hold, Hnid. }
  pose proof (resolve_ids_spec r st oid nid Hid Hnid Hpar) as E1.
  destruct (build_transformed_spec r st nid (new_parent (id_mapping (self st)) r) Hextra)
    as (t1 & st1 & E2 & Hs1 & He1 & Hc1 & Hh1 & Fid & Ftr & Fpa & Fst & Fen & Fdo & Hex1 & Hal1).
  destruct (add_source_metadata_spec oid t1 st1 Hex1)
    as (t2 & st2 & E3 & Hs2 & Hc2 & He2 & Hh2 & Hk2 & e & Fex & Hprov & Hal2).
  destruct (start_time_dt_spec r st2 Hstart) as (st3 & E4 & Hs3 & Hm3 & He3 & Hc3).
  assert (default (utcnow_at rt (clock st2)) (recorded_start rt r) = stamp_time rt r st)
    as Hstamp.
  { unfold stamp_time. rewrite Hc2, Hc1. by destruct (recorded_start rt r). }
  rewrite Hstamp in E4.
  pose proof (new_dotted_order_spec r (id_mapping (self st))
                (current_part (stamp_time rt r st) nid) st3 Hpar) as E5.
  assert (dotted_for (dotted_order_mapping (self st3)) (new_parent (id_mapping (self st)) r) r
            (current_part (stamp_time rt r st) nid) = new_dotted rt r st) as Hdot.
  { unfold new_dotted. rewrite Hnew. do 2 f_equal. congruence. }
  rewrite Hdot in E5.
  eexists _, _. split.
  { unfold _transform_single_run.
    erewrite bind_Ok by exact E1. cbv beta iota zeta.
    erewrite bind_Ok by exact E2.
    erewrite bind_Ok by exact E3. erewrite bind_Ok by exact E4.
    unfold strftime. rewrite bind_ret.
    erewrite bind_Ok by exact E5. rewrite bind_modify. reflexivity. }
  assert (∀ k, k ≠ "extra" → k ≠ "dotted_order" →
            k ∉ ["total_tokens"; "prompt_tokens"; "completion_tokens"; "first_token_time"] →
            <["dotted_order" := VStr (new_dotted rt r st)]> (copy_token_counts r t2) !! k
              = t1 !! k) as Hkeep.
  { intros k ? ? ?. by rewrite lookup_insert_ne, lookup_copy_token_counts, Hk2. }
  split; simpl.
  - rewrite Hold. congruence.
  - congruence.
  - rewrite Hc2, Hc1 in Hc3. destruct (preserve_timestamps (self st)); lia.
  - rewrite Hm3. etrans; [exact Hh1|exact Hh2].
  - rewrite Hkeep, Hnew; [done..|not_token].
  - rewrite Hkeep; [done..|not_token].
  - rewrite Hkeep; [done..|not_token].
  - by rewrite lookup_insert_eq.
  - rewrite Hkeep; [done..|not_token].
  - rewrite Hkeep; [done..|not_token].
  - exists e. split_and!.
    + rewrite lookup_insert_ne, lookup_copy_token_counts by (done || not_token). done.
    + by rewrite Hm3.
    + intros l Hl. apply Hal2. by apply Hal1.
Qed.

End Blocks.

(** ** The two passes of [transform_runs] *)
Section Passes.
Variable rt : runtime.
Implicit Types (r t : gmap string value) (st : state) (l out : list (gmap string value)).

Lemma assign_new_id_spec r st :
  is_Some (id_of r) →
  assign_new_id rt r st = (Ok tt, after_first_pass rt [r] st).
Proof.
  intros [oid Hid]. unfold assign_new_id, getitem.
  rewrite (id_of_Some _ _ Hid), bind_ret. unfold str_. rewrite bind_gets.
  unfold after_first_pass. cbn [assigned_ids assigned_trace_id length].
  unfold is_root, old_id. rewrite Hid.
  unfold bind, uuid4_str. simpl.
  replace (entropy st + 1)%nat with (S (entropy st)) by lia.
  by destruct (get "parent_run_id" VNone r).
Qed.

Lemma after_first_pass_nil st : after_first_pass rt [] st = st.
Proof.
  destruct st as [[] ? ? ?]. unfold after_first_pass. simpl. by rewrite Nat.add_0_r.
Qed.

Lemma after_first_pass_cons r l st :
  after_first_pass rt (r :: l) st = after_first_pass rt l (after_first_pass rt [r] st).
Proof.
  unfold after_first_pass. simpl. rewrite Nat.add_1_r. f_equal. lia.
Qed.

(** The first pass returns and leaves [after_first_pass]. *)
Lemma first_pass_spec l st :
  Forall (λ r, is_Some (id_of r)) l →
  for_each l (assign_new_id rt) st = (Ok tt, after_first_pass rt l st).
Proof.
  intros Hl. revert st. induction Hl as [|r l Hr Hl IH]; intros st; simpl.
  { by rewrite after_first_pass_nil. }
  erewrite bind_Ok by by apply assign_new_id_spec.
  by rewrite IH, <- after_first_pass_cons.
Qed.

Lemma record_ok_steps h h' r :
  rtc heap_step h h' → record_ok rt h r → record_ok rt h' r.
Proof.
  intros Hs [? ? ? ? Hex]. split; try done.
  unfold extra_ok in *. destruct (r !! "extra") as [[]|]; try done.
  by eapply metadata_ok_steps.
Qed.

(** The second pass returns, and its result is [rewrites]. *)
Lemma second_pass_spec l st :
  Forall (record_ok rt (mem st)) l →
  Forall (λ r, is_Some (id_mapping (self st) !! old_id r)) l →
  ∃ out st', collect (_transform_single_run rt) l st = (Ok out, st') ∧
    rewrites rt l st out st'.
Proof.
  revert st. induction l as [|r l IH]; intros st Hok Hids.
  { exists [], st. split; [done|constructor]. }
  apply Forall_cons in Hok as [Hr Hok]. apply Forall_cons in Hids as [Hi Hids].
  destruct (transform_single_run_spec rt r st Hr Hi) as (t & st1 & E1 & Hrw).
  destruct (IH st1) as (out & st' & E2 & Hrws).
  { eapply Forall_impl; [exact Hok|]. intros r'. apply record_ok_steps, Hrw. }
  { rewrite (rw_self _ _ _ _ _ Hrw). done. }
  exists (t :: out), st'. split; [|by econstructor].
  simpl. erewrite bind_Ok by exact E1. erewrite bind_Ok by exact E2. done.
Qed.

(** *** Consequences of [rewrites] *)

Lemma rewrites_length l st out st' :
  rewrites rt l st out st' → length out = length l.
Proof. induction 1; simpl; congruence. Qed.

Lemma rewritten_frame r st t st' :
  rewritten rt r st t st' →
  id_mapping (self st') = id_mapping (self st) ∧
  new_trace_id (self st') = new_trace_id (self st) ∧
  preserve_timestamps (self st') = preserve_timestamps (self st) ∧
  target_project (self st') = target_project (self st).
Proof. intros H. by rewrite (rw_self _ _ _ _ _ H). Qed.

Lemma rewrites_frame l st out st' :
  rewrites rt l st out st' →
  id_mapping (self st') = id_mapping (self st) ∧
  new_trace_id (self st') = new_trace_id (self st) ∧
  preserve_timestamps (self st') = preserve_timestamps (self st) ∧
  target_project (self st') = target_project (self st) ∧
  entropy st' = entropy st ∧
  rtc heap_step (mem st) (mem st').
Proof.
  induction 1 as [st|r l st t st1 out st' Hr Hrs IH]; [done|].
  destruct IH as (? & ? & ? & ? & ? & ?).
  destruct (rewritten_frame _ _ _ _ Hr) as (? & ? & ? & ?).
  split_and!; try congruence.
  - rewrite <- (rw_entropy _ _ _ _ _ Hr). done.
  - etrans; [apply Hr|done].
Qed.

(** Each record of the input has its rewrite at the same position, made
    from the state the records before it left. *)
Lemma rewrites_lookup l st out st' i r :
  rewrites rt l st out st' → l !! i = Some r →
  ∃ t sti sti', out !! i = Some t ∧ rewritten rt r sti t sti' ∧
    rewrites rt (take i l) st (take i out) sti ∧
    rewrites rt (drop (S i) l) sti' (drop (S i) out) st'.
Proof.
  intros H. revert i. induction H as [st|r0 l st t st1 out st' Hr Hrs IH]; intros i Hi.
  { by rewrite lookup_nil in Hi. }
  destruct i as [|i]; simpl in Hi.
  - injection Hi as ->. exists t, st, st1. split_and!; [done|done|constructor|done].
  - destruct (IH i Hi) as (t' & sti & sti' & ? & ? & ? & ?).
    exists t', sti, sti'. split_and!; [done|done| |done].
    simpl. by econstructor.
Qed.

Lemma rewrites_dotted_other l st out st' k :
  rewrites rt l st out st' → Forall (λ r, old_id r ≠ k) l →
  dotted_order_mapping (self st') !! k = dotted_order_mapping (self st) !! k.
Proof.
  induction 1 as [st|r l st t st1 out st' Hr Hrs IH]; intros Hk; [done|].
  apply Forall_cons in Hk as [Hr0 Hk]. rewrite (IH Hk), (rw_self _ _ _ _ _ Hr).
  simpl. by rewrite lookup_insert_ne.
Qed.

Lemma nonempty_dotted_for D npid r part :
  PyStr.nonempty part = true → PyStr.nonempty (dotted_for D npid r part) = true.
Proof.
  intros Hp. unfold dotted_for. destruct (truthy_opt npid); [|done].
  destruct (parent_of r ≫= (D !!.)) as [pd|]; [|done].
  destruct (PyStr.nonempty pd); [|done]. by do 2 apply nonempty_app_r.
Qed.

Lemma nonempty_new_dotted r st : PyStr.nonempty (new_dotted rt r st) = true.
Proof. apply nonempty_dotted_for, nonempty_current_part. Qed.

(** The dotted order of a record stays in the map for the records after
    it, as long as none of them has the same id. *)
Lemma rewrites_dotted_stored l st out st' j r :
  rewrites rt l st out st' → l !! j = Some r →
  Forall (λ r', old_id r' ≠ old_id r) (drop (S j) l) →
  ∃ t d, out !! j = Some t ∧ t !! "dotted_order" = Some (VStr d) ∧
    PyStr.nonempty d = true ∧
    dotted_order_mapping (self st') !! old_id r = Some d.
Proof.
  intros H Hj Hlater.
  destruct (rewrites_lookup _ _ _ _ _ _ H Hj) as (t & stj & stj' & Ht & Hr & _ & Hrest).
  exists t, (new_dotted rt r stj).
  split_and!; [done|apply Hr|apply nonempty_new_dotted|].
  rewrite (rewrites_dotted_other _ _ _ _ _ Hrest Hlater), (rw_self _ _ _ _ _ Hr).
  simpl. by rewrite lookup_insert_eq.
Qed.

(** *** The id map of the first pass *)

Lemma assigned_ids_other e l ids k :
  Forall (λ r, old_id r ≠ k) l → assigned_ids rt e l ids !! k = ids !! k.
Proof.
  revert e ids. induction l as [|r l IH]; intros e ids Hk; [done|].
  apply Forall_cons in Hk as [Hr Hk]. simpl. by rewrite IH, lookup_insert_ne.
Qed.

Lemma assigned_ids_lookup e l ids i r :
  l !! i = Some r → Forall (λ r', old_id r' ≠ old_id r) (drop (S i) l) →
  assigned_ids rt e l ids !! old_id r = Some (UUID.str (uuid4_draw rt (e + i))).
Proof.
  revert e ids i. induction l as [|r0 l IH]; intros e ids i Hi Hlater.
  { by rewrite lookup_nil in Hi. }
  destruct i as [|i]; simpl in *.
  - injection Hi as ->. rewrite assigned_ids_other by done.
    by rewrite lookup_insert_eq, Nat.add_0_r.
  - rewrite (IH _ _ i) by done. do 3 f_equal. lia.
Qed.

(** Every record of the pass has a new id, and it is a UUID string. *)
Lemma assigned_ids_elem e l ids r :
  r ∈ l → ∃ u, assigned_ids rt e l ids !! old_id r = Some (UUID.str u).
Proof.
  revert e ids r. induction l as [|r0 l IH]; intros e ids r Hr.
  { by apply elem_of_nil in Hr. }
  simpl. destruct (decide (Exists (λ r', old_id r' = old_id r) l)) as [Hex|Hno].
  - apply Exists_exists in Hex as (r' & Hr' & Heq).
    rewrite <- Heq. by apply IH.
  - apply not_Exists_Forall in Hno; [|intros ?; apply _].
    rewrite assigned_ids_other by done.
    apply elem_of_cons in Hr as [->|Hr].
    + rewrite lookup_insert_eq. eauto.
    + rewrite Forall_forall in Hno. by destruct (Hno r Hr).
Qed.

Lemma assigned_trace_id_none e l tid :
  Forall (λ r, is_root r = false) l → assigned_trace_id rt e l tid = tid.
Proof.
  revert e tid. induction l as [|r l IH]; intros e tid Hl; [done|].
  apply Forall_cons in Hl as [Hr Hl]. simpl. by rewrite Hr, IH.
Qed.

(** With one root, the trace id is the new id drawn for it. *)
Lemma assigned_trace_id_root e l tid i r :
  l !! i = Some r → is_root r = true →
  Forall (λ r', is_root r' = false) (drop (S i) l) →
  assigned_trace_id rt e l tid = Some (UUID.str (uuid4_draw rt (e + i))).
Proof.
  revert e tid i. induction l as [|r0 l IH]; intros e tid i Hi Hroot Hlater.
  { by rewrite lookup_nil in Hi. }
  destruct i as [|i]; simpl in *.
  - injection Hi as ->. rewrite Hroot, assigned_trace_id_none by done.
    by rewrite Nat.add_0_r.
  - rewrite (IH _ _ i) by done. do 3 f_equal. lia.
Qed.

(** *** [transform_runs] *)

Lemma sorted_runs_str runs st :
  Forall (λ r, is_Some (str_of_key (sort_key r))) runs →
  sorted_runs rt runs st = (Ok (sorted_by dotted_key runs), st).
Proof.
  intros H. unfold sorted_runs.
  assert (forallb (λ r, bool_decide (is_Some (str_of_key (sort_key r)))) runs = true) as ->;
    [|done].
  apply forallb_forall. intros r Hr%list_elem_of_In.
  rewrite Forall_forall in H. by apply bool_decide_eq_true_2, H.
Qed.

(** On records it can process, [transform_runs] returns: it sorts by
    dotted order, draws the new ids, and rewrites the records in order. *)
Lemma transform_runs_spec runs st :
  Forall (record_ok rt (mem st)) runs →
  ∃ out st', transform_runs rt runs st = (Ok out, st') ∧
    rewrites rt (sorted_by dotted_key runs)
      (after_first_pass rt (sorted_by dotted_key runs) st) out st'.
Proof.
  intros Hok. set (sorted := sorted_by dotted_key runs).
  assert (Forall (record_ok rt (mem st)) sorted) as Hsok.
  { unfold sorted. by rewrite sorted_by_perm. }
  destruct (second_pass_spec sorted (after_first_pass rt sorted st)) as (out & st' & E & Hrw).
  { done. }
  { apply Forall_forall. intros r Hr. simpl.
    destruct (assigned_ids_elem (entropy st) sorted (id_mapping (self st)) r Hr) as [u ->].
    eauto. }
  exists out, st'. split; [|done].
  unfold transform_runs.
  erewrite bind_Ok; [|apply sorted_runs_str].
  - erewrite bind_Ok; [exact E|]. apply first_pass_spec.
    eapply Forall_impl; [exact Hsok|]. by intros r [].
  - eapply Forall_impl; [exact Hok|]. by intros r [].
Qed.

End Passes.

(** ** Valid traces *)
Section Valid.
Variable rt : runtime.
Implicit Types (r t : gmap string value) (st : state) (l out runs : list (gmap string value)).

Lemma NoDup_fmap_lookup_ne {A B} (f : A → B) (l : list A) i j x y :
  NoDup (f <$> l) → l !! i = Some x → l !! j = Some y → i ≠ j → f y ≠ f x.
Proof.
  intros Hnd Hi Hj Hij Heq. apply Hij.
  eapply (NoDup_lookup _ _ _ (f x) Hnd); rewrite list_lookup_fmap.
  - by rewrite Hi.
  - rewrite Hj. simpl. by rewrite Heq.
Qed.

Lemma NoDup_fmap_later {A B} (f : A → B) (l : list A) i x :
  NoDup (f <$> l) → l !! i = Some x → Forall (λ y, f y ≠ f x) (drop (S i) l).
Proof.
  intros Hnd Hi. apply Forall_lookup. intros k y Hk. rewrite lookup_drop in Hk.
  eapply NoDup_fmap_lookup_ne; eauto. lia.
Qed.

Lemma NoDup_fmap_between {A B} (f : A → B) (l : list A) i j x :
  NoDup (f <$> l) → l !! i = Some x → Forall (λ y, f y ≠ f x) (drop (S i) (take j l)).
Proof.
  intros Hnd Hi. apply Forall_lookup. intros k y Hk. rewrite lookup_drop in Hk.
  apply lookup_take_Some in Hk as [Hk _].
  eapply NoDup_fmap_lookup_ne; eauto. lia.
Qed.

Lemma id_of_old_id r s : id_of r = Some s → old_id r = s.
Proof. unfold old_id. by intros ->. Qed.

Lemma is_root_parent_of r : is_root r = true → parent_of r = None.
Proof. intros H. unfold parent_of. by rewrite (is_root_true _ H). Qed.

Lemma parent_of_not_root r : is_Some (parent_of r) → is_root r = false.
Proof.
  intros [p Hp]. unfold is_root. by rewrite (parent_of_Some _ _ Hp).
Qed.

(** The records of a valid trace with a rewritable payload are records
    the rewriter can process. *)
Lemma valid_records runs h :
  valid_trace runs → payload_ok rt h runs → Forall (record_ok rt h) runs.
Proof.
  intros [Hids _ _ Hpar Hkeys _] Hpay. apply Forall_forall. intros r Hr.
  rewrite Forall_forall in Hids, Hkeys. unfold payload_ok in Hpay.
  rewrite Forall_forall in Hpay. destruct (Hpay r Hr) as [? ?].
  split; try done.
  - destruct (Hids r Hr) as (s & -> & _). eauto.
  - destruct (Hpar r Hr) as [?|(p & Hp & ->)]; [by left|right].
    destruct (Hids p Hp) as (s & -> & _). eauto.
  - by apply Hkeys.
Qed.

(** Validity read on the sorted list. *)
Lemma valid_sorted runs :
  valid_trace runs →
  let sorted := sorted_by dotted_key runs in
  (∀ r, r ∈ sorted → id_of r = Some (old_id r) ∧ old_id r ≠ EmptyString) ∧
  NoDup (old_id <$> sorted) ∧
  (∃ i0 r0, sorted !! i0 = Some r0 ∧ is_root r0 = true ∧
     ∀ j r, sorted !! j = Some r → is_root r = true → j = i0) ∧
  topological sorted.
Proof.
  intros [Hids Hnd (r0 & Hr0 & Hroot & Huniq) Hpar Hkeys Htopo] sorted.
  rewrite Forall_forall in Hids.
  assert (∀ r, r ∈ sorted → id_of r = Some (old_id r) ∧ old_id r ≠ EmptyString) as Hid.
  { intros r Hr%elem_of_sorted_by. destruct (Hids r Hr) as (s & Hs & Hne).
    by rewrite (id_of_old_id _ _ Hs). }
  assert (NoDup (old_id <$> sorted)) as Hnd'.
  { apply (NoDup_fmap_1 Some). rewrite <- list_fmap_compose.
    assert (Some ∘ old_id <$> sorted = id_of <$> sorted) as ->.
    { apply list_fmap_ext. intros i r Hr%list_elem_of_lookup_2. simpl. symmetry. by apply Hid. }
    unfold sorted. by rewrite sorted_by_perm. }
  split_and!; [done|done| |done].
  apply (elem_of_sorted_by dotted_key), list_elem_of_lookup_1 in Hr0 as [i0 Hi0].
  exists i0, r0. split_and!; [done..|].
  intros j r Hj Hrr.
  assert (r = r0) as -> by (apply Huniq; [|done]; by eapply elem_of_sorted_by, list_elem_of_lookup_2).
  destruct (decide (j = i0)) as [|Hne]; [done|exfalso].
  by eapply (NoDup_fmap_lookup_ne old_id sorted i0 j r0 r0).
Qed.

(** What [transform_runs] does on a valid trace: it returns one record per
    input record, in the order of the sorted input; the record at position
    [j] carries the [j]-th new id, the new id of the root as trace id, the
    new id of its parent, and the dotted order of its parent extended by
    its own part. *)
Lemma valid_transform runs st :
  valid_trace runs → payload_ok rt (mem st) runs →
  let sorted := sorted_by dotted_key runs in
  let new_id j := UUID.str (uuid4_draw rt (entropy st + j)) in
  ∃ out st' i0 r0,
    transform_runs rt runs st = (Ok out, st') ∧ length out = length runs ∧
    sorted !! i0 = Some r0 ∧ is_root r0 = true ∧
    (∀ j r, sorted !! j = Some r → is_root r = true → j = i0) ∧
    ∀ j r, sorted !! j = Some r →
      ∃ t stj, out !! j = Some t ∧
        let part := current_part (stamp_time rt r stj) (new_id j) in
        t !! "id" = Some (VStr (new_id j)) ∧
        t !! "trace_id" = Some (VStr (new_id i0)) ∧
        (is_root r = true →
           t !! "parent_run_id" = Some VNone ∧ t !! "dotted_order" = Some (VStr part)) ∧
        (∀ i p, sorted !! i = Some p → parent_of r = id_of p →
           (i < j)%nat ∧ t !! "parent_run_id" = Some (VStr (new_id i)) ∧
           ∃ tp pd, out !! i = Some tp ∧ tp !! "dotted_order" = Some (VStr pd) ∧
             t !! "dotted_order" = Some (VStr (pd +:+ "." +:+ part))).
Proof.
  intros Hv Hp sorted new_id.
  destruct (valid_sorted runs Hv) as (Hid & Hnd & (i0 & r0 & Hi0 & Hroot0 & Huniq) & Htopo).
  fold sorted in Hid, Hnd, Hi0, Huniq, Htopo.
  destruct (transform_runs_spec rt runs st (valid_records runs _ Hv Hp))
    as (out & st' & E & Hrw).
  fold sorted in Hrw. set (st1 := after_first_pass rt sorted st) in *.
  assert (length out = length runs) as Hlen.
  { rewrite (rewrites_length _ _ _ _ _ Hrw). apply length_sorted_by. }
  assert (∀ j r, sorted !! j = Some r →
            id_mapping (self st1) !! old_id r = Some (new_id j)) as HM.
  { intros j r Hj. simpl. apply assigned_ids_lookup; [done|].
    by apply NoDup_fmap_later. }
  assert (new_trace_id (self st1) = Some (new_id i0)) as HT.
  { simpl. eapply assigned_trace_id_root; [done..|].
    apply Forall_lookup. intros k r' Hk. rewrite lookup_drop in Hk.
    destruct (is_root r') eqn:Hr'; [|done].
    specialize (Huniq _ _ Hk Hr'). lia. }
  exists out, st', i0, r0. split_and!; try done.
  intros j r Hj.
  destruct (rewrites_lookup _ _ _ _ _ _ _ Hrw Hj) as (t & stj & stj' & Ht & Hr & Hpre & _).
  destruct (rewrites_frame _ _ _ _ _ Hpre) as (HMj & HTj & _).
  assert (new_id_of (id_mapping (self stj)) r = new_id j) as Hnew.
  { unfold new_id_of. by rewrite HMj, (HM j r Hj). }
  exists t, stj. split; [done|]. cbv zeta. split_and!.
  - by rewrite (rw_id _ _ _ _ _ Hr), Hnew.
  - by rewrite (rw_trace _ _ _ _ _ Hr), HTj, HT.
  - intros Hroot. pose proof (is_root_parent_of _ Hroot) as Hnone.
    assert (new_parent (id_mapping (self stj)) r = None) as Hnp.
    { unfold new_parent. by rewrite Hnone. }
    split.
    + by rewrite (rw_parent _ _ _ _ _ Hr), Hnp.
    + rewrite (rw_dotted _ _ _ _ _ Hr). unfold new_dotted, dotted_for.
      by rewrite Hnp, Hnew.
  - intros i p Hi Hpar.
    destruct (Hid p) as [Hidp Hne]; [by eapply list_elem_of_lookup_2|].
    rewrite Hidp in Hpar.
    assert (i < j)%nat as Hij by (eapply Htopo; eauto; congruence).
    assert (new_parent (id_mapping (self stj)) r = Some (new_id i)) as Hnp.
    { unfold new_parent. rewrite Hpar.
      destruct (old_id p) eqn:Hop; [done|]. simpl.
      rewrite HMj, <- Hop. by apply HM. }
    destruct (rewrites_dotted_stored rt (take j sorted) st1 (take j out) stj i p Hpre)
      as (tp & pd & Htp & Hpd & Hne_pd & HD).
    { by rewrite lookup_take_lt. }
    { by apply NoDup_fmap_between. }
    rewrite lookup_take_lt in Htp by done.
    split_and!; [done| |].
    + by rewrite (rw_parent _ _ _ _ _ Hr), Hnp.
    + exists tp, pd. split_and!; [done..|].
      rewrite (rw_dotted _ _ _ _ _ Hr). unfold new_dotted, dotted_for.
      rewrite Hnp, Hnew, Hpar. simpl. unfold new_id at 1.
      by rewrite nonempty_uuid_str, HD, Hne_pd.
Qed.

End Valid.

Section More.
Variable rt : runtime.
Implicit Types (r t : gmap string value) (st : state) (l out runs : list (gmap string value)).

Lemma decimal_digit_stamp_char d : (d < 10)%N → stamp_char (PyStr.digit_char d) = true.
Proof.
  intros Hd. destruct d as [|p]; [done|].
  do 4 (destruct p as [p|p|]; try done); lia.
Qed.

(** A compact timestamp holds digits and one ['T'], no separator. *)
Lemma stamp_chars_strftime_compact (d : datetime) :
  PyStr.all_chars stamp_char (Datetime.strftime_compact d) = true.
Proof.
  unfold Datetime.strftime_compact, PyStr.fmt_d.
  rewrite !all_chars_app, !all_chars_zfill; try done; apply decimal_digit_stamp_char.
Qed.

Lemma dotted_for_prefix D npid r part :
  ∃ prefix, dotted_for D npid r part = prefix +:+ part.
Proof.
  unfold dotted_for. destruct (truthy_opt npid); [|by exists EmptyString].
  destruct (parent_of r ≫= (D !!.)) as [pd|]; [|by exists EmptyString].
  destruct (PyStr.nonempty pd); [|by exists EmptyString].
  exists (pd +:+ "."). by rewrite str_app_assoc.
Qed.

Lemma dotted_key_lookup t d : t !! "dotted_order" = Some (VStr d) → dotted_key t = d.
Proof. intros H. unfold dotted_key, sort_key, get. by rewrite H. Qed.

Lemma stamp_time_recorded r st d : recorded_start rt r = Some d → stamp_time rt r st = d.
Proof. unfold stamp_time. by intros ->. Qed.

Lemma assigned_ids_mono e l ids k :
  is_Some (ids !! k) → is_Some (assigned_ids rt e l ids !! k).
Proof.
  revert e ids. induction l as [|r l IH]; intros e ids Hk; [done|].
  simpl. apply IH. rewrite lookup_insert_is_Some. destruct (decide (old_id r = k)); eauto.
Qed.

Lemma assigned_trace_id_mono e l tid :
  is_Some tid → is_Some (assigned_trace_id rt e l tid).
Proof.
  revert e tid. induction l as [|r l IH]; intros e tid Hk; [done|].
  simpl. apply IH. destruct (is_root r); eauto.
Qed.

Lemma rewrites_dotted_mono l st out st' k :
  rewrites rt l st out st' →
  is_Some (dotted_order_mapping (self st) !! k) →
  is_Some (dotted_order_mapping (self st') !! k).
Proof.
  induction 1 as [st|r l st t st1 out st' Hr Hrs IH]; [done|].
  intros Hk. apply IH. rewrite (rw_self _ _ _ _ _ Hr). simpl.
  rewrite lookup_insert_is_Some. destruct (decide (old_id r = k)); eauto.
Qed.

Lemma rewrites_dotted_elem l st out st' r :
  rewrites rt l st out st' → r ∈ l →
  is_Some (dotted_order_mapping (self st') !! old_id r).
Proof.
  induction 1 as [st|r0 l st t st1 out st' Hr Hrs IH]; intros Hin.
  { by apply elem_of_nil in Hin. }
  apply elem_of_cons in Hin as [->|Hin]; [|by apply IH].
  eapply rewrites_dotted_mono; [done|].
  rewrite (rw_self _ _ _ _ _ Hr). simpl. rewrite lookup_insert_eq. eauto.
Qed.

(** The sorted list holds the records of the input. *)
Lemma sorted_runs_perm runs st sorted st1 :
  sorted_permutes rt → sorted_runs rt runs st = (Ok sorted, st1) → sorted ≡ₚ runs.
Proof.
  intros Hperm. unfold sorted_runs.
  destruct (forallb _ runs).
  - intros [= <- _]. apply sorted_by_perm.
  - intros [= H _]. by eapply Hperm.
Qed.

(** A record whose [start_time] is [unrecognised] makes
    [_transform_single_run] raise, whatever the state. *)
Lemma single_run_raises r v :
  r !! "start_time" = Some v → unrecognised rt v →
  ∀ st, ∃ e st', _transform_single_run rt r st = (Raise e, st').
Proof.
  intros Hv Hun st. unfold _transform_single_run.
  destruct (resolve_ids rt r st) as [[[[oid nid] npid]|e] st1] eqn:E1;
    [|exists e, st1; by apply bind_Raise].
  erewrite bind_Ok by exact E1. cbv beta iota zeta.
  destruct (build_transformed rt r nid npid st1) as [[t1|e] st2] eqn:E2;
    [|exists e, st2; by apply bind_Raise].
  erewrite bind_Ok by exact E2.
  destruct (add_source_metadata oid t1 st2) as [[t2|e] st3] eqn:E3;
    [|exists e, st3; by apply bind_Raise].
  erewrite bind_Ok by exact E3.
  assert ((∃ e, start_time_dt rt r st3 = (Raise e, st3)) ∨
          (start_time_dt rt r st3 = (Ok v, st3) ∧ strftime v = raise AttributeError))
    as [[e E4]|[E4 E5]].
  { unfold start_time_dt, get. rewrite Hv. simpl.
    destruct v as [|b|z|s|d|l|l]; simpl in Hun; try done.
    - subst b. by right.
    - right. rewrite bind_gets. simpl. by destruct (Z.eqb_spec z 0).
    - rewrite Hun. left. by eexists.
    - destruct l; [done|]. by right. }
  - exists e, st3. by apply bind_Raise.
  - erewrite bind_Ok by exact E4. rewrite E5. by eexists _, _.
Qed.

End More.

Section Processable.
Variable rt : runtime.
Implicit Types (r t : gmap string value) (st : state) (l out runs : list (gmap string value)).

Lemma rewrites_clock l st out st' :
  rewrites rt l st out st' → (clock st ≤ clock st')%nat.
Proof.
  induction 1 as [st|r l st t st1 out st' Hr Hrs IH]; [done|].
  pose proof (rw_clock _ _ _ _ _ Hr). lia.
Qed.

(** What [transform_runs] does on records it can process, valid trace or
    not: each record of the sorted input is [rewritten] at its position,
    with the id map of the first pass. *)
Lemma ok_transform runs st :
  Forall (record_ok rt (mem st)) runs →
  let sorted := sorted_by dotted_key runs in
  let st1 := after_first_pass rt sorted st in
  ∃ out st',
    transform_runs rt runs st = (Ok out, st') ∧ length out = length runs ∧
    rewrites rt sorted st1 out st' ∧
    ∀ j r, sorted !! j = Some r →
      ∃ t stj stj',
        out !! j = Some t ∧ rewritten rt r stj t stj' ∧
        id_mapping (self stj) = id_mapping (self st1) ∧
        preserve_timestamps (self stj) = preserve_timestamps (self st) ∧
        (clock st ≤ clock stj)%nat ∧
        rtc heap_step (mem stj') (mem st').
Proof.
  intros Hok sorted st1.
  destruct (transform_runs_spec rt runs st Hok) as (out & st' & E & Hrw).
  fold sorted in Hrw. fold st1 in Hrw.
  exists out, st'. split_and!; [done| |done|].
  { rewrite (rewrites_length _ _ _ _ _ Hrw). apply length_sorted_by. }
  intros j r Hj.
  destruct (rewrites_lookup _ _ _ _ _ _ _ Hrw Hj) as (t & stj & stj' & Ht & Hr & Hpre & Hpost).
  destruct (rewrites_frame _ _ _ _ _ Hpre) as (HM & _ & HP & _).
  destruct (rewrites_frame _ _ _ _ _ Hpost) as (_ & _ & _ & _ & _ & Hheap).
  exists t, stj, stj'. split_and!; try done.
  apply (rewrites_clock _ _ _ _ Hpre).
Qed.

End Processable.

(** ** The sample traces are valid *)

Lemma sorted_trace : sorted_by dotted_key Sample.trace = [Sample.root; Sample.child_b].
Proof. unfold Sample.trace. sort_sample. Qed.

Lemma sorted_siblings :
  sorted_by dotted_key Sample.siblings = [Sample.root; Sample.child_b; Sample.child_c].
Proof. unfold Sample.siblings. sort_sample. Qed.

Lemma trace_valid : valid_trace Sample.trace.
Proof. valid_sample sorted_trace Sample.root [Some "B"; Some "A"]. Qed.

Lemma siblings_valid : valid_trace Sample.siblings.
Proof. valid_sample sorted_siblings Sample.root [Some "C"; Some "A"; Some "B"]. Qed.

Lemma trace_payload : payload_ok Sample.rt Sample.heap0 Sample.trace.
Proof. payload_sample. Qed.

Lemma siblings_payload : payload_ok Sample.rt Sample.heap0 Sample.siblings.
Proof. payload_sample. Qed.

Lemma orphaned_records : Forall (record_ok Sample.rt Sample.heap0) Sample.orphaned.
Proof. repeat (apply Forall_cons_2; [record_sample|]). apply Forall_nil_2. Qed.

Lemma sorted_early : sorted_by dotted_key [Sample.early] = [Sample.early].
Proof. reflexivity. Qed.

Lemma early_valid : valid_trace [Sample.early].
Proof. valid_sample sorted_early Sample.early [Some "A"]. Qed.

Lemma early_payload : payload_ok Sample.rt Sample.heap0 [Sample.early].
Proof. payload_sample. Qed.

Lemma root_records : Forall (record_ok Sample.rt Sample.heap0) [Sample.root].
Proof. repeat (apply Forall_cons_2; [record_sample|]). apply Forall_nil_2. Qed.

Lemma trace_records : Forall (record_ok Sample.rt Sample.heap0) Sample.trace.
Proof. apply valid_records; [exact trace_valid|exact trace_payload]. Qed.

(** ** Computations of the script *)
Section IO.

Lemma io_bind_Done {A B} (c : IO A) (k : A → IO B) w a w' :
  c w = (Done a, w') → (c ≫= k) w = k a w'.
Proof. unfold mbind, IO_bind. by intros ->. Qed.

Lemma io_bind_Fail {A B} (c : IO A) (k : A → IO B) w e w' :
  c w = (Fail e, w') → (c ≫= k) w = (Fail e, w').
Proof. unfold mbind, IO_bind. by intros ->. Qed.

Lemma io_bind_Exit {A B} (c : IO A) (k : A → IO B) w n w' :
  c w = (Exit n, w') → (c ≫= k) w = (Exit n, w').
Proof. unfold mbind, IO_bind. by intros ->. Qed.

Lemma io_bind_Pending {A B} (c : IO A) (k : A → IO B) w w' :
  c w = (Pending, w') → (c ≫= k) w = (Pending, w').
Proof. unfold mbind, IO_bind. by intros ->. Qed.

Lemma io_bind_ret {A B} (a : A) (k : A → IO B) w : (mret a ≫= k) w = k a w.
Proof. reflexivity. Qed.

Lemma lift_Ok {A} (c : M A) w a st :
  c (py w) = (Ok a, st) → lift c w = (Done a, mkWorld st (trail w)).
Proof. unfold lift. by intros ->. Qed.

Lemma lift_Raise {A} (c : M A) w e st :
  c (py w) = (Raise e, st) → lift c w = (Fail (Python e), mkWorld st (trail w)).
Proof. unfold lift. by intros ->. Qed.

Lemma lift_gets {A} (f : state → A) w : lift (gets f) w = (Done (f (py w)), w).
Proof. by destruct w. Qed.

Lemma requests_app t1 t2 : requests (t1 ++ t2) = (requests t1 ++ requests t2)%list.
Proof. apply omap_app. Qed.

Lemma created_app t1 t2 : created (t1 ++ t2) = (created t1 ++ created t2)%list.
Proof. apply omap_app. Qed.

Lemma stderr_app t1 t2 : stderr (t1 ++ t2) = (stderr t1 ++ stderr t2)%list.
Proof. apply omap_app. Qed.

End IO.

(** ** Decoding *)
Section Decode.
Implicit Types (h : gmap loc (gmap string value)) (j : json) (v : value).

(** Induction on JSON documents, through their lists. *)
Lemma json_induction (P : json → Prop) :
  P JNull → (∀ b, P (JBool b)) → (∀ z, P (JNum z)) → (∀ s, P (JStr s)) →
  (∀ l, Forall P l → P (JArr l)) →
  (∀ kvs, Forall (λ kv, P kv.2) kvs → P (JObj kvs)) →
  ∀ j, P j.
Proof.
  intros Hnull Hbool Hnum Hstr Harr Hobj.
  fix IH 1. intros [|b|z|s|l|kvs];
    [apply Hnull|apply Hbool|apply Hnum|apply Hstr| |].
  - apply Harr. induction l as [|x l IHl]; constructor; [apply IH|apply IHl].
  - apply Hobj. induction kvs as [|[k x] kvs IHl]; constructor; [apply IH|apply IHl].
Qed.

Lemma represents_arr h l v :
  represents h (JArr l) v ↔ ∃ vs, v = VList vs ∧ items_rep h l vs.
Proof. reflexivity. Qed.

Lemma represents_obj h kvs v :
  represents h (JObj kvs) v ↔
    ∃ l d, v = VDict l ∧ h !! l = Some d ∧ members_rep h d kvs ∅.
Proof. reflexivity. Qed.

Lemma items_rep_Forall2 h l vs : items_rep h l vs ↔ Forall2 (represents h) l vs.
Proof.
  revert vs. induction l as [|x l IH]; intros [|v vs]; simpl.
  - split; [constructor|done].
  - split; [done|]. intros H. inversion H.
  - split; [done|]. intros H. inversion H.
  - rewrite IH. split.
    + intros [? ?]. by constructor.
    + intros H. by inversion H.
Qed.

(** A decoded value stays what it is when the store grows. *)
Lemma represents_mono h h' j v : h ⊆ h' → represents h j v → represents h' j v.
Proof.
  intros Hh. revert v. induction j as [| | | |l IH|kvs IH] using json_induction;
    intros v; try done.
  - rewrite !represents_arr. intros (vs & -> & Hvs). exists vs. split; [done|].
    revert vs Hvs. induction IH as [|x l Hx _ IHl]; intros [|v vs]; simpl; try done.
    intros [? ?]. split; [by apply Hx|by apply IHl].
  - rewrite !represents_obj. intros (l & d & -> & Hl & Hm). exists l, d.
    split_and!; [done|by eapply lookup_weaken|].
    revert Hm. generalize (∅ : gmap string value).
    induction IH as [|[k x] kvs Hx _ IHl]; intros acc; simpl; [done|].
    intros (v & Hv & Hrest). exists v. split; [by apply Hx|by apply IHl].
Qed.

Lemma new_object_spec (d : gmap string value) st :
  ∃ l, new_object d st = (Ok (VDict l), set_mem (insert l d) st) ∧
    mem st !! l = None.
Proof. eexists. split; [reflexivity|]. apply fresh_None. Qed.

(** [decode] returns; it only adds dictionaries to the store, and its
    result is the document. *)
Lemma decode_spec j st :
  ∃ v st', decode j st = (Ok v, st') ∧
    self st' = self st ∧ clock st' = clock st ∧ entropy st' = entropy st ∧
    mem st ⊆ mem st' ∧ represents (mem st') j v.
Proof.
  revert st. induction j as [| | | |l IH|kvs IH] using json_induction; intros st.
  1-4: by eexists _, st.
  - assert (∃ vs st',
      (fix items (l : list json) : M (list value) :=
         match l with
         | [] => ret []
         | x :: l' => bind (decode x) (λ v, bind (items l') (λ vs, ret (v :: vs)))
         end) l st = (Ok vs, st') ∧
      self st' = self st ∧ clock st' = clock st ∧ entropy st' = entropy st ∧
      mem st ⊆ mem st' ∧ items_rep (mem st') l vs) as (vs & st' & E & ? & ? & ? & ? & ?).
    { revert st. induction IH as [|x l Hx _ IHl]; intros st.
      { by exists [], st. }
      destruct (Hx st) as (v & st1 & E1 & ? & ? & ? & Hh1 & R1).
      destruct (IHl st1) as (vs & st2 & E2 & ? & ? & ? & Hh2 & R2).
      exists (v :: vs), st2. split.
      { erewrite bind_Ok by exact E1. erewrite bind_Ok by exact E2. done. }
      split_and!; try congruence; [by etrans|].
      simpl. split; [by eapply represents_mono|done]. }
    exists (VList vs), st'. split.
    { simpl. erewrite bind_Ok by exact E. done. }
    split_and!; try done. rewrite represents_arr. by exists vs.
  - assert (∀ acc, ∃ d st',
      (fix members (kvs : list (string * json)) (d : gmap string value)
          : M (gmap string value) :=
         match kvs with
         | [] => ret d
         | (k, x) :: kvs' => bind (decode x) (λ v, members kvs' (<[k := v]> d))
         end) kvs acc st = (Ok d, st') ∧
      self st' = self st ∧ clock st' = clock st ∧ entropy st' = entropy st ∧
      mem st ⊆ mem st' ∧ members_rep (mem st') d kvs acc) as Hmembers.
    { revert st. induction IH as [|[k x] kvs Hx _ IHl]; intros st acc.
      { by exists acc, st. }
      destruct (Hx st) as (v & st1 & E1 & ? & ? & ? & Hh1 & R1).
      destruct (IHl st1 (<[k := v]> acc)) as (d & st2 & E2 & ? & ? & ? & Hh2 & R2).
      exists d, st2. split.
      { erewrite bind_Ok by exact E1. exact E2. }
      split_and!; try congruence; [by etrans|].
      simpl. exists v. split; [by eapply represents_mono|done]. }
    destruct (Hmembers ∅) as (d & st1 & E & ? & ? & ? & Hh1 & R1).
    destruct (new_object_spec d st1) as (l & E2 & Hl).
    exists (VDict l), (set_mem (insert l d) st1). split.
    { simpl. erewrite bind_Ok by exact E. exact E2. }
    assert (mem st1 ⊆ <[l := d]> (mem st1)) as Hh2 by by apply insert_subseteq.
    simpl. split_and!; try done; [by etrans|].
    exists l, d. split_and!; [done|by rewrite lookup_insert_eq|].
    fold (members_rep (<[l := d]> (mem st1)) d kvs ∅).
    clear -R1 Hh2. revert R1. generalize (∅ : gmap string value).
    induction kvs as [|[k x] kvs IHl]; intros acc; simpl; [done|].
    intros (v & Hv & Hrest). exists v. split; [by eapply represents_mono|by apply IHl].
Qed.

(** The entries of a decoded object. *)
Lemma members_rep_lookup h d kvs acc k :
  members_rep h d kvs acc →
  match member k kvs with
  | Some x => ∃ v, d !! k = Some v ∧ represents h x v
  | None => d !! k = acc !! k
  end.
Proof.
  revert acc. induction kvs as [|[k' x] kvs IH]; intros acc; simpl.
  { by intros ->. }
  intros (v & Hv & Hrest). specialize (IH _ Hrest).
  destruct (member k kvs) as [y|]; [done|].
  destruct (String.eqb_spec k k') as [->|Hne].
  - exists v. by rewrite IH, lookup_insert_eq.
  - by rewrite IH, lookup_insert_ne.
Qed.

Lemma represents_member h kvs l k x :
  represents h (JObj kvs) (VDict l) → member k kvs = Some x →
  ∃ v, deref h l !! k = Some v ∧ represents h x v.
Proof.
  rewrite represents_obj. intros (l' & d & [= <-] & Hl & Hm) Hk.
  pose proof (members_rep_lookup _ _ _ _ k Hm) as H. rewrite Hk in H.
  unfold deref. by rewrite Hl.
Qed.

Lemma represents_no_member h kvs l k :
  represents h (JObj kvs) (VDict l) → member k kvs = None → deref h l !! k = None.
Proof.
  rewrite represents_obj. intros (l' & d & [= <-] & Hl & Hm) Hk.
  pose proof (members_rep_lookup _ _ _ _ k Hm) as H. rewrite Hk in H.
  unfold deref. rewrite Hl. simpl. by rewrite H, lookup_empty.
Qed.

End Decode.

(** ** The download *)
Section Download.
Variable sv : services.
Implicit Types (w : world) (d : PublicTraceDownloader) (acc : list value).

Lemma limit_pos : (0 < limit)%nat.
Proof. unfold limit. lia. Qed.

Lemma raise_for_status_ok (r : response) w :
  (status_code r < 400)%Z ∨ (600 ≤ status_code r)%Z →
  raise_for_status r w = (Done tt, w).
Proof.
  intros H. unfold raise_for_status.
  destruct (Z.leb_spec 400 (status_code r)), (Z.ltb_spec (status_code r) 600);
    simpl; try done; lia.
Qed.

Lemma raise_for_status_error (r : response) w :
  (400 ≤ status_code r < 600)%Z →
  raise_for_status r w = (Fail (HTTPError (Some r)), w).
Proof.
  intros H. unfold raise_for_status.
  destruct (Z.leb_spec 400 (status_code r)), (Z.ltb_spec (status_code r) 600);
    simpl; try done; lia.
Qed.

(** [response.json()] on a JSON body returns the body, decoded into new
    dictionaries. *)
Lemma response_json_spec (r : response) j w :
  json_body r = Some j →
  ∃ v st, response_json r w = (Done v, mkWorld st (trail w)) ∧
    self st = self (py w) ∧ clock st = clock (py w) ∧ entropy st = entropy (py w) ∧
    mem (py w) ⊆ mem st ∧ represents (mem st) j v.
Proof.
  intros Hj. unfold response_json. rewrite Hj.
  destruct (decode_spec j (py w)) as (v & st & E & ? & ? & ? & ? & ?).
  exists v, st. split; [by apply lift_Ok|done].
Qed.

(** One iteration of the loop of [get_all_runs], on an answer that holds a
    page. *)
Lemma get_all_runs_step n d acc offset w r page :
  http sv w (page_request d offset) = inr r →
  answers r "runs" (JArr page) →
  ∃ vs w1, page_fetched w (page_request d offset) page vs w1 ∧
    get_all_runs_loop sv (S n) d acc offset w =
      match vs with
      | [] => (Done acc, w1)
      | _ :: _ =>
          if (length vs <? limit)%nat then (Done (acc ++ vs)%list, w1)
          else get_all_runs_loop sv n d (acc ++ vs)%list (offset + length vs) w1
      end.
Proof.
  intros Hhttp (Hst & kvs & Hbody & Hruns).
  set (w0 := mkWorld (py w) (trail w ++ [Request (page_request d offset)])).
  destruct (response_json_spec r (JObj kvs) w0 Hbody)
    as (data & st & Ejson & Hs & Hc & He & Hh & Hrep).
  pose proof Hrep as Hobj. apply represents_obj in Hobj as (l & dd & -> & Hl & _).
  destruct (represents_member _ _ _ _ _ Hrep Hruns) as (batch & Hbatch & Hb).
  apply represents_arr in Hb as (vs & -> & Hvs%items_rep_Forall2).
  exists vs, (mkWorld st (trail w0)). split.
  { by split_and!. }
  cbn [get_all_runs_loop].
  erewrite io_bind_Done; [|unfold requests_send; fold (page_request d offset); by rewrite Hhttp].
  fold w0.
  erewrite io_bind_Done by by apply raise_for_status_ok.
  erewrite io_bind_Done by exact Ejson.
  unfold object_get. erewrite io_bind_Done by apply lift_gets.
  cbn [py mem]. unfold get. rewrite Hbatch. cbn [default].
  unfold is_falsy. erewrite io_bind_Done by apply lift_gets.
  cbn [py mem id truthy]. destruct vs as [|v vs]; [done|].
  cbn [negb]. unfold items_of. rewrite io_bind_ret.
  by destruct (length (v :: vs) <? limit)%nat.
Qed.

(** A page is the whole rest when it is shorter than [limit], and [limit]
    runs long otherwise. *)
Lemma length_page {A} (all : list A) offset :
  length (take limit (drop offset all)) = (length all - offset) `min` limit.
Proof. rewrite length_take, length_drop. lia. Qed.

Lemma div_limit_small a : (a < limit)%nat → (a / limit = 0)%nat.
Proof. apply Nat.div_small. Qed.

Lemma div_limit_step a : (limit ≤ a)%nat → (a / limit = S ((a - limit) / limit))%nat.
Proof.
  intros H. replace a with ((a - limit) + 1 * limit)%nat at 1 by lia.
  rewrite Nat.div_add by (pose proof limit_pos; lia). lia.
Qed.

(** One iteration of the loop of [get_feedbacks], on an answer that is a
    page. *)
Lemma get_feedbacks_step n d run_ids acc offset w r page :
  http sv w (feedback_request d run_ids offset) = inr r →
  (status_code r < 400)%Z ∨ (600 ≤ status_code r)%Z →
  json_body r = Some (JArr page) →
  ∃ vs w1, page_fetched w (feedback_request d run_ids offset) page vs w1 ∧
    get_feedbacks_loop sv (S n) d run_ids acc offset w =
      match vs with
      | [] => (Done acc, w1)
      | _ :: _ =>
          if (length vs <? limit)%nat then (Done (acc ++ vs)%list, w1)
          else get_feedbacks_loop sv n d run_ids (acc ++ vs)%list (offset + length vs) w1
      end.
Proof.
  intros Hhttp Hst Hbody.
  set (w0 := mkWorld (py w) (trail w ++ [Request (feedback_request d run_ids offset)])).
  destruct (response_json_spec r (JArr page) w0 Hbody)
    as (batch & st & Ejson & Hs & Hc & He & Hh & Hrep).
  apply represents_arr in Hrep as (vs & -> & Hvs%items_rep_Forall2).
  exists vs, (mkWorld st (trail w0)). split.
  { by split_and!. }
  cbn [get_feedbacks_loop].
  assert (GET (base_url d +:+ "/public/" +:+ share_token d +:+ "/feedbacks")
            match run_ids with
            | Some (id :: ids) =>
                ([("offset", JNum (Z.of_nat offset)); ("limit", JNum (Z.of_nat limit))]
                 ++ [("run", JArr (JStr <$> id :: ids))])%list
            | _ => [("offset", JNum (Z.of_nat offset)); ("limit", JNum (Z.of_nat limit))]
            end = feedback_request d run_ids offset) as ->.
  { unfold feedback_request. by destruct run_ids as [[|? ?]|]. }
  erewrite io_bind_Done; [|unfold requests_send; by rewrite Hhttp].
  fold w0.
  erewrite io_bind_Done by by apply raise_for_status_ok.
  erewrite io_bind_Done by exact Ejson.
  unfold is_falsy. erewrite io_bind_Done by apply lift_gets.
  cbn [py mem truthy]. destruct vs as [|v vs]; [done|].
  cbn [negb]. unfold items_of. rewrite io_bind_ret.
  by destruct (length (v :: vs) <? limit)%nat.
Qed.

Lemma fmap_offsets (m offset k : nat) :
  (λ i, offset + i * m)%nat <$> seq 0 (S k)
  = offset :: ((λ i, offset + m + i * m)%nat <$> seq 0 k).
Proof.
  rewrite <- cons_seq, fmap_cons, <- fmap_S_seq, <- list_fmap_compose.
  f_equal; [lia|]. apply list_fmap_ext. intros i x _. simpl. lia.
Qed.

(** A loop that fetches the items [all] page by page, asking [req offset]
    for the page at [offset], returns all of them. *)
Lemma paging_complete (loop : nat → list value → nat → IO (list value))
    (req : nat → request) (all : list json) :
  (∀ n acc offset w, (offset ≤ length all)%nat →
     ∃ vs w1, page_fetched w (req offset) (take limit (drop offset all)) vs w1 ∧
       loop (S n) acc offset w =
         match vs with
         | [] => (Done acc, w1)
         | _ :: _ =>
             if (length vs <? limit)%nat then (Done (acc ++ vs)%list, w1)
             else loop n (acc ++ vs)%list (offset + length vs)%nat w1
         end) →
  ∀ n acc offset w,
  offset = length acc → (offset ≤ length all)%nat →
  ((length all - offset) / limit < n)%nat →
  Forall2 (represents (mem (py w))) (take offset all) acc →
  ∃ vs w', loop n acc offset w = (Done vs, w') ∧
    Forall2 (represents (mem (py w'))) all vs ∧
    trail w' = (trail w ++
      (Request ∘ req <$>
         ((λ i, offset + i * limit)%nat <$> seq 0 (S ((length all - offset) / limit)))))%list ∧
    self (py w') = self (py w) ∧ clock (py w') = clock (py w) ∧
    entropy (py w') = entropy (py w) ∧ mem (py w) ⊆ mem (py w').
Proof.
  intros Hstep n.
  induction n as [|n IH]; intros acc offset w Hoff Hle Hn Hacc; [lia|].
  destruct (Hstep n acc offset w Hle)
    as (vs & w1 & (Hvs & Htrail & Hs & Hc & He & Hh) & ->).
  pose proof (Forall2_length _ _ _ Hvs) as Hlen. rewrite length_page in Hlen.
  assert (Forall2 (represents (mem (py w1))) (take offset all) acc) as Hacc1.
  { eapply Forall2_impl; [exact Hacc|]. intros j v. by apply represents_mono. }
  pose proof limit_pos as Hpos.
  destruct vs as [|v vs].
  - (* an empty page: everything was fetched before *)
    simpl in Hlen. assert (offset = length all) as Hall by lia.
    exists acc, w1. split; [done|]. split_and!; try done.
    + by rewrite Hall, firstn_all in Hacc1.
    + rewrite Htrail, div_limit_small by lia. by rewrite fmap_offsets.
  - destruct (Nat.ltb_spec (length (v :: vs)) limit) as [Hshort|Hfull].
    + (* a short page: the last one *)
      exists (acc ++ v :: vs)%list, w1. split; [done|]. split_and!; try done.
      * rewrite <- (take_drop offset all). apply Forall2_app; [done|].
        rewrite <- (take_ge (drop offset all) limit); [done|].
        rewrite length_drop. lia.
      * rewrite Htrail, div_limit_small by lia. by rewrite fmap_offsets.
    + (* a full page: the loop goes on *)
      assert (length (v :: vs) = limit) as Hlim by lia.
      destruct (IH (acc ++ v :: vs)%list (offset + length (v :: vs))%nat w1)
        as (out & w' & E & Hout & Htr' & Hs' & Hc' & He' & Hh').
      { rewrite length_app. lia. }
      { lia. }
      { rewrite Hlim. rewrite (div_limit_step (length all - offset)) in Hn by lia.
        replace (length all - (offset + limit))%nat
          with (length all - offset - limit)%nat by lia. lia. }
      { rewrite Hlim, <- take_take_drop. by apply Forall2_app. }
      exists out, w'. split; [done|]. split_and!; try congruence; [|by etrans].
      rewrite Htr', Htrail, <- app_assoc. f_equal.
      rewrite (div_limit_step (length all - offset)) by lia.
      rewrite Hlim.
      replace (length all - (offset + limit))%nat
        with (length all - offset - limit)%nat by lia.
      by rewrite (fmap_offsets limit offset), fmap_cons.
Qed.

(** The loop of [get_all_runs] on a server that holds [all]: from [offset]
    on it fetches the remaining pages and returns all runs. *)
Lemma get_all_runs_loop_complete n d (all : list json) acc offset w :
  serves_pages sv d all (S (length all)) →
  offset = length acc → (offset ≤ length all)%nat →
  ((length all - offset) / limit < n)%nat →
  Forall2 (represents (mem (py w))) (take offset all) acc →
  ∃ vs w', get_all_runs_loop sv n d acc offset w = (Done vs, w') ∧
    Forall2 (represents (mem (py w'))) all vs ∧
    trail w' = (trail w ++
      (Request ∘ page_request d <$>
         ((λ i, offset + i * limit)%nat <$> seq 0 (S ((length all - offset) / limit)))))%list ∧
    self (py w') = self (py w) ∧ clock (py w') = clock (py w) ∧
    entropy (py w') = entropy (py w) ∧ mem (py w) ⊆ mem (py w').
Proof.
  intros Hserve.
  apply (paging_complete (λ n, get_all_runs_loop sv n d) (page_request d) all).
  intros n' acc' offset' w' Hle.
  destruct (Hserve w' offset') as (r & Hhttp & Hans); [lia|].
  by apply (get_all_runs_step n' d acc' offset' w' r).
Qed.

(** The same for the loop of [get_feedbacks]. *)
Lemma get_feedbacks_loop_complete n d run_ids (all : list json) acc offset w :
  serves_feedbacks sv d run_ids all →
  offset = length acc → (offset ≤ length all)%nat →
  ((length all - offset) / limit < n)%nat →
  Forall2 (represents (mem (py w))) (take offset all) acc →
  ∃ vs w', get_feedbacks_loop sv n d run_ids acc offset w = (Done vs, w') ∧
    Forall2 (represents (mem (py w'))) all vs ∧
    trail w' = (trail w ++
      (Request ∘ feedback_request d run_ids <$>
         ((λ i, offset + i * limit)%nat <$> seq 0 (S ((length all - offset) / limit)))))%list ∧
    self (py w') = self (py w) ∧ clock (py w') = clock (py w) ∧
    entropy (py w') = entropy (py w) ∧ mem (py w) ⊆ mem (py w').
Proof.
  intros Hserve.
  apply (paging_complete (λ n, get_feedbacks_loop sv n d run_ids)
           (feedback_request d run_ids) all).
  intros n' acc' offset' w' Hle.
  destruct (Hserve w' offset') as (r & Hhttp & Hst & Hbody).
  by apply (get_feedbacks_step n' d run_ids acc' offset' w' r).
Qed.

(** The loop on a server whose page at [stop] is an error: the pages before
    it are fetched, then the error is raised. *)
Lemma get_all_runs_loop_error n d (all : list json) acc offset w pages r :
  serves_pages sv d all (offset + pages * limit) →
  (offset + pages * limit ≤ length all)%nat →
  (∀ w', http sv w' (page_request d (offset + pages * limit)) = inr r) →
  (400 ≤ status_code r < 600)%Z →
  (pages < n)%nat →
  ∃ w', get_all_runs_loop sv n d acc offset w = (Fail (HTTPError (Some r)), w') ∧
    requests (trail w') = (requests (trail w) ++
      (page_request d <$> ((λ i, offset + i * limit)%nat <$> seq 0 (S pages))))%list.
Proof.
  revert n acc offset w. induction pages as [|pages IH]; intros n acc offset w Hserve Hle Herr Hst Hn.
  - destruct n as [|n]; [lia|]. simpl in Herr. rewrite Nat.add_0_r in Herr.
    exists (mkWorld (py w) (trail w ++ [Request (page_request d offset)])). split.
    + cbn [get_all_runs_loop].
      erewrite io_bind_Done;
        [|unfold requests_send; fold (page_request d offset); by rewrite Herr].
      erewrite io_bind_Fail by by apply raise_for_status_error. reflexivity.
    + rewrite fmap_offsets. cbn [trail]. by rewrite requests_app.
  - destruct n as [|n]; [lia|].
    pose proof limit_pos as Hpos.
    destruct (Hserve w offset) as (r0 & Hhttp & Hans); [lia|].
    destruct (get_all_runs_step n d acc offset w r0 _ Hhttp Hans)
      as (vs & w1 & (Hvs & Htrail & _) & ->).
    pose proof (Forall2_length _ _ _ Hvs) as Hlen. rewrite length_page in Hlen.
    assert (length vs = limit) as Hlim by lia.
    destruct vs as [|v vs]; [simpl in Hlim; lia|].
    destruct (Nat.ltb_spec (length (v :: vs)) limit) as [Hshort|Hfull]; [lia|].
    rewrite Hlim.
    destruct (IH n (acc ++ v :: vs)%list (offset + limit)%nat w1) as (w' & E & Hreq).
    { replace (offset + limit + pages * limit)%nat with (offset + S pages * limit)%nat
        by lia. done. }
    { lia. }
    { replace (offset + limit + pages * limit)%nat with (offset + S pages * limit)%nat
        by lia. done. }
    { done. }
    { lia. }
    exists w'. split; [done|].
    rewrite Hreq, Htrail, requests_app, <- app_assoc. f_equal.
    by rewrite (fmap_offsets limit offset), fmap_cons.
Qed.

(** The loop on a server that always has a full page: it asks again at
    every iteration and is never done. *)
Lemma get_all_runs_loop_endless n d acc offset w :
  (∀ w offset, ∃ r page, http sv w (page_request d offset) = inr r ∧
     answers r "runs" (JArr page) ∧ (limit ≤ length page)%nat) →
  ∃ w', get_all_runs_loop sv n d acc offset w = (Pending, w') ∧
    length (requests (trail w')) = (length (requests (trail w)) + n)%nat.
Proof.
  intros Hfull. revert acc offset w. induction n as [|n IH]; intros acc offset w.
  { exists w. split; [done|lia]. }
  destruct (Hfull w offset) as (r & page & Hhttp & Hans & Hlen).
  destruct (get_all_runs_step n d acc offset w r _ Hhttp Hans)
    as (vs & w1 & (Hvs & Htrail & _) & ->).
  pose proof (Forall2_length _ _ _ Hvs) as Hlen'.
  pose proof limit_pos as Hpos.
  destruct vs as [|v vs]; [simpl in Hlen'; lia|].
  destruct (Nat.ltb_spec (length (v :: vs)) limit) as [Hshort|_]; [lia|].
  destruct (IH (acc ++ v :: vs)%list (offset + length (v :: vs))%nat w1) as (w' & E & Hreq).
  exists w'. split; [done|].
  rewrite Hreq, Htrail, requests_app, length_app. simpl. lia.
Qed.

End Download.

(** ** The payload of a rewritten record *)
Section Payload.
Variable rt : runtime.
Implicit Types (r t : gmap string value) (st : state) (out runs : list (gmap string value)).

Lemma build_transformed_payload r st nid npid :
  ∃ t st1, build_transformed rt r nid npid st = (Ok t, st1) ∧
    t !! "name" = Some (get "name" VNone r) ∧
    t !! "run_type" = Some (get "run_type" VNone r) ∧
    t !! "error" = Some (get "error" VNone r) ∧
    t !! "serialized" = Some (get "serialized" VNone r) ∧
    t !! "events" = Some (get "events" (VList []) r) ∧
    t !! "tags" = Some (get "tags" (VList []) r) ∧
    match r !! "inputs" with
    | Some v => t !! "inputs" = Some v
    | None => ∃ l, t !! "inputs" = Some (VDict l)
    end ∧
    match r !! "outputs" with
    | Some v => t !! "outputs" = Some v
    | None => ∃ l, t !! "outputs" = Some (VDict l)
    end ∧
    t !! "session_name" = Some (VStr (target_project (self st))) ∧
    (∀ k, k ∉ fixed_keys → t !! k = None).
Proof.
  unfold build_transformed.
  set (st0 := if preserve_timestamps (self st) then st
              else mkState (self st) (mem st) (S (clock st)) (entropy st)).
  assert (self st0 = self st) as Hs0.
  { unfold st0. by destruct (preserve_timestamps (self st)). }
  destruct (get_or_new_dict_spec "inputs" r st0) as (vi & st1 & Ei & Hs1 & _ & _ & _ & Hvi).
  destruct (get_or_new_dict_spec "outputs" r st1) as (vo & st2 & Eo & Hs2 & _ & _ & _ & Hvo).
  destruct (get_or_new_dict_spec "extra" r st2) as (ve & st3 & Ee & Hs3 & _ & _ & _ & _).
  assert ((if preserve_timestamps (self st)
           then ret (get "start_time" VNone r)
           else bind (utcnow rt) (λ now, ret (VStr (Datetime.isoformat now)))) st
          = (Ok (if preserve_timestamps (self st) then get "start_time" VNone r
                 else VStr (Datetime.isoformat (utcnow_at rt (clock st)))), st0)) as Est.
  { unfold st0. by destruct (preserve_timestamps (self st)). }
  eexists _, st3. split.
  { rewrite !bind_gets. erewrite bind_Ok by exact Est.
    erewrite bind_Ok by exact Ei. erewrite bind_Ok by exact Eo.
    erewrite bind_Ok by exact Ee. rewrite bind_gets. reflexivity. }
  split_and!.
  1-6: by rewrite !lookup_insert_ne, lookup_insert_eq by done.
  - rewrite !lookup_insert_ne, lookup_insert_eq by done.
    destruct Hvi as [->|(-> & l & -> & _)]; eauto.
  - rewrite !lookup_insert_ne, lookup_insert_eq by done.
    destruct Hvo as [->|(-> & l & -> & _)]; eauto.
  - rewrite lookup_insert_eq. do 3 f_equal. congruence.
  - intros k Hk. unfold fixed_keys in Hk. other_key Hk.
    by rewrite !lookup_insert_ne, lookup_empty by done.
Qed.

Lemma copy_if_present_eq k r t : t !! k = None → copy_if_present k r t !! k = r !! k.
Proof.
  intros Ht. unfold copy_if_present. destruct (r !! k) eqn:Hk; [|done].
  by rewrite lookup_insert_eq.
Qed.

Lemma copy_token_counts_eq k r t :
  k ∈ token_keys → t !! k = None → copy_token_counts r t !! k = r !! k.
Proof.
  intros Hk Ht. unfold token_keys in Hk. unfold copy_token_counts.
  in_list Hk.
  - by rewrite !lookup_copy_if_present, copy_if_present_eq by done.
  - by rewrite !lookup_copy_if_present, copy_if_present_eq
      by (done || by rewrite lookup_copy_if_present).
  - by rewrite !lookup_copy_if_present, copy_if_present_eq
      by (done || by rewrite !lookup_copy_if_present).
  - by rewrite copy_if_present_eq by (by rewrite !lookup_copy_if_present).
Qed.

Lemma token_not_fixed k : k ∈ token_keys → k ∉ fixed_keys.
Proof.
  unfold token_keys. intros Hk. in_list Hk; unfold fixed_keys;
    repeat (apply not_elem_of_cons; split; [done|]); apply not_elem_of_nil.
Qed.

(** [_transform_single_run] returns, and the payload of what it returns is
    [carried_over]. *)
Lemma transform_single_run_payload r st :
  record_ok rt (mem st) r → is_Some (id_mapping (self st) !! old_id r) →
  ∃ t st', _transform_single_run rt r st = (Ok t, st') ∧
    carried_over (target_project (self st)) r t.
Proof.
  intros [[oid Hid] Hpar _ Hstart Hextra] [nid Hnid].
  assert (old_id r = oid) as Hold by (unfold old_id; by rewrite Hid).
  rewrite Hold in Hnid.
  pose proof (resolve_ids_spec rt r st oid nid Hid Hnid Hpar) as E1.
  destruct (build_transformed_spec rt r st nid (new_parent (id_mapping (self st)) r) Hextra)
    as (t1 & st1 & E2 & Hs1 & _ & _ & _ & _ & _ & _ & _ & _ & _ & Hex1 & _).
  destruct (build_transformed_payload r st nid (new_parent (id_mapping (self st)) r))
    as (t1' & st1' & E2' & Fna & Fty & Fer & Fse & Fev & Fta & Fin & Fou & Fpr & Foth).
  rewrite E2 in E2'. injection E2' as <- <-.
  destruct (add_source_metadata_spec oid t1 st1 Hex1)
    as (t2 & st2 & E3 & Hs2 & _ & _ & _ & Hk2 & _).
  destruct (start_time_dt_spec rt r st2 Hstart) as (st3 & E4 & _).
  pose proof (new_dotted_order_spec rt r (id_mapping (self st))
                (current_part (default (utcnow_at rt (clock st2)) (recorded_start rt r)) nid)
                st3 Hpar) as E5.
  eexists _, _. split.
  { unfold _transform_single_run.
    erewrite bind_Ok by exact E1. cbv beta iota zeta.
    erewrite bind_Ok by exact E2.
    erewrite bind_Ok by exact E3. erewrite bind_Ok by exact E4.
    unfold strftime. rewrite bind_ret.
    erewrite bind_Ok by exact E5. rewrite bind_modify. reflexivity. }
  assert (∀ k, k ≠ "extra" → k ≠ "dotted_order" → k ∉ token_keys →
            ∀ d, <["dotted_order" := d]> (copy_token_counts r t2) !! k = t1 !! k) as Hkeep.
  { intros k ? ? ? d. by rewrite lookup_insert_ne, lookup_copy_token_counts, Hk2. }
  split.
  1-6: rewrite Hkeep; [done..|not_token].
  - destruct (r !! "inputs"); [|destruct Fin as [l Fin]; exists l];
      (rewrite Hkeep; [done..|not_token]).
  - destruct (r !! "outputs"); [|destruct Fou as [l Fou]; exists l];
      (rewrite Hkeep; [done..|not_token]).
  - rewrite Hkeep; [done..|not_token].
  - intros k Hk. pose proof (token_not_fixed k Hk) as Hnf.
    assert (k ≠ "dotted_order" ∧ k ≠ "extra") as [? ?].
    { split; intros ->; apply Hnf; is_key. }
    rewrite lookup_insert_ne by done.
    apply copy_token_counts_eq; [done|]. rewrite Hk2 by done. by apply Foth.
  - intros k Hk Hnt.
    assert (k ≠ "dotted_order" ∧ k ≠ "extra") as [? ?].
    { split; intros ->; apply Hk; is_key. }
    rewrite Hkeep by done. by apply Foth.
Qed.

Lemma second_pass_payload l st :
  Forall (record_ok rt (mem st)) l →
  Forall (λ r, is_Some (id_mapping (self st) !! old_id r)) l →
  ∃ out st', collect (_transform_single_run rt) l st = (Ok out, st') ∧
    Forall2 (carried_over (target_project (self st))) l out.
Proof.
  revert st. induction l as [|r l IH]; intros st Hok Hids.
  { exists [], st. split; [done|constructor]. }
  apply Forall_cons in Hok as [Hr Hok]. apply Forall_cons in Hids as [Hi Hids].
  destruct (transform_single_run_spec rt r st Hr Hi) as (t & st1 & E1 & Hrw).
  destruct (transform_single_run_payload r st Hr Hi) as (t' & st1' & E1' & Hpay).
  rewrite E1 in E1'. injection E1' as <- <-.
  destruct (rewritten_frame _ _ _ _ _ Hrw) as (HM & _ & _ & HP).
  destruct (IH st1) as (out & st' & E2 & Hrest).
  { eapply Forall_impl; [exact Hok|]. intros r'. apply record_ok_steps, Hrw. }
  { by rewrite HM. }
  exists (t :: out), st'. split.
  - simpl. erewrite bind_Ok by exact E1. erewrite bind_Ok by exact E2. done.
  - constructor; [done|]. by rewrite <- HP.
Qed.

(** On records it can process, [transform_runs] returns the payload of the
    sorted input, record by record. *)
Lemma transform_runs_payload runs st :
  Forall (record_ok rt (mem st)) runs →
  ∃ out st', transform_runs rt runs st = (Ok out, st') ∧
    Forall2 (carried_over (target_project (self st))) (sorted_by dotted_key runs) out.
Proof.
  intros Hok. set (sorted := sorted_by dotted_key runs).
  assert (Forall (record_ok rt (mem st)) sorted) as Hsok.
  { unfold sorted. by rewrite sorted_by_perm. }
  destruct (second_pass_payload sorted (after_first_pass rt sorted st)) as (out & st' & E & Hpay).
  { done. }
  { apply Forall_forall. intros r Hr. simpl.
    destruct (assigned_ids_elem rt (entropy st) sorted (id_mapping (self st)) r Hr) as [u ->].
    eauto. }
  exists out, st'. split; [|done].
  unfold transform_runs.
  erewrite bind_Ok; [|apply sorted_runs_str].
  - erewrite bind_Ok; [exact E|]. apply first_pass_spec.
    eapply Forall_impl; [exact Hsok|]. by intros r [].
  - eapply Forall_impl; [exact Hok|]. by intros r [].
Qed.

End Payload.

Section Edges.
Variable rt : runtime.
Implicit Types (r t : gmap string value) (st : state) (out runs : list (gmap string value)).

(** *** A record without [id] *)

Lemma assign_new_id_present r v st :
  r !! "id" = Some v →
  ∃ st1, assign_new_id rt r st = (Ok tt, st1) ∧
    mem st1 = mem st ∧ clock st1 = clock st ∧
    dotted_order_mapping (self st1) = dotted_order_mapping (self st).
Proof.
  intros Hv. unfold assign_new_id, getitem. rewrite Hv, bind_ret.
  unfold str_. rewrite bind_gets. unfold bind, uuid4_str. simpl.
  destruct (get "parent_run_id" VNone r); by eexists.
Qed.

Lemma first_pass_missing_id (l : list (gmap string value)) st r :
  r ∈ l → r !! "id" = None →
  ∃ st', for_each l (assign_new_id rt) st = (Raise (KeyError "id"), st') ∧
    mem st' = mem st ∧ clock st' = clock st ∧
    dotted_order_mapping (self st') = dotted_order_mapping (self st).
Proof.
  intros Hr Hid. revert st. induction l as [|r0 l IH]; intros st.
  { by apply elem_of_nil in Hr. }
  simpl. destruct (r0 !! "id") as [v|] eqn:H0.
  - destruct (assign_new_id_present r0 v st H0) as (st1 & E & Hm & Hc & Hd).
    erewrite bind_Ok by exact E.
    apply elem_of_cons in Hr as [->|Hr]; [congruence|].
    destruct (IH Hr st1) as (st' & E' & ? & ? & ?).
    exists st'. split_and!; congruence.
  - exists st. split; [|done].
    apply bind_Raise. unfold assign_new_id, getitem. by rewrite H0.
Qed.

(** *** The store *)

(** A step of the rewriter keeps every entry of every dictionary, the two
    provenance keys apart. *)
Lemma heap_step_keeps h h' l d k v :
  heap_step h h' → h !! l = Some d → d !! k = Some v →
  k ≠ "copied_from_shared_trace" → k ≠ "original_run_id" →
  ∃ d', h' !! l = Some d' ∧ d' !! k = Some v.
Proof.
  intros Hs Hl Hk Hc Ho.
  assert (deref h l = d) as Hd by (unfold deref; by rewrite Hl).
  destruct Hs as [h|h l0 m Hm|h m|h m s].
  - exists d. split; [|done]. rewrite lookup_insert_ne; [done|].
    apply fresh_ne. by rewrite Hl.
  - destruct (decide (l0 = l)) as [->|Hne].
    + rewrite lookup_insert_eq. eexists. split; [done|].
      rewrite Hd. rewrite Hd in Hm.
      rewrite lookup_insert_ne; [done|]. intros <-. congruence.
    + exists d. by rewrite lookup_insert_ne.
  - destruct (decide (m = l)) as [->|Hne].
    + rewrite lookup_insert_eq. eexists. split; [done|].
      by rewrite Hd, lookup_insert_ne.
    + exists d. by rewrite lookup_insert_ne.
  - destruct (decide (m = l)) as [->|Hne].
    + rewrite lookup_insert_eq. eexists. split; [done|].
      by rewrite Hd, lookup_insert_ne.
    + exists d. by rewrite lookup_insert_ne.
Qed.

Lemma heap_steps_keep h h' l d k v :
  rtc heap_step h h' → h !! l = Some d → d !! k = Some v →
  k ≠ "copied_from_shared_trace" → k ≠ "original_run_id" →
  ∃ d', h' !! l = Some d' ∧ d' !! k = Some v.
Proof.
  intros Hs. revert d. induction Hs as [h|h h1 h' H1 Hs IH]; intros d Hl Hk Hc Ho.
  { by exists d. }
  destruct (heap_step_keeps _ _ _ _ _ _ H1 Hl Hk Hc Ho) as (d1 & Hl1 & Hk1).
  by apply (IH d1).
Qed.

End Edges.

Section Tree.
Variable rt : runtime.
Implicit Types (r t : gmap string value) (st : state) (out runs : list (gmap string value)).

(** On a valid trace [transform_runs] returns a tree in creation order,
    made of records that can be uploaded. *)
Lemma valid_transform_tree runs st :
  valid_trace runs → payload_ok rt (mem st) runs →
  ∃ out st' tid root,
    transform_runs rt runs st = (Ok out, st') ∧ length out = length runs ∧
    parents_first out tid root ∧ Forall uploadable out ∧
    new_trace_id (self st') = Some tid ∧
    Forall2 (carried_over (target_project (self st))) (sorted_by dotted_key runs) out.
Proof.
  intros Hv Hp.
  destruct (valid_transform rt runs st Hv Hp)
    as (out & st' & i0 & r0 & E & Hlen & Hi0 & Hroot0 & Huniq & Hall).
  destruct (transform_runs_payload rt runs st (valid_records rt runs _ Hv Hp))
    as (out' & st'' & E' & Hpay).
  rewrite E in E'. injection E' as <- <-.
  destruct (transform_runs_spec rt runs st (valid_records rt runs _ Hv Hp))
    as (out' & st'' & E' & Hrw).
  rewrite E in E'. injection E' as <- <-.
  assert (∀ j t, out !! j = Some t → ∃ r, sorted_by dotted_key runs !! j = Some r) as Hsrc.
  { intros j t Hj. apply lookup_lt_is_Some. rewrite length_sorted_by, <- Hlen.
    by eapply lookup_lt_Some. }
  set (new_id j := UUID.str (uuid4_draw rt (entropy st + j))) in *.
  exists out, st', (new_id i0), i0. split_and!; try done.
  - split_and!.
    + intros t [j Hj]%list_elem_of_lookup_1. destruct (Hsrc j t Hj) as [r Hr].
      destruct (Hall j r Hr) as (t' & stj & Ht' & _ & Htr & _).
      assert (t' = t) as -> by congruence. exact Htr.
    + destruct (Hall i0 r0 Hi0) as (t0 & stj & Ht0 & Hid0 & _ & Hr0 & _).
      destruct (Hr0 Hroot0) as [? _]. by exists t0.
    + intros j t Hj Hne. destruct (Hsrc j t Hj) as [r Hr].
      destruct (Hall j r Hr) as (t' & stj & Ht' & _ & _ & _ & Hchild).
      assert (t' = t) as -> by congruence.
      destruct (is_root r) eqn:Hroot; [by destruct Hne; eapply Huniq|].
      destruct (vt_parents _ Hv r) as [Hr'|(p & Hp' & Hpar)].
      { by eapply (elem_of_sorted_by dotted_key), list_elem_of_lookup_2. }
      { congruence. }
      apply (elem_of_sorted_by dotted_key), list_elem_of_lookup_1 in Hp' as [i Hi].
      destruct (Hchild i p Hi Hpar) as (Hij & Hsome & _).
      destruct (Hall i p Hi) as (tp & sti & Htp & Hidp & _).
      by exists i, tp, (new_id i).
  - apply Forall_lookup. intros j t Hj. destruct (Hsrc j t Hj) as [r Hr].
    destruct (Hall j r Hr) as (t' & stj & Ht' & Hid & Htr & _).
    assert (t' = t) as -> by congruence.
    destruct (Forall2_lookup_l _ _ _ _ _ Hpay Hr) as (t' & Ht'' & Hco).
    assert (t' = t) as -> by congruence.
    unfold uploadable, required_keys.
    repeat (apply Forall_cons_2; [|]); [..|apply Forall_nil_2].
    + rewrite (co_name _ _ _ Hco). eauto.
    + rewrite (co_run_type _ _ _ Hco). eauto.
    + rewrite Htr. eauto.
    + rewrite Hid. eauto.
  - destruct (rewrites_frame _ _ _ _ _ Hrw) as (_ & -> & _). simpl.
    eapply assigned_trace_id_root; [done..|].
    apply Forall_lookup. intros k r' Hk. rewrite lookup_drop in Hk.
    destruct (is_root r') eqn:Hr'; [|done].
    specialize (Huniq _ _ Hk Hr'). lia.
Qed.

End Tree.

(** ** The upload *)
Section Upload.
Variable rt : runtime.
Variable sv : services.
Implicit Types (w : world) (u : TraceUploader) (r kw : gmap string value)
  (runs : list (gmap string value)).

Lemma try_except_Done {A} (c : IO A) (h : error → IO A) w a w' :
  c w = (Done a, w') → try_except c h w = (Done a, w').
Proof. unfold try_except. by intros ->. Qed.

Lemma try_except_Fail {A} (c : IO A) (h : error → IO A) w e w' :
  c w = (Fail e, w') → try_except c h w = h e w'.
Proof. unfold try_except. by intros ->. Qed.

Lemma lift_getitem k r v w :
  r !! k = Some v → lift (getitem k r) w = (Done v, w).
Proof. intros H. destruct w. unfold lift, getitem. by rewrite H. Qed.

Lemma lift_getitem_missing k r w :
  r !! k = None → lift (getitem k r) w = (Fail (Python (KeyError k)), w).
Proof. intros H. destruct w. unfold lift, getitem. by rewrite H. Qed.

Lemma lift_str_ v w : lift (str_ rt v) w = (Done (py_str rt (mem (py w)) v), w).
Proof. by destruct w. Qed.

Lemma uploadable_keys r :
  uploadable r ↔
    is_Some (r !! "name") ∧ is_Some (r !! "run_type") ∧
    is_Some (r !! "trace_id") ∧ is_Some (r !! "id").
Proof.
  unfold uploadable, required_keys. rewrite !Forall_cons, Forall_nil. tauto.
Qed.

(** The keyword arguments of the call for an uploadable run. *)
Lemma create_run_from_spec c r project w :
  uploadable r →
  ∃ kw st, sent project r kw ∧
    create_run_from sv c r project w = create_run sv c kw (mkWorld st (trail w)) ∧
    self st = self (py w) ∧ clock st = clock (py w) ∧ entropy st = entropy (py w) ∧
    rtc heap_step (mem (py w)) (mem st).
Proof.
  intros ([name Hname] & [ty Hty] & [tid Htid] & [id Hid])%uploadable_keys.
  destruct (get_or_new_dict_spec "inputs" r (py w)) as (vi & st & Ei & Hs & Hc & He & Hh & Hvi).
  eexists _, st. split; [|split; [|done]].
  2: { unfold create_run_from.
       erewrite io_bind_Done by by apply lift_getitem.
       erewrite io_bind_Done by by apply lift_getitem.
       erewrite io_bind_Done by (apply lift_Ok; exact Ei).
       erewrite io_bind_Done by by apply lift_getitem.
       erewrite io_bind_Done by by apply lift_getitem.
       reflexivity. }
  split.
  - intros k Hk. unfold required_keys in Hk. in_list Hk;
      by rewrite !lookup_insert_ne, lookup_insert_eq by done.
  - intros k Hk. unfold optional_keys in Hk. in_list Hk;
      by rewrite ?lookup_insert_ne, lookup_insert_eq by done.
  - rewrite !lookup_insert_ne, lookup_insert_eq by done.
    destruct Hvi as [->|(-> & l & -> & _)]; eauto.
  - by rewrite !lookup_insert_ne, lookup_insert_eq by done.
  - intros k Hr Ho Hi Hp. unfold required_keys in Hr. unfold optional_keys in Ho.
    repeat (apply not_elem_of_cons in Hr as [? Hr]).
    repeat (apply not_elem_of_cons in Ho as [? Ho]).
    by rewrite !lookup_insert_ne, lookup_empty by done.
Qed.

(** One iteration of the loop, on an uploadable run: the call is made; if
    the client accepts it the loop goes on, and if the client raises, one
    line goes to the error stream and the exception is raised again. *)
Lemma upload_run_spec u project total i r w :
  uploadable r →
  ∃ kw w0 res w',
    sent project r kw ∧
    upload_run rt sv u project total i r w = (res, w') ∧
    created (trail w') = (created (trail w) ++ [(client u, kw)])%list ∧
    self (py w') = self (py w) ∧ clock (py w') = clock (py w) ∧
    entropy (py w') = entropy (py w) ∧ rtc heap_step (mem (py w)) (mem (py w')) ∧
    match client_create_run sv w0 (client u) kw with
    | None => res = Done tt ∧ stderr (trail w') = stderr (trail w)
    | Some e => res = Fail e ∧ length (stderr (trail w')) = S (length (stderr (trail w)))
    end.
Proof.
  intros Hr.
  destruct (create_run_from_spec (client u) r project w Hr)
    as (kw & st & Hsent & E & Hs & Hc & He & Hh).
  pose proof Hr as (_ & _ & _ & [id Hid])%uploadable_keys.
  set (w0 := mkWorld st (trail w)).
  set (w1 := mkWorld st (trail w ++ [CreateRun (client u) kw])).
  exists kw, w0.
  destruct (client_create_run sv w0 (client u) kw) as [e|] eqn:Hc0.
  - eexists (Fail e), _. split; [done|]. split.
    { unfold upload_run. erewrite try_except_Fail.
      2:{ erewrite io_bind_Fail; [reflexivity|]. rewrite E. unfold create_run.
          fold w0. rewrite Hc0. reflexivity. }
      erewrite io_bind_Done by by apply lift_getitem.
      erewrite io_bind_Done by apply lift_str_.
      erewrite io_bind_Done by reflexivity. reflexivity. }
    cbn [trail py]. rewrite !created_app, !stderr_app, !length_app. simpl.
    rewrite app_nil_r. split_and!; try done. by rewrite Nat.add_0_r, Nat.add_1_r.
  - destruct (i mod 10 =? 0)%nat eqn:Hi.
    + eexists (Done tt), _. split; [done|]. split.
      { unfold upload_run. erewrite try_except_Done; [reflexivity|].
        erewrite io_bind_Done.
        2:{ rewrite E. unfold create_run. fold w0. rewrite Hc0. reflexivity. }
        rewrite Hi. reflexivity. }
      cbn [trail py]. rewrite !created_app, !stderr_app. simpl.
      by rewrite !app_nil_r.
    + eexists (Done tt), _. split; [done|]. split.
      { unfold upload_run. erewrite try_except_Done; [reflexivity|].
        erewrite io_bind_Done.
        2:{ rewrite E. unfold create_run. fold w0. rewrite Hc0. reflexivity. }
        rewrite Hi. reflexivity. }
      cbn [trail py]. rewrite !created_app, !stderr_app. simpl.
      by rewrite !app_nil_r.
Qed.

(** The loop: [create_run] is called for the runs in their order, up to
    and including the first call that raises. *)
Lemma upload_each_spec u project total i runs w :
  Forall uploadable runs →
  ∃ calls res w',
    upload_each rt sv u project total i runs w = (res, w') ∧
    created (trail w') = (created (trail w) ++ ((client u ,.) <$> calls))%list ∧
    Forall2 (sent project) (take (length calls) runs) calls ∧
    self (py w') = self (py w) ∧ clock (py w') = clock (py w) ∧
    entropy (py w') = entropy (py w) ∧ rtc heap_step (mem (py w)) (mem (py w')) ∧
    ((res = Done tt ∧ length calls = length runs ∧
      stderr (trail w') = stderr (trail w)) ∨
     (∃ e w0 kw, res = Fail e ∧ last calls = Some kw ∧
        client_create_run sv w0 (client u) kw = Some e ∧
        length (stderr (trail w')) = S (length (stderr (trail w))))).
Proof.
  intros Hruns. revert i w. induction Hruns as [|r runs Hr _ IH]; intros i w.
  { exists [], (Done tt), w. simpl. rewrite app_nil_r.
    split_and!; try done. by left. }
  destruct (upload_run_spec u project total i r w Hr)
    as (kw & w0 & res & w1 & Hsent & E & Hcr & Hs & Hc & He & Hh & Hres).
  destruct (client_create_run sv w0 (client u) kw) as [e|] eqn:Hc0.
  - destruct Hres as [-> Herr].
    exists [kw], (Fail e), w1. split.
    { cbn [upload_each]. by erewrite io_bind_Fail by exact E. }
    split_and!; try done.
    + simpl. by constructor.
    + right. by exists e, w0, kw.
  - destruct Hres as [-> Herr].
    destruct (IH (S i) w1) as (calls & res & w' & E' & Hcr' & Hsent' & Hs' & Hc' & He' & Hh' & Hres').
    exists (kw :: calls), res, w'. split.
    { cbn [upload_each]. by erewrite io_bind_Done by exact E. }
    split_and!; try congruence.
    + rewrite Hcr', Hcr, <- app_assoc. done.
    + simpl. by constructor.
    + by etrans.
    + destruct Hres' as [(-> & Hlen & Herr')|(e & w2 & kw' & -> & Hlast & Hrej & Herr')].
      * left. split_and!; [done|simpl; lia|congruence].
      * right. exists e, w2, kw'. split_and!; [done| |done|congruence].
        destruct calls; [done|]. done.
Qed.

End Upload.

Section Upload2.
Variable rt : runtime.
Variable sv : services.
Implicit Types (w : world) (u : TraceUploader) (r kw : gmap string value)
  (runs : list (gmap string value)).

Lemma upload_each_app u project total i runs1 runs2 w :
  upload_each rt sv u project total i (runs1 ++ runs2) w =
  (upload_each rt sv u project total i runs1;;
   upload_each rt sv u project total (i + length runs1) runs2) w.
Proof.
  revert i w. induction runs1 as [|r runs1 IH]; intros i w.
  { simpl. by rewrite Nat.add_0_r. }
  cbn [app upload_each length].
  unfold mbind, IO_bind.
  destruct (upload_run rt sv u project total i r w) as [[[]|e|n|] w1]; try done.
  rewrite IH. unfold mbind, IO_bind.
  by replace (S i + length runs1)%nat with (i + S (length runs1))%nat by lia.
Qed.

(** With a client that accepts every call, the loop makes one call per run
    and ends normally. *)
Lemma upload_each_accepted u project total i runs w :
  Forall uploadable runs →
  (∀ w0 c kw, client_create_run sv w0 c kw = None) →
  ∃ calls w',
    upload_each rt sv u project total i runs w = (Done tt, w') ∧
    created (trail w') = (created (trail w) ++ ((client u ,.) <$> calls))%list ∧
    Forall2 (sent project) runs calls ∧
    stderr (trail w') = stderr (trail w) ∧
    self (py w') = self (py w) ∧ clock (py w') = clock (py w) ∧
    entropy (py w') = entropy (py w) ∧ rtc heap_step (mem (py w)) (mem (py w')).
Proof.
  intros Hruns Hacc.
  destruct (upload_each_spec rt sv u project total i runs w Hruns)
    as (calls & res & w' & E & Hcr & Hsent & Hs & Hc & He & Hh & Hres).
  destruct Hres as [(-> & Hlen & Herr)|(e & w0 & kw & _ & _ & Hrej & _)].
  - exists calls, w'. split_and!; try done.
    by rewrite Hlen, firstn_all in Hsent.
  - by rewrite Hacc in Hrej.
Qed.

(** A run that lacks a required key: [KeyError], and no call. *)
Lemma create_run_from_missing c r project w :
  ¬ uploadable r →
  ∃ key st, create_run_from sv c r project w
              = (Fail (Python (KeyError key)), mkWorld st (trail w)) ∧
    key ∈ required_keys ∧ r !! key = None ∧
    self st = self (py w) ∧ clock st = clock (py w) ∧ entropy st = entropy (py w) ∧
    rtc heap_step (mem (py w)) (mem st).
Proof.
  intros Hno. unfold create_run_from.
  destruct (r !! "name") as [name|] eqn:Hname.
  2:{ exists "name", (py w). split.
      { erewrite io_bind_Fail by by apply lift_getitem_missing. by destruct w. }
      split_and!; try done. unfold required_keys. apply list_elem_of_here. }
  erewrite io_bind_Done by by apply lift_getitem.
  destruct (r !! "run_type") as [ty|] eqn:Hty.
  2:{ exists "run_type", (py w). split.
      { erewrite io_bind_Fail by by apply lift_getitem_missing. by destruct w. }
      split_and!; try done. unfold required_keys.
      apply list_elem_of_further, list_elem_of_here. }
  erewrite io_bind_Done by by apply lift_getitem.
  destruct (get_or_new_dict_spec "inputs" r (py w)) as (vi & st & Ei & Hs & Hc & He & Hh & _).
  erewrite io_bind_Done by (apply lift_Ok; exact Ei).
  destruct (r !! "trace_id") as [tid|] eqn:Htid.
  2:{ exists "trace_id", st. split.
      { by erewrite io_bind_Fail by by apply lift_getitem_missing. }
      split_and!; try done. unfold required_keys.
      do 2 apply list_elem_of_further. apply list_elem_of_here. }
  erewrite io_bind_Done by by apply lift_getitem.
  destruct (r !! "id") as [id|] eqn:Hid.
  2:{ exists "id", st. split.
      { by erewrite io_bind_Fail by by apply lift_getitem_missing. }
      split_and!; try done. unfold required_keys.
      do 3 apply list_elem_of_further. apply list_elem_of_here. }
  exfalso. apply Hno, uploadable_keys. eauto.
Qed.

Lemma upload_run_missing u project total i r w :
  ¬ uploadable r →
  ∃ key w',
    upload_run rt sv u project total i r w = (Fail (Python (KeyError key)), w') ∧
    key ∈ required_keys ∧ r !! key = None ∧
    (r !! "id" = None → key = "id" ∧ stderr (trail w') = stderr (trail w)) ∧
    (is_Some (r !! "id") → length (stderr (trail w')) = S (length (stderr (trail w)))) ∧
    created (trail w') = created (trail w).
Proof.
  intros Hno.
  destruct (create_run_from_missing (client u) r project w Hno)
    as (key & st & E & Hkey & Hnone & _).
  unfold upload_run. erewrite try_except_Fail by by erewrite io_bind_Fail by exact E.
  destruct (r !! "id") as [id|] eqn:Hid.
  - eexists key, _. split.
    { erewrite io_bind_Done by by apply lift_getitem.
      erewrite io_bind_Done by apply lift_str_.
      erewrite io_bind_Done by reflexivity. reflexivity. }
    cbn [trail]. rewrite created_app, stderr_app, length_app. simpl.
    rewrite app_nil_r. split_and!; try done. intros _. apply Nat.add_1_r.
  - exists "id", (mkWorld st (trail w)). split.
    { by erewrite io_bind_Fail by by apply lift_getitem_missing. }
    split_and!; try done.
    all: try by intros [? ?].
    unfold required_keys. do 3 apply list_elem_of_further. apply list_elem_of_here.
Qed.

End Upload2.

(** ** What a computation may do to the outside *)
Section Behaves.
Variable rt : runtime.
Variable sv : services.
Variable ok : event → Prop.

Lemma behaves_ret {A} (a : A) : behaves ok (mret a : IO A).
Proof.
  intros w res w' [= <- <-]. split; [done|]. exists []. by rewrite app_nil_r.
Qed.

Lemma behaves_throw {A} e : behaves ok (throw e : IO A).
Proof.
  intros w res w' [= <- <-]. split; [done|]. exists []. by rewrite app_nil_r.
Qed.

Lemma behaves_pending {A} : behaves ok (pending : IO A).
Proof.
  intros w res w' [= <- <-]. split; [done|]. exists []. by rewrite app_nil_r.
Qed.

Lemma behaves_lift {A} (c : M A) : behaves ok (lift c).
Proof.
  intros w res w'. unfold lift.
  destruct (c (py w)) as [[a|e] st]; intros [= <- <-];
    (split; [done|]; exists []; by rewrite app_nil_r).
Qed.

Lemma behaves_emit ev : ok ev → behaves ok (emit ev).
Proof.
  intros Hev w res w' [= <- <-]. split; [done|]. exists [ev].
  split; [done|]. by constructor.
Qed.

Lemma behaves_bind {A B} (c : IO A) (k : A → IO B) :
  behaves ok c → (∀ a, behaves ok (k a)) → behaves ok (c ≫= k).
Proof.
  intros Hc Hk w res w' E. unfold mbind, IO_bind in E.
  destruct (c w) as [[a|e|code|] w1] eqn:E1;
    destruct (Hc _ _ _ E1) as (Hne & evs1 & T1 & F1).
  - destruct (Hk a _ _ _ E) as (Hne' & evs2 & T2 & F2).
    split; [done|]. exists (evs1 ++ evs2)%list.
    split; [by rewrite T2, T1, app_assoc|by apply Forall_app].
  - injection E as <- <-. split; [done|]. by exists evs1.
  - by destruct (Hne code).
  - injection E as <- <-. split; [done|]. by exists evs1.
Qed.

Lemma behaves_try {A} (c : IO A) (h : error → IO A) :
  behaves ok c → (∀ e, behaves ok (h e)) → behaves ok (try_except c h).
Proof.
  intros Hc Hh w res w' E. unfold try_except in E.
  destruct (c w) as [[a|e|code|] w1] eqn:E1;
    destruct (Hc _ _ _ E1) as (Hne & evs1 & T1 & F1).
  - injection E as <- <-. split; [done|]. by exists evs1.
  - destruct (Hh e _ _ _ E) as (Hne' & evs2 & T2 & F2).
    split; [done|]. exists (evs1 ++ evs2)%list.
    split; [by rewrite T2, T1, app_assoc|by apply Forall_app].
  - by destruct (Hne code).
  - injection E as <- <-. split; [done|]. by exists evs1.
Qed.

Lemma behaves_raise_for_status r : behaves ok (raise_for_status r).
Proof.
  unfold raise_for_status.
  destruct (_ && _); [apply behaves_throw|apply behaves_ret].
Qed.

Lemma behaves_response_json r : behaves ok (response_json r).
Proof.
  unfold response_json. destruct (json_body r); [apply behaves_lift|apply behaves_throw].
Qed.

Lemma behaves_object_get o k dflt : behaves ok (object_get o k dflt).
Proof. destruct o; first [apply behaves_lift|apply behaves_throw]. Qed.

Lemma behaves_items_of batch : behaves ok (items_of sv batch).
Proof.
  destruct batch; first [apply behaves_lift|apply behaves_throw|apply behaves_ret].
Qed.

Lemma behaves_requests_send r : ok (Request r) → behaves ok (requests_send sv r).
Proof.
  intros Hr w res w' E. unfold requests_send in E.
  destruct (http sv w r); injection E as <- <-;
    (split; [done|]; exists [Request r]; split; [done|by constructor]).
Qed.

Lemma behaves_get_root_run d :
  ok (Request (GET (base_url d +:+ "/public/" +:+ share_token d +:+ "/run") [])) →
  behaves ok (get_root_run sv d).
Proof.
  intros Hr. unfold get_root_run.
  apply behaves_bind; [by apply behaves_requests_send|intros r].
  apply behaves_bind; [apply behaves_raise_for_status|intros _].
  apply behaves_response_json.
Qed.

Lemma behaves_get_all_runs_loop n d acc offset :
  (∀ offset, ok (Request (page_request d offset))) →
  behaves ok (get_all_runs_loop sv n d acc offset).
Proof.
  intros Hr. revert acc offset. induction n as [|n IH]; intros acc offset.
  { apply behaves_pending. }
  cbn [get_all_runs_loop].
  apply behaves_bind; [apply behaves_requests_send, Hr|intros r].
  apply behaves_bind; [apply behaves_raise_for_status|intros _].
  apply behaves_bind; [apply behaves_response_json|intros data].
  apply behaves_bind; [apply behaves_object_get|intros batch].
  apply behaves_bind; [apply behaves_lift|intros [|]]; [apply behaves_ret|].
  apply behaves_bind; [apply behaves_items_of|intros items].
  destruct (_ <? _)%nat; [apply behaves_ret|apply IH].
Qed.

Lemma behaves_records_of runs : behaves ok (records_of runs).
Proof.
  induction runs as [|v runs IH]; [apply behaves_ret|].
  destruct v; try apply behaves_throw. cbn [records_of].
  apply behaves_bind; [apply behaves_lift|intros r].
  apply behaves_bind; [apply IH|intros rs]. apply behaves_ret.
Qed.

Lemma behaves_dumps r : behaves ok (dumps sv r).
Proof.
  intros w res w' E. unfold dumps in E.
  destruct (json_dumps sv (mem (py w)) r); injection E as <- <-;
    (split; [done|]; exists []; by rewrite app_nil_r).
Qed.

Hypothesis ok_out : ∀ s, ok (Stdout s).
Hypothesis ok_err : ∀ s, ok (Stderr s).

Lemma behaves_print s : behaves ok (print s).
Proof. apply behaves_emit, ok_out. Qed.

Lemma behaves_eprint s : behaves ok (eprint s).
Proof. apply behaves_emit, ok_err. Qed.

Lemma behaves_create_run_from c r project :
  (∀ kw, kw !! "project_name" = Some (VStr project) → ok (CreateRun c kw)) →
  behaves ok (create_run_from sv c r project).
Proof.
  intros Hc. unfold create_run_from.
  do 5 (apply behaves_bind; [apply behaves_lift|intros ?]).
  intros w res w' E. unfold create_run in E.
  match type of E with context [CreateRun c ?kw] => set (kwargs := kw) in * end.
  assert (ok (CreateRun c kwargs)) as Hok.
  { apply Hc. unfold kwargs. by rewrite !lookup_insert_ne, lookup_insert_eq by done. }
  destruct (client_create_run sv w c kwargs); injection E as <- <-;
    (split; [done|]; exists [CreateRun c kwargs]; split; [done|by constructor]).
Qed.

Lemma behaves_upload_run u project total i r :
  (∀ kw, kw !! "project_name" = Some (VStr project) → ok (CreateRun (client u) kw)) →
  behaves ok (upload_run rt sv u project total i r).
Proof.
  intros Hc. unfold upload_run. apply behaves_try.
  - apply behaves_bind; [by apply behaves_create_run_from|intros _].
    destruct (_ =? _)%nat; [apply behaves_print|apply behaves_ret].
  - intros e.
    do 2 (apply behaves_bind; [apply behaves_lift|intros ?]).
    apply behaves_bind; [apply behaves_eprint|intros _]. apply behaves_throw.
Qed.

Lemma behaves_upload_each u project total i runs :
  (∀ kw, kw !! "project_name" = Some (VStr project) → ok (CreateRun (client u) kw)) →
  behaves ok (upload_each rt sv u project total i runs).
Proof.
  intros Hc. revert i. induction runs as [|r runs IH]; intros i; [apply behaves_ret|].
  cbn [upload_each]. apply behaves_bind; [by apply behaves_upload_run|intros _]. apply IH.
Qed.

Lemma behaves_upload_runs u runs project :
  (∀ kw, kw !! "project_name" = Some (VStr project) → ok (CreateRun (client u) kw)) →
  behaves ok (upload_runs rt sv u runs project).
Proof.
  intros Hc. unfold upload_runs.
  apply behaves_bind; [apply behaves_print|intros _].
  apply behaves_bind; [by apply behaves_upload_each|intros _].
  apply behaves_print.
Qed.

Lemma behaves_Client__init__ key url :
  ok (NewClient (mkClient key url)) → behaves ok (Client__init__ sv key url).
Proof.
  intros Hc w res w' E. unfold Client__init__ in E.
  destruct (client_init sv w _); injection E as <- <-;
    (split; [done|]; eexists [_]; split; [done|by constructor]).
Qed.

(** *** The steps of [main] *)

Lemma behaves_download_trace n a endpoint :
  (∀ r, request_url r = rstrip "/"%char endpoint +:+ "/public/" +:+ args.share_token a +:+ "/run" ∨
        request_url r = rstrip "/"%char endpoint +:+ "/public/" +:+ args.share_token a +:+ "/runs/query" →
        ok (Request r)) →
  behaves ok (download_trace rt sv n a endpoint).
Proof.
  intros Hr. unfold download_trace.
  do 3 (apply behaves_bind; [apply behaves_print|intros _]).
  apply behaves_bind; [apply behaves_get_root_run, Hr; by left|intros root].
  apply behaves_bind; [apply behaves_object_get|intros name].
  apply behaves_bind; [apply behaves_lift|intros name_str].
  apply behaves_bind; [apply behaves_object_get|intros id].
  apply behaves_bind; [apply behaves_lift|intros id_str].
  do 2 (apply behaves_bind; [apply behaves_print|intros _]).
  apply behaves_bind.
  { apply behaves_get_all_runs_loop. intros offset. apply Hr. by right. }
  intros all_runs.
  apply behaves_bind; [apply behaves_print|intros _]. apply behaves_ret.
Qed.

Lemma behaves_transform_trace a all_runs : behaves ok (transform_trace rt a all_runs).
Proof.
  unfold transform_trace.
  apply behaves_bind; [apply behaves_print|intros _].
  apply behaves_bind; [apply behaves_lift|intros _].
  apply behaves_bind; [apply behaves_records_of|intros records].
  apply behaves_bind; [apply behaves_lift|intros transformed].
  apply behaves_bind; [apply behaves_print|intros _].
  apply behaves_bind; [apply behaves_lift|intros tid].
  apply behaves_bind; [apply behaves_print|intros _]. apply behaves_ret.
Qed.

Lemma behaves_dry_run_report a transformed : behaves ok (dry_run_report sv a transformed).
Proof.
  unfold dry_run_report.
  do 3 (apply behaves_bind; [apply behaves_print|intros _]).
  apply behaves_bind; [apply behaves_lift|intros tid].
  do 2 (apply behaves_bind; [apply behaves_print|intros _]).
  destruct transformed; [apply behaves_throw|].
  apply behaves_bind; [apply behaves_dumps|intros s]. apply behaves_print.
Qed.

Lemma behaves_upload_trace a endpoint key all_runs transformed :
  ok (NewClient (mkClient key endpoint)) →
  (∀ kw, kw !! "project_name" = Some (VStr (args.project a)) →
         ok (CreateRun (mkClient key endpoint) kw)) →
  behaves ok (upload_trace rt sv a endpoint key all_runs transformed).
Proof.
  intros Hn Hc. unfold upload_trace.
  apply behaves_bind; [apply behaves_print|intros _].
  intros w res w' E. unfold mbind at 1, IO_bind in E.
  destruct (Client__init__ sv key endpoint w) as [[c|e|code|] w1] eqn:E1;
    destruct (behaves_Client__init__ key endpoint Hn _ _ _ E1) as (Hne & evs1 & T1 & F1).
  2,4: injection E as <- <-; split; [done|]; by exists evs1.
  2: by destruct (Hne code).
  assert (c = mkClient key endpoint) as ->.
  { unfold Client__init__ in E1. destruct (client_init sv w _); by simplify_eq. }
  assert (behaves ok
    (upload_runs rt sv (mkTraceUploader (mkClient key endpoint)) transformed (args.project a);;
     print (nl +:+ "✓ Successfully copied trace to project '" +:+ args.project a +:+ "'!");;
     print ("  Original runs: " +:+ str_len all_runs);;
     trace_id ← lift (gets (λ st, new_trace_id (self st)));
     print ("  New trace ID: " +:+ str_opt trace_id))) as Hrest.
  { apply behaves_bind; [by apply behaves_upload_runs|intros _].
    do 2 (apply behaves_bind; [apply behaves_print|intros _]).
    apply behaves_bind; [apply behaves_lift|intros tid]. apply behaves_print. }
  destruct (Hrest _ _ _ E) as (Hne' & evs2 & T2 & F2).
  split; [done|]. exists (evs1 ++ evs2)%list.
  split; [by rewrite T2, T1, app_assoc|by apply Forall_app].
Qed.

Lemma behaves_copy_trace n a endpoint key :
  (∀ r, request_url r = rstrip "/"%char endpoint +:+ "/public/" +:+ args.share_token a +:+ "/run" ∨
        request_url r = rstrip "/"%char endpoint +:+ "/public/" +:+ args.share_token a +:+ "/runs/query" →
        ok (Request r)) →
  (args.dry_run a = false →
     ok (NewClient (mkClient key endpoint)) ∧
     ∀ kw, kw !! "project_name" = Some (VStr (args.project a)) →
           ok (CreateRun (mkClient key endpoint) kw)) →
  behaves ok (copy_trace rt sv n a endpoint key).
Proof.
  intros Hr Hc. unfold copy_trace.
  apply behaves_bind; [by apply behaves_download_trace|intros all_runs].
  apply behaves_bind; [apply behaves_transform_trace|intros transformed].
  destruct (args.dry_run a).
  - apply behaves_dry_run_report.
  - destruct Hc as [? ?]; [done|]. by apply behaves_upload_trace.
Qed.

Hypothesis ok_traceback : ∀ e, ok (Traceback e).

(** [main] ends normally, with [sys.exit(1)], or is still downloading, or
    its handler for an [HTTPError] without response has failed; what it does
    to the outside is [ok]. *)
Lemma main_behaves n a :
  (∀ r, request_url r = rstrip "/"%char (endpoint_of sv a) +:+ "/public/" +:+ args.share_token a +:+ "/run" ∨
        request_url r = rstrip "/"%char (endpoint_of sv a) +:+ "/public/" +:+ args.share_token a +:+ "/runs/query" →
        ok (Request r)) →
  (args.dry_run a = false →
     ok (NewClient (mkClient (default EmptyString (api_key_of sv a)) (endpoint_of sv a))) ∧
     ∀ kw, kw !! "project_name" = Some (VStr (args.project a)) →
           ok (CreateRun (mkClient (default EmptyString (api_key_of sv a)) (endpoint_of sv a)) kw)) →
  ∀ w res w', main rt sv n a w = (res, w') →
    (res = Done tt ∨ res = Exit 1 ∨ res = Pending ∨
     (res = Fail (Python AttributeError) ∧
      ∃ t, trail w' =
             (t ++ [Stderr (nl +:+ "HTTP Error: " +:+ str_error sv (HTTPError None))])%list)) ∧
    ∃ evs, trail w' = (trail w ++ evs)%list ∧ Forall ok evs.
Proof.
  intros Hr Hc w res w' E. unfold main in E.
  destruct (truthy_opt (api_key_of sv a)).
  2:{ injection E as <- <-. split; [auto|]. eexists [_]. split; [done|].
      constructor; [apply ok_err|constructor]. }
  cbn [negb] in E. unfold try_except in E.
  destruct (copy_trace rt sv n a _ _ w) as [[[]|e|code|] w1] eqn:E1;
    destruct (behaves_copy_trace _ _ _ _ Hr Hc _ _ _ E1) as (Hne & evs1 & T1 & F1).
  - injection E as <- <-. split; [auto|]. by exists evs1.
  - destruct e as [e|[r|]| | |name]; injection E as <- <-.
    3:{ split.
        { do 3 right. split; [done|]. eexists. cbn [trail]. reflexivity. }
        eexists (evs1 ++ [_])%list. cbn [trail]. rewrite T1, <- !app_assoc.
        split; [done|]. apply Forall_app. split; [done|]. repeat constructor; auto. }
    all: (split; [auto|]);
      eexists (evs1 ++ [_; _])%list; cbn [trail]; rewrite T1, <- !app_assoc;
      (split; [done|]); apply Forall_app; (split; [done|]);
      repeat constructor; auto.
  - by destruct (Hne code).
  - injection E as <- <-. split; [auto|]. by exists evs1.
Qed.

End Behaves.

(** ** The three steps of [main] when all goes well *)
Section Steps.
Variable rt : runtime.
Variable sv : services.
Implicit Types (w : world) (r kw : gmap string value) (runs out : list (gmap string value)).

Lemma quiet_events evs : Forall quiet evs → created evs = [] ∧ stderr evs = [].
Proof.
  induction 1 as [|ev evs Hev _ [IH1 IH2]]; [done|].
  destruct ev; try done; simpl; by rewrite ?IH1, ?IH2.
Qed.

Lemma quiet_trail w w' evs :
  trail w' = (trail w ++ evs)%list → Forall quiet evs →
  created (trail w') = created (trail w) ∧ stderr (trail w') = stderr (trail w).
Proof.
  intros -> [H1 H2]%quiet_events.
  by rewrite created_app, stderr_app, H1, H2, !app_nil_r.
Qed.

Lemma print_spec s w : print s w = (Done tt, mkWorld (py w) (trail w ++ [Stdout s])).
Proof. reflexivity. Qed.

Lemma get_root_run_spec d w :
  serves_root sv d →
  ∃ l st, get_root_run sv d w = (Done (VDict l), mkWorld st
              (trail w ++ [Request (GET (base_url d +:+ "/public/" +:+ share_token d +:+ "/run") [])])) ∧
    self st = self (py w) ∧ clock st = clock (py w) ∧ entropy st = entropy (py w) ∧
    mem (py w) ⊆ mem st.
Proof.
  intros Hroot. destruct (Hroot w) as (r & kvs & Hhttp & Hst & Hbody).
  set (w0 := mkWorld (py w) (trail w ++ [Request (GET (base_url d +:+ "/public/" +:+ share_token d +:+ "/run") [])])).
  destruct (response_json_spec r (JObj kvs) w0 Hbody) as (v & st & E & Hs & Hc & He & Hh & Hrep).
  apply represents_obj in Hrep as (l & dd & -> & _).
  exists l, st. split; [|done].
  unfold get_root_run.
  erewrite io_bind_Done; [|unfold requests_send; by rewrite Hhttp].
  fold w0. erewrite io_bind_Done by by apply raise_for_status_ok.
  exact E.
Qed.

(** Step 1 on a server that holds the runs [all]. *)
Lemma download_trace_spec n a endpoint (all : list json) w :
  let d := PublicTraceDownloader__init__ (args.share_token a) endpoint in
  serves_root sv d → serves_pages sv d all (S (length all)) →
  (length all / limit < n)%nat →
  ∃ vs w', download_trace rt sv n a endpoint w = (Done vs, w') ∧
    Forall2 (represents (mem (py w'))) all vs ∧
    created (trail w') = created (trail w) ∧ stderr (trail w') = stderr (trail w) ∧
    clock (py w') = clock (py w) ∧ entropy (py w') = entropy (py w) ∧
    mem (py w) ⊆ mem (py w').
Proof.
  intros d Hroot Hpages Hn.
  set (w1 := mkWorld (py w) (((trail w ++ [Stdout ("Fetching public trace with token: " +:+ args.share_token a)])
               ++ [Stdout ("Using endpoint: " +:+ endpoint)]) ++ [Stdout "  Downloading root run..."])).
  destruct (get_root_run_spec d w1 Hroot) as (l & st2 & E2 & Hs2 & Hc2 & He2 & Hh2).
  match type of E2 with _ = (_, ?x) => set (w2 := x) in * end.
  set (name := get "name" VNone (deref (mem st2) l)).
  set (id := get "id" VNone (deref (mem st2) l)).
  set (w3 := mkWorld st2 ((trail w2
      ++ [Stdout ("  ✓ Root run: " +:+ py_str rt (mem st2) name +:+ " (ID: "
                    +:+ py_str rt (mem st2) id +:+ ")")])
      ++ [Stdout "  Downloading all runs in trace..."])).
  destruct (get_all_runs_loop_complete sv n d all [] 0 w3 Hpages)
    as (vs & w4 & E4 & Hvs & Htr4 & Hs4 & Hc4 & He4 & Hh4); [done|lia| |constructor|].
  { by rewrite Nat.sub_0_r. }
  set (w5 := mkWorld (py w4) (trail w4 ++ [Stdout ("  ✓ Found " +:+ str_len vs +:+ " runs")])).
  assert (download_trace rt sv n a endpoint w = (Done vs, w5)) as E.
  { unfold download_trace.
    do 3 (erewrite io_bind_Done by apply print_spec). fold d. fold w1.
    erewrite io_bind_Done by exact E2.
    unfold object_get. erewrite io_bind_Done by apply lift_gets. fold name.
    erewrite io_bind_Done by apply lift_str_.
    erewrite io_bind_Done by apply lift_gets. cbn [py mem]. fold id.
    erewrite io_bind_Done by apply lift_str_.
    do 2 (erewrite io_bind_Done by apply print_spec). cbn [py trail mem]. fold w3.
    unfold get_all_runs. erewrite io_bind_Done by exact E4.
    erewrite io_bind_Done by apply print_spec. reflexivity. }
  exists vs, w5. split; [done|].
  assert (behaves quiet (download_trace rt sv n a endpoint)) as Hq.
  { apply behaves_download_trace; [by intros []|done]. }
  destruct (Hq _ _ _ E) as (_ & evs & Htr & Hqu).
  destruct (quiet_trail _ _ _ Htr Hqu) as [? ?].
  split_and!; [exact Hvs|done|done| | |].
  - change (clock (py w4) = clock (py w)). rewrite Hc4. exact Hc2.
  - change (entropy (py w4) = entropy (py w)). rewrite He4. exact He2.
  - change (mem (py w) ⊆ mem (py w4)). etrans; [exact Hh2|exact Hh4].
Qed.

(** The records behind decoded JSON objects. *)
Lemma records_of_spec (all : list json) vs w :
  Forall (λ j, ∃ kvs, j = JObj kvs) all →
  Forall2 (represents (mem (py w))) all vs →
  ∃ records, records_of vs w = (Done records, w) ∧
    Forall2 (record_in (mem (py w))) all records.
Proof.
  intros Hobj Hvs. revert Hobj. induction Hvs as [|j v all vs Hv _ IH]; intros Hobj.
  { by exists []. }
  apply Forall_cons in Hobj as [[kvs ->] Hobj].
  destruct (IH Hobj) as (records & E & Hrec).
  pose proof Hv as (l & dd & -> & Hl & _)%represents_obj.
  exists (dd :: records). split.
  - cbn [records_of]. erewrite io_bind_Done by apply lift_gets.
    erewrite io_bind_Done by exact E. unfold deref. by rewrite Hl.
  - constructor; [|done]. by exists l.
Qed.

(** Step 2 on the runs of a valid trace. *)
Lemma transform_trace_spec a (all : list json) vs w :
  json_trace rt all →
  Forall2 (represents (mem (py w))) all vs →
  ∃ out tid root w',
    transform_trace rt a vs w = (Done out, w') ∧
    length out = length all ∧ parents_first out tid root ∧ Forall uploadable out ∧
    new_trace_id (self (py w')) = Some tid ∧
    created (trail w') = created (trail w) ∧ stderr (trail w') = stderr (trail w).
Proof.
  intros [Hobj Hvalid] Hvs.
  set (w1 := mkWorld (set_self (λ _, __init__ (args.project a) (negb (args.update_timestamps a))) (py w))
               (trail w ++ [Stdout (nl +:+ "Transforming runs for project '" +:+ args.project a +:+ "'...")])).
  destruct (records_of_spec all vs w1 Hobj Hvs) as (records & E1 & Hrec).
  destruct (Hvalid _ _ Hrec) as [Hv Hp].
  destruct (valid_transform_tree rt records (py w1) Hv Hp)
    as (out & st' & tid & root & E2 & Hlen & Htree & Hup & Htid & _).
  eexists out, tid, root, _. split.
  { unfold transform_trace.
    erewrite io_bind_Done by apply print_spec.
    erewrite io_bind_Done by reflexivity. fold w1.
    erewrite io_bind_Done by exact E1.
    erewrite io_bind_Done by (apply lift_Ok; exact E2).
    erewrite io_bind_Done by apply print_spec.
    erewrite io_bind_Done by apply lift_gets.
    erewrite io_bind_Done by apply print_spec. reflexivity. }
  unfold w1. cbn [py trail]. rewrite !created_app, !stderr_app. simpl. rewrite !app_nil_r.
  split_and!; try done.
  rewrite Hlen. symmetry. by eapply Forall2_length.
Qed.

Lemma upload_runs_accepted u runs project w :
  Forall uploadable runs →
  (∀ w0 c kw, client_create_run sv w0 c kw = None) →
  ∃ calls w',
    upload_runs rt sv u runs project w = (Done tt, w') ∧
    created (trail w') = (created (trail w) ++ ((client u ,.) <$> calls))%list ∧
    Forall2 (sent project) runs calls ∧
    stderr (trail w') = stderr (trail w) ∧
    self (py w') = self (py w) ∧ clock (py w') = clock (py w) ∧
    entropy (py w') = entropy (py w) ∧ rtc heap_step (mem (py w)) (mem (py w')).
Proof.
  intros Hruns Hacc.
  set (w1 := mkWorld (py w) (trail w ++ [Stdout ("Uploading " +:+ str_len runs +:+ " runs to project '"
           +:+ project +:+ "'...")])).
  destruct (upload_each_accepted rt sv u project (length runs) 1 runs w1 Hruns Hacc)
    as (calls & w2 & E & Hcr & Hsent & Herr & Hs & Hc & He & Hh).
  eexists calls, _. split.
  { unfold upload_runs. erewrite io_bind_Done by apply print_spec. fold w1.
    erewrite io_bind_Done by exact E. apply print_spec. }
  cbn [py trail]. rewrite created_app, stderr_app, Hcr, Herr. simpl.
  rewrite !app_nil_r. unfold w1. cbn [trail py]. rewrite created_app, stderr_app. simpl.
  rewrite !app_nil_r. split_and!; try done.
Qed.

(** The calls for a tree in creation order are a tree in creation order. *)
Lemma parents_first_sent project out calls tid root :
  Forall2 (sent project) out calls →
  parents_first out tid root → parents_first calls tid root.
Proof.
  intros Hsent (Htr & (t0 & Ht0 & Hid0 & Hp0) & Hpar).
  assert (∀ k, k ∈ required_keys → ∀ j t kw, out !! j = Some t → calls !! j = Some kw →
            kw !! k = t !! k) as Hreq.
  { intros k Hk j t kw Ht Hkw.
    destruct (Forall2_lookup_l _ _ _ _ _ Hsent Ht) as (kw' & Hkw' & Hs).
    assert (kw' = kw) as -> by congruence. by apply Hs. }
  assert (∀ j t kw v, out !! j = Some t → calls !! j = Some kw →
            t !! "parent_run_id" = Some v → kw !! "parent_run_id" = Some v) as Hopt.
  { intros j t kw v Ht Hkw Hv.
    destruct (Forall2_lookup_l _ _ _ _ _ Hsent Ht) as (kw' & Hkw' & Hs).
    assert (kw' = kw) as -> by congruence.
    rewrite (sent_optional _ _ _ Hs).
    - unfold get. by rewrite Hv.
    - unfold optional_keys. do 9 apply list_elem_of_further. apply list_elem_of_here. }
  assert ("trace_id" ∈ required_keys ∧ "id" ∈ required_keys) as [Ktr Kid].
  { unfold required_keys. split.
    - do 2 apply list_elem_of_further. apply list_elem_of_here.
    - do 3 apply list_elem_of_further. apply list_elem_of_here. }
  split_and!.
  - intros kw [j Hj]%list_elem_of_lookup_1.
    destruct (Forall2_lookup_r _ _ _ _ _ Hsent Hj) as (t & Ht & _).
    rewrite (Hreq _ Ktr j t kw Ht Hj). apply Htr. by eapply list_elem_of_lookup_2.
  - destruct (Forall2_lookup_l _ _ _ _ _ Hsent Ht0) as (kw0 & Hkw0 & _).
    exists kw0. split_and!; [done| |].
    + by rewrite (Hreq _ Kid root t0 kw0 Ht0 Hkw0).
    + by apply (Hopt root t0).
  - intros j kw Hj Hne.
    destruct (Forall2_lookup_r _ _ _ _ _ Hsent Hj) as (t & Ht & _).
    destruct (Hpar j t Ht Hne) as (i & tp & p & Hij & Htp & Hidp & Hpp).
    destruct (Forall2_lookup_l _ _ _ _ _ Hsent Htp) as (kwp & Hkwp & _).
    exists i, kwp, p. split_and!; [done|done| |].
    + by rewrite (Hreq _ Kid i tp kwp Htp Hkwp).
    + by apply (Hopt j t).
Qed.

End Steps.

Section Main.
Variable rt : runtime.
Variable sv : services.
Implicit Types (w : world) (r kw : gmap string value) (runs out : list (gmap string value)).

Lemma Client__init__ok key url w :
  client_init sv w (mkClient key url) = None →
  Client__init__ sv key url w
    = (Done (mkClient key url), mkWorld (py w) (trail w ++ [NewClient (mkClient key url)])).
Proof. intros H. unfold Client__init__. by rewrite H. Qed.

(** Step 3 with a client that accepts every run. *)
Lemma upload_trace_spec a endpoint key all_runs out w :
  Forall uploadable out →
  (∀ w0 c, client_init sv w0 c = None) →
  (∀ w0 c kw, client_create_run sv w0 c kw = None) →
  ∃ calls w',
    upload_trace rt sv a endpoint key all_runs out w = (Done tt, w') ∧
    created (trail w') = (created (trail w) ++ ((mkClient key endpoint ,.) <$> calls))%list ∧
    Forall2 (sent (args.project a)) out calls ∧
    stderr (trail w') = stderr (trail w).
Proof.
  intros Hup Hinit Hacc.
  set (w1 := mkWorld (py w) ((trail w ++ [Stdout (nl +:+ "Uploading to LangSmith...")])
                               ++ [NewClient (mkClient key endpoint)])).
  destruct (upload_runs_accepted rt sv (mkTraceUploader (mkClient key endpoint)) out
              (args.project a) w1 Hup Hacc)
    as (calls & w2 & E & Hcr & Hsent & Herr & _).
  eexists calls, _. split.
  { unfold upload_trace.
    erewrite io_bind_Done by apply print_spec.
    erewrite io_bind_Done by (apply Client__init__ok, Hinit). cbn [py trail]. fold w1.
    erewrite io_bind_Done by exact E.
    do 2 (erewrite io_bind_Done by apply print_spec).
    erewrite io_bind_Done by apply lift_gets. apply print_spec. }
  cbn [py trail]. rewrite !created_app, !stderr_app, Hcr, Herr. simpl.
  unfold w1. cbn [trail]. rewrite !created_app, !stderr_app. simpl.
  by rewrite !app_nil_r.
Qed.

(** [main] on a server that holds a valid trace, with a client that accepts
    every run. *)
Lemma main_copies n a (all : list json) w :
  let d := PublicTraceDownloader__init__ (args.share_token a) (endpoint_of sv a) in
  truthy_opt (api_key_of sv a) = true → args.dry_run a = false →
  serves_root sv d → serves_pages sv d all (S (length all)) → json_trace rt all →
  (∀ w0 c, client_init sv w0 c = None) →
  (∀ w0 c kw, client_create_run sv w0 c kw = None) →
  (length all / limit < n)%nat →
  ∃ calls tid root w',
    main rt sv n a w = (Done tt, w') ∧
    created (trail w') =
      (created (trail w) ++
       ((mkClient (default EmptyString (api_key_of sv a)) (endpoint_of sv a) ,.) <$> calls))%list ∧
    length calls = length all ∧ parents_first calls tid root ∧
    (∀ kw, kw ∈ calls → kw !! "project_name" = Some (VStr (args.project a))) ∧
    stderr (trail w') = stderr (trail w).
Proof.
  intros d Hkey Hdry Hroot Hpages Htrace Hinit Hacc Hn.
  destruct (download_trace_spec rt sv n a (endpoint_of sv a) all w Hroot Hpages Hn)
    as (vs & w1 & E1 & Hvs & Hcr1 & Herr1 & _).
  destruct (transform_trace_spec rt a all vs w1 Htrace Hvs)
    as (out & tid & root & w2 & E2 & Hlen & Htree & Hup & _ & Hcr2 & Herr2).
  destruct (upload_trace_spec a (endpoint_of sv a) (default EmptyString (api_key_of sv a))
              vs out w2 Hup Hinit Hacc)
    as (calls & w3 & E3 & Hcr3 & Hsent & Herr3).
  exists calls, tid, root, w3. split_and!.
  - unfold main. rewrite Hkey. cbn [negb]. apply try_except_Done.
    unfold copy_trace. erewrite io_bind_Done by exact E1.
    erewrite io_bind_Done by exact E2. by rewrite Hdry.
  - by rewrite Hcr3, Hcr2, Hcr1.
  - rewrite <- Hlen. symmetry. by eapply Forall2_length.
  - by eapply parents_first_sent.
  - intros kw [j Hj]%list_elem_of_lookup_1.
    destruct (Forall2_lookup_r _ _ _ _ _ Hsent Hj) as (t & _ & Hs). apply Hs.
  - by rewrite Herr3, Herr2, Herr1.
Qed.

(** A dry run on a trace without runs: the sample run cannot be shown. *)
Lemma main_dry_run_empty n a w :
  let d := PublicTraceDownloader__init__ (args.share_token a) (endpoint_of sv a) in
  truthy_opt (api_key_of sv a) = true → args.dry_run a = true →
  serves_root sv d → serves_pages sv d [] 1 → (0 < n)%nat →
  ∃ t w',
    main rt sv n a w = (Exit 1, w') ∧
    trail w' = (trail w ++ t ++
      [Stderr (nl +:+ "Error: " +:+ str_error sv IndexError); Traceback IndexError])%list ∧
    Forall quiet t.
Proof.
  intros d Hkey Hdry Hroot Hpages Hn.
  destruct (download_trace_spec rt sv n a (endpoint_of sv a) [] w Hroot Hpages)
    as (vs & w1 & E1 & Hvs & _); [unfold limit; simpl; lia|].
  apply Forall2_nil_inv_l in Hvs as ->.
  assert (behaves quiet (download_trace rt sv n a (endpoint_of sv a))) as Hq1.
  { apply behaves_download_trace; [by intros []|done]. }
  destruct (Hq1 _ _ _ E1) as (_ & evs1 & T1 & Q1).
  set (c := (transformed_runs ← transform_trace rt a [];
             dry_run_report sv a transformed_runs)).
  assert (behaves quiet c) as Hq2.
  { apply behaves_bind; [by apply behaves_transform_trace|intros out].
    by apply behaves_dry_run_report. }
  destruct (c w1) as [res w2] eqn:E2.
  destruct (Hq2 _ _ _ E2) as (_ & evs2 & T2 & Q2).
  assert (res = Fail IndexError) as ->.
  { revert E2. unfold c, transform_trace.
    erewrite io_bind_Done.
    2:{ erewrite io_bind_Done by apply print_spec.
        erewrite io_bind_Done by reflexivity.
        erewrite io_bind_Done by reflexivity.
        erewrite io_bind_Done by reflexivity.
        erewrite io_bind_Done by apply print_spec.
        erewrite io_bind_Done by apply lift_gets.
        erewrite io_bind_Done by apply print_spec. reflexivity. }
    unfold dry_run_report.
    do 3 (erewrite io_bind_Done by apply print_spec).
    erewrite io_bind_Done by apply lift_gets.
    do 2 (erewrite io_bind_Done by apply print_spec).
    by intros [= <- _]. }
  exists (evs1 ++ evs2)%list. eexists. split.
  - unfold main. rewrite Hkey. cbn [negb].
    erewrite try_except_Fail.
    2:{ unfold copy_trace. erewrite io_bind_Done by exact E1. rewrite Hdry. exact E2. }
    reflexivity.
  - cbn [trail]. rewrite T2, T1, <- !app_assoc. split; [done|]. by apply Forall_app.
Qed.

(** Without an API key [main] stops before it does anything else. *)
Lemma main_no_key n a w :
  truthy_opt (api_key_of sv a) = false →
  main rt sv n a w =
    (Exit 1, mkWorld (py w)
       (trail w ++ [Stderr "Error: API key required. Set LANGSMITH_API_KEY or use --api-key"])).
Proof. intros H. unfold main. by rewrite H. Qed.

End Main.

(** ** Trailing slashes *)
Section Rstrip.

Lemma str_app_nil_r (s : string) : s +:+ EmptyString = s.
Proof. induction s as [|x s IH]; [done|]. by rewrite str_app_cons, IH. Qed.

Lemma rstrip_app_char c s : rstrip c (s +:+ String c EmptyString) = rstrip c s.
Proof.
  induction s as [|x s IH]; simpl.
  - by rewrite Ascii.eqb_refl.
  - by rewrite IH.
Qed.

Lemma rstrip_repeat c s k : rstrip c (s +:+ PyStr.repeat c k) = rstrip c s.
Proof.
  revert s. induction k as [|k IH]; intros s; simpl.
  - by rewrite str_app_nil_r.
  - replace (s +:+ String c (PyStr.repeat c k))
      with ((s +:+ String c EmptyString) +:+ PyStr.repeat c k).
    + by rewrite IH, rstrip_app_char.
    + by rewrite str_app_assoc.
Qed.

(** What [rstrip] removes is a run of the character, and what it leaves
    does not end with it. *)
Lemma rstrip_spec c s :
  (∃ k, s = rstrip c s +:+ PyStr.repeat c k) ∧
  ∀ t, rstrip c s ≠ t +:+ String c EmptyString.
Proof.
  induction s as [|x s [[k IHk] IHn]]; simpl.
  - split; [by exists 0%nat|]. intros [|? ?]; discriminate.
  - destruct (rstrip c s) as [|y t'] eqn:Hr.
    + destruct (Ascii.eqb_spec x c) as [->|Hne].
      * split; [exists (S k); simpl; by rewrite IHk|]. intros [|? ?]; discriminate.
      * split; [exists k; simpl; by rewrite IHk|].
        intros [|z t] H; simpl in H.
        { injection H as H. by destruct Hne. }
        injection H as _ H. by destruct t.
    + split; [exists k; rewrite str_app_cons; by rewrite <- IHk|].
      intros [|z t] H; simpl in H; [discriminate|].
      injection H as _ H. by apply (IHn t).
Qed.

End Rstrip.

Section Upload3.
Variable rt : runtime.
Variable sv : services.
Implicit Types (w : world) (u : TraceUploader) (r kw : gmap string value)
  (runs : list (gmap string value)).

(** [upload_runs] on uploadable runs, whatever the client does: the calls
    are those for a first part of the runs, in order; either all runs were
    sent, or the last call raised and its exception is raised again. *)
Lemma upload_runs_spec u runs project w :
  Forall uploadable runs →
  ∃ calls res w',
    upload_runs rt sv u runs project w = (res, w') ∧
    created (trail w') = (created (trail w) ++ ((client u ,.) <$> calls))%list ∧
    Forall2 (sent project) (take (length calls) runs) calls ∧
    ((res = Done tt ∧ length calls = length runs ∧
      stderr (trail w') = stderr (trail w)) ∨
     (∃ e w0 kw, res = Fail e ∧ last calls = Some kw ∧
        client_create_run sv w0 (client u) kw = Some e ∧
        length (stderr (trail w')) = S (length (stderr (trail w))))).
Proof.
  intros Hruns.
  set (w1 := mkWorld (py w) (trail w ++ [Stdout ("Uploading " +:+ str_len runs +:+ " runs to project '"
           +:+ project +:+ "'...")])).
  assert (created (trail w1) = created (trail w) ∧ stderr (trail w1) = stderr (trail w))
    as [Hcr1 Herr1].
  { unfold w1. cbn [trail]. rewrite created_app, stderr_app. simpl. by rewrite !app_nil_r. }
  destruct (upload_each_spec rt sv u project (length runs) 1 runs w1 Hruns)
    as (calls & res & w2 & E & Hcr & Hsent & _ & _ & _ & _ & Hres).
  destruct Hres as [(-> & Hlen & Herr)|(e & w0 & kw & -> & Hlast & Hrej & Herr)].
  - eexists calls, (Done tt), _. split.
    { unfold upload_runs. erewrite io_bind_Done by apply print_spec. fold w1.
      erewrite io_bind_Done by exact E. apply print_spec. }
    cbn [trail]. rewrite created_app, stderr_app, Hcr, Herr, Hcr1, Herr1. simpl.
    rewrite !app_nil_r. split_and!; [done..|]. by left.
  - exists calls, (Fail e), w2. split.
    { unfold upload_runs. erewrite io_bind_Done by apply print_spec. fold w1.
      by erewrite io_bind_Fail by exact E. }
    rewrite Hcr, Hcr1. split_and!; [done..|]. right.
    exists e, w0, kw. split_and!; try done. by rewrite Herr, Herr1.
Qed.

(** [upload_runs] on runs of which one lacks a required key, with a client
    that accepts every call. *)
Lemma upload_runs_missing_key u before r after project w :
  Forall uploadable before → ¬ uploadable r →
  (∀ w0 c kw, client_create_run sv w0 c kw = None) →
  ∃ key calls w',
    upload_runs rt sv u (before ++ r :: after) project w
      = (Fail (Python (KeyError key)), w') ∧
    key ∈ required_keys ∧ r !! key = None ∧
    (r !! "id" = None → key = "id") ∧
    created (trail w') = (created (trail w) ++ ((client u ,.) <$> calls))%list ∧
    Forall2 (sent project) before calls.
Proof.
  intros Hbefore Hr Hacc.
  set (runs := (before ++ r :: after)%list).
  set (w1 := mkWorld (py w) (trail w ++ [Stdout ("Uploading " +:+ str_len runs +:+ " runs to project '"
           +:+ project +:+ "'...")])).
  assert (created (trail w1) = created (trail w)) as Hcr1.
  { unfold w1. cbn [trail]. rewrite created_app. simpl. by rewrite !app_nil_r. }
  destruct (upload_each_accepted rt sv u project (length runs) 1 before w1 Hbefore Hacc)
    as (calls & w2 & E & Hcr & Hsent & _).
  destruct (upload_run_missing rt sv u project (length runs) (1 + length before) r w2 Hr)
    as (key & w3 & E3 & Hkey & Hnone & Hid & _ & Hcr3).
  exists key, calls, w3. split.
  { unfold upload_runs. fold runs. erewrite io_bind_Done by apply print_spec. fold w1.
    erewrite io_bind_Fail; [reflexivity|].
    unfold runs. rewrite upload_each_app.
    erewrite io_bind_Done by exact E. cbn [upload_each].
    by erewrite io_bind_Fail by exact E3. }
  split_and!; try done.
  - intros H. by apply Hid.
  - by rewrite Hcr3, Hcr, Hcr1.
Qed.

(** Rewriting a valid trace and uploading the result with a client that
    accepts every call. *)
Lemma transform_then_upload u runs project w :
  valid_trace runs → payload_ok rt (mem (py w)) runs →
  (∀ w0 c kw, client_create_run sv w0 c kw = None) →
  ∃ calls tid root w',
    (out ← lift (transform_runs rt runs); upload_runs rt sv u out project) w
      = (Done tt, w') ∧
    created (trail w') = (created (trail w) ++ ((client u ,.) <$> calls))%list ∧
    length calls = length runs ∧ parents_first calls tid root ∧
    (∀ kw, kw ∈ calls → kw !! "project_name" = Some (VStr project)).
Proof.
  intros Hv Hp Hacc.
  destruct (valid_transform_tree rt runs (py w) Hv Hp)
    as (out & st' & tid & root & E1 & Hlen & Htree & Hup & _).
  destruct (upload_runs_accepted rt sv u out project (mkWorld st' (trail w)) Hup Hacc)
    as (calls & w' & E2 & Hcr & Hsent & _).
  exists calls, tid, root, w'. split_and!.
  - erewrite io_bind_Done by (apply lift_Ok; exact E1). exact E2.
  - exact Hcr.
  - rewrite <- Hlen. symmetry. by eapply Forall2_length.
  - by eapply parents_first_sent.
  - intros kw [j Hj]%list_elem_of_lookup_1.
    destruct (Forall2_lookup_r _ _ _ _ _ Hsent Hj) as (t & _ & Hs). apply Hs.
Qed.

End Upload3.

(** ** The ids and the keys of the rewritten records *)
Section Ids.
Variable rt : runtime.
Implicit Types (r t : gmap string value) (st : state) (out runs : list (gmap string value)).

(** On records it can process, [transform_runs] gives each record of the
    sorted input the id that the first pass left for its old id, and all of
    them the trace id that the first pass left. *)
Lemma transform_runs_ids runs st :
  Forall (record_ok rt (mem st)) runs →
  let sorted := sorted_by dotted_key runs in
  let st1 := after_first_pass rt sorted st in
  ∃ out st',
    transform_runs rt runs st = (Ok out, st') ∧ length out = length runs ∧
    new_trace_id (self st') = new_trace_id (self st1) ∧
    rtc heap_step (mem st) (mem st') ∧
    Forall2 (carried_over (target_project (self st))) sorted out ∧
    ∀ j r, sorted !! j = Some r →
      ∃ t stj stj', out !! j = Some t ∧ rewritten rt r stj t stj' ∧
        id_mapping (self stj) = id_mapping (self st1) ∧
        new_trace_id (self stj) = new_trace_id (self st1).
Proof.
  intros Hok sorted st1.
  destruct (transform_runs_spec rt runs st Hok) as (out & st' & E & Hrw).
  destruct (transform_runs_payload rt runs st Hok) as (out' & st'' & E' & Hpay).
  rewrite E in E'. injection E' as <- <-.
  fold sorted in Hrw, Hpay. fold st1 in Hrw.
  exists out, st'. split_and!; try done.
  - rewrite (rewrites_length _ _ _ _ _ Hrw). apply length_sorted_by.
  - by destruct (rewrites_frame _ _ _ _ _ Hrw) as (_ & -> & _).
  - by destruct (rewrites_frame _ _ _ _ _ Hrw) as (_ & _ & _ & _ & _ & H).
  - intros j r Hj.
    destruct (rewrites_lookup _ _ _ _ _ _ _ Hrw Hj) as (t & stj & stj' & Ht & Hr & Hpre & _).
    destruct (rewrites_frame _ _ _ _ _ Hpre) as (HM & HT & _).
    by exists t, stj, stj'.
Qed.

(** The keys of a rewritten record. *)
Lemma rewritten_keys project r st t st' k :
  rewritten rt r st t st' → carried_over project r t →
  is_Some (t !! k) ↔ k ∈ fixed_keys ∨ (k ∈ token_keys ∧ is_Some (r !! k)).
Proof.
  intros Hrw Hco. destruct (decide (k ∈ fixed_keys)) as [Hf|Hf].
  - split; [by left|intros _].
    unfold fixed_keys in Hf. in_list Hf.
    + by rewrite (rw_id _ _ _ _ _ Hrw).
    + by rewrite (rw_trace _ _ _ _ _ Hrw).
    + by rewrite (rw_parent _ _ _ _ _ Hrw).
    + by rewrite (co_name _ _ _ Hco).
    + by rewrite (co_run_type _ _ _ Hco).
    + by rewrite (rw_start _ _ _ _ _ Hrw).
    + by rewrite (rw_end _ _ _ _ _ Hrw).
    + pose proof (co_inputs _ _ _ Hco) as H.
      destruct (r !! "inputs"); [by rewrite H|]. destruct H as [l ->]. done.
    + pose proof (co_outputs _ _ _ Hco) as H.
      destruct (r !! "outputs"); [by rewrite H|]. destruct H as [l ->]. done.
    + destruct (rw_extra _ _ _ _ _ Hrw) as (e & -> & _). done.
    + by rewrite (co_error _ _ _ Hco).
    + by rewrite (co_serialized _ _ _ Hco).
    + by rewrite (co_events _ _ _ Hco).
    + by rewrite (co_tags _ _ _ Hco).
    + by rewrite (co_session _ _ _ Hco).
    + by rewrite (rw_dotted _ _ _ _ _ Hrw).
  - destruct (decide (k ∈ token_keys)) as [Ht|Ht].
    + rewrite (co_tokens _ _ _ Hco k Ht). split; [by right|]. by intros [?|[_ ?]].
    + rewrite (co_others _ _ _ Hco k Hf Ht). split; [by intros []|].
      by intros [?|[? _]].
Qed.

Lemma record_ok_old_id h r r' :
  record_ok rt h r → record_ok rt h r' → id_of r = id_of r' ↔ old_id r = old_id r'.
Proof.
  intros [[s Hs] _ _ _ _] [[s' Hs'] _ _ _ _]. unfold old_id. rewrite Hs, Hs'. simpl.
  split; congruence.
Qed.

End Ids.

(** ** [main] on a server that refuses the first request *)
Section Refused.
Variable rt : runtime.
Variable sv : services.

Lemma main_root_error n a w r :
  let d := PublicTraceDownloader__init__ (args.share_token a) (endpoint_of sv a) in
  truthy_opt (api_key_of sv a) = true →
  (∀ w', http sv w' (GET (base_url d +:+ "/public/" +:+ share_token d +:+ "/run") []) = inr r) →
  (400 ≤ status_code r < 600)%Z →
  main rt sv n a w =
    (Exit 1, mkWorld (py w)
       (trail w ++
        [ Stdout ("Fetching public trace with token: " +:+ args.share_token a);
          Stdout ("Using endpoint: " +:+ endpoint_of sv a);
          Stdout "  Downloading root run...";
          Request (GET (base_url d +:+ "/public/" +:+ share_token d +:+ "/run") []);
          Stderr (nl +:+ "HTTP Error: " +:+ str_error sv (HTTPError (Some r)));
          Stderr ("Response: " +:+ text r) ])).
Proof.
  intros d Hkey Hhttp Hst. unfold main. rewrite Hkey. cbn [negb].
  erewrite try_except_Fail.
  2:{ unfold copy_trace. apply io_bind_Fail. unfold download_trace.
      do 3 (erewrite io_bind_Done by apply print_spec). fold d.
      apply io_bind_Fail. unfold get_root_run.
      erewrite io_bind_Done; [|unfold requests_send; by rewrite Hhttp].
      apply io_bind_Fail. by apply raise_for_status_error. }
  unfold mbind, IO_bind, eprint, emit, sys_exit. cbn [py trail].
  by rewrite <- !app_assoc.
Qed.

Lemma main_root_unanswered n a w :
  let d := PublicTraceDownloader__init__ (args.share_token a) (endpoint_of sv a) in
  truthy_opt (api_key_of sv a) = true →
  (∀ w', http sv w' (GET (base_url d +:+ "/public/" +:+ share_token d +:+ "/run") [])
         = inl (HTTPError None)) →
  main rt sv n a w =
    (Fail (Python AttributeError), mkWorld (py w)
       (trail w ++
        [ Stdout ("Fetching public trace with token: " +:+ args.share_token a);
          Stdout ("Using endpoint: " +:+ endpoint_of sv a);
          Stdout "  Downloading root run...";
          Request (GET (base_url d +:+ "/public/" +:+ share_token d +:+ "/run") []);
          Stderr (nl +:+ "HTTP Error: " +:+ str_error sv (HTTPError None)) ])).
Proof.
  intros d Hkey Hhttp. unfold main. rewrite Hkey. cbn [negb].
  erewrite try_except_Fail.
  2:{ unfold copy_trace. apply io_bind_Fail. unfold download_trace.
      do 3 (erewrite io_bind_Done by apply print_spec). fold d.
      apply io_bind_Fail. unfold get_root_run.
      apply io_bind_Fail. unfold requests_send. by rewrite Hhttp. }
  unfold mbind, IO_bind, eprint, emit, throw. cbn [py trail].
  by rewrite <- !app_assoc.
Qed.

End Refused.

(** ** The sample session *)
Section Session.
Implicit Types (h : gmap loc (gmap string value)) (w : world).

Lemma represents_atom h j v a : atom j = Some a → represents h j v → v = a.
Proof. destruct j; simpl; intros [= <-] H; done. Qed.

Lemma members_rep_flat h (d : gmap string value) kvs acc r :
  flat_record kvs acc = Some r → members_rep h d kvs acc → d = r.
Proof.
  revert acc. induction kvs as [|[k x] kvs IH]; intros acc; simpl.
  { by intros [= <-] ->. }
  destruct (atom x) as [a|] eqn:Ha; [|done].
  intros Hr (v & Hv & Hm). apply (represents_atom _ _ _ _ Ha) in Hv as ->.
  by apply (IH _ Hr).
Qed.

Lemma record_in_flat h kvs r (d : gmap string value) :
  flat_record kvs ∅ = Some d → record_in h (JObj kvs) r → r = d.
Proof.
  intros Hd (l & Hrep & Hl).
  apply represents_obj in Hrep as (l' & d' & [= <-] & Hl' & Hm).
  assert (d' = r) as -> by congruence.
  by eapply members_rep_flat.
Qed.

Lemma serve_pages runs feedbacks stop d bound :
  match stop with Some s => (bound ≤ s)%nat | None => True end →
  serves_pages (Scenario.services_with (Scenario.serve runs feedbacks stop)) d runs bound.
Proof.
  intros Hstop w offset Hlt. unfold page_request. cbn [http Scenario.services_with Scenario.serve].
  rewrite Nat2Z.id.
  assert (match stop with Some s => (s <=? offset)%nat | None => false end = false) as ->.
  { destruct stop as [s|]; [|done]. apply Nat.leb_gt. lia. }
  eexists. split; [done|]. split; [left; simpl; lia|].
  eexists. split; [done|]. unfold Scenario.page_of. by rewrite Nat2Z.id.
Qed.

Lemma serve_root runs feedbacks stop d :
  serves_root (Scenario.services_with (Scenario.serve runs feedbacks stop)) d.
Proof.
  intros w. eexists _, _. split; [done|]. split; [left; simpl; lia|done].
Qed.

Lemma serve_feedbacks runs feedbacks stop d run_ids :
  serves_feedbacks (Scenario.services_with (Scenario.serve runs feedbacks stop)) d
    run_ids feedbacks.
Proof.
  intros w offset. eexists. split; [done|]. split; [left; simpl; lia|].
  simpl. by rewrite Nat2Z.id.
Qed.

Lemma sorted_records :
  sorted_by dotted_key Scenario.records = [Scenario.root_record; Scenario.child_record].
Proof. unfold Scenario.records. sort_sample. Qed.

Lemma records_valid : valid_trace Scenario.records.
Proof. valid_sample sorted_records Scenario.root_record [Some "B"; Some "A"]. Qed.

Lemma records_payload h : payload_ok Sample.rt h Scenario.records.
Proof. payload_sample. Qed.

Lemma all_trace : json_trace Sample.rt Scenario.all.
Proof.
  split.
  { repeat (apply Forall_cons_2; [by eexists|]). apply Forall_nil_2. }
  intros h records Hrec.
  apply Forall2_cons_inv_l in Hrec as (r1 & rs & H1 & Hrec & ->).
  apply Forall2_cons_inv_l in Hrec as (r2 & rs' & H2 & Hrec & ->).
  apply Forall2_nil_inv_l in Hrec as ->.
  apply (record_in_flat _ _ _ Scenario.child_record) in H1 as ->; [|reflexivity].
  apply (record_in_flat _ _ _ Scenario.root_record) in H2 as ->; [|reflexivity].
  split; [exact records_valid|apply records_payload].
Qed.

Lemma sorted_twins :
  sorted_by dotted_key Scenario.twins = [Sample.orphan; Sample.child_b].
Proof. unfold Scenario.twins. sort_sample. Qed.

Lemma sorted_two_roots :
  sorted_by dotted_key Scenario.two_roots = [Sample.root; Scenario.second_root].
Proof. unfold Scenario.two_roots. sort_sample. Qed.

Lemma twins_records : Forall (record_ok Sample.rt Sample.heap0) Scenario.twins.
Proof. repeat (apply Forall_cons_2; [record_sample|]). apply Forall_nil_2. Qed.

Lemma two_roots_records : Forall (record_ok Sample.rt Sample.heap0) Scenario.two_roots.
Proof. repeat (apply Forall_cons_2; [record_sample|]). apply Forall_nil_2. Qed.

Lemma rootless_records : Forall (record_ok Sample.rt Sample.heap0) Scenario.rootless.
Proof. repeat (apply Forall_cons_2; [record_sample|]). apply Forall_nil_2. Qed.

Lemma plain_uploadable : uploadable Scenario.plain.
Proof.
  unfold uploadable, required_keys.
  repeat (apply Forall_cons_2; [eexists; vm_compute; reflexivity|]). apply Forall_nil_2.
Qed.

Lemma nameless_not_uploadable : ¬ uploadable Scenario.nameless.
Proof.
  unfold uploadable, required_keys. intros [[v Hv] _]%Forall_cons.
  vm_compute in Hv. discriminate.
Qed.

End Session.

(** * The claims *)

(** ** Claims about valid single-root inputs *)

(** C8. For every valid single-root input of size N whose payload can be
    rewritten, [transform_runs] returns, and it returns exactly N records. *)
Theorem C8_output_size (rt : runtime) (runs : list (gmap string value)) (st : state) :
  valid_trace runs → payload_ok rt (mem st) runs →
  ∃ out st', transform_runs rt runs st = (Ok out, st') ∧ length out = length runs.
Proof.
  intros Hv Hp.
  destruct (valid_transform rt runs st Hv Hp) as (out & st' & _ & _ & E & Hlen & _).
  by exists out, st'.
Qed.

Lemma C8_witness :
  ∃ out st', transform_runs Sample.rt Sample.trace Sample.st0 = (Ok out, st') ∧
    length out = length Sample.trace.
Proof.
  apply (C8_output_size Sample.rt Sample.trace Sample.st0 trace_valid trace_payload).
Defined.

(** C5. For every valid single-root input, exactly one output record has
    [parent_run_id] absent ([None]), and the new id of that record is the
    [trace_id] of every output record. *)
Theorem C5_single_root (rt : runtime) (runs : list (gmap string value)) (st : state) :
  valid_trace runs → payload_ok rt (mem st) runs →
  ∃ out st' i root nid,
    transform_runs rt runs st = (Ok out, st') ∧
    out !! i = Some root ∧
    root !! "parent_run_id" = Some VNone ∧
    root !! "id" = Some (VStr nid) ∧
    (∀ j t, out !! j = Some t → t !! "parent_run_id" = Some VNone → j = i) ∧
    (∀ t, t ∈ out → t !! "trace_id" = Some (VStr nid)).
Proof.
  intros Hv Hp.
  destruct (valid_transform rt runs st Hv Hp)
    as (out & st' & i0 & r0 & E & Hlen & Hi0 & Hroot0 & Huniq & Hall).
  destruct (Hall i0 r0 Hi0) as (t0 & s0 & Ht0 & Hid0 & _ & Hr0 & _).
  destruct (Hr0 Hroot0) as [Hp0 _].
  assert (∀ j t, out !! j = Some t →
            ∃ r, sorted_by dotted_key runs !! j = Some r) as Hsrc.
  { intros j t Hj. apply lookup_lt_is_Some. rewrite length_sorted_by, <- Hlen.
    by eapply lookup_lt_Some. }
  exists out, st', i0, t0, (UUID.str (uuid4_draw rt (entropy st + i0))).
  split_and!; try done.
  - intros j t Hj Hnone. destruct (Hsrc j t Hj) as [r Hr].
    destruct (Hall j r Hr) as (t' & s' & Ht' & _ & _ & _ & Hchild).
    assert (t' = t) as -> by congruence.
    destruct (is_root r) eqn:Hroot; [by eapply Huniq|exfalso].
    destruct (vt_parents _ Hv r) as [Hr'|(p & Hp' & Hpar)].
    { by eapply (elem_of_sorted_by dotted_key), list_elem_of_lookup_2. }
    { congruence. }
    apply (elem_of_sorted_by dotted_key), list_elem_of_lookup_1 in Hp' as [i Hi].
    destruct (Hchild i p Hi Hpar) as (_ & Hsome & _). congruence.
  - intros t [j Hj]%list_elem_of_lookup_1. destruct (Hsrc j t Hj) as [r Hr].
    destruct (Hall j r Hr) as (t' & s' & Ht' & _ & Htr & _). congruence.
Qed.

Lemma C5_witness :
  ∃ out st' i root nid,
    transform_runs Sample.rt Sample.siblings Sample.st0 = (Ok out, st') ∧
    out !! i = Some root ∧
    root !! "parent_run_id" = Some VNone ∧
    root !! "id" = Some (VStr nid) ∧
    (∀ j t, out !! j = Some t → t !! "parent_run_id" = Some VNone → j = i) ∧
    (∀ t, t ∈ out → t !! "trace_id" = Some (VStr nid)).
Proof.
  apply (C5_single_root Sample.rt Sample.siblings Sample.st0 siblings_valid siblings_payload).
Defined.

(** C6. For every valid single-root input and every (parent, child) pair of
    it, the transformed child names the transformed parent:
    [child'.parent_run_id == parent'.id]. *)
Theorem C6_topology_preserved (rt : runtime) (runs : list (gmap string value)) (st : state) :
  valid_trace runs → payload_ok rt (mem st) runs →
  ∃ out st',
    transform_runs rt runs st = (Ok out, st') ∧
    ∀ i j parent child,
      sorted_by dotted_key runs !! i = Some parent →
      sorted_by dotted_key runs !! j = Some child →
      parent_of child = id_of parent →
      ∃ parent' child' nid,
        out !! i = Some parent' ∧ out !! j = Some child' ∧
        parent' !! "id" = Some (VStr nid) ∧
        child' !! "parent_run_id" = Some (VStr nid).
Proof.
  intros Hv Hp.
  destruct (valid_transform rt runs st Hv Hp)
    as (out & st' & i0 & r0 & E & Hlen & Hi0 & Hroot0 & Huniq & Hall).
  exists out, st'. split; [done|].
  intros i j p c Hi Hj Hpar.
  destruct (Hall i p Hi) as (tp & sp & Htp & Hidp & _).
  destruct (Hall j c Hj) as (tc & sc & Htc & _ & _ & _ & Hchild).
  destruct (Hchild i p Hi Hpar) as (_ & Hsome & _).
  by exists tp, tc, (UUID.str (uuid4_draw rt (entropy st + i))).
Qed.

Lemma C6_witness :
  ∃ out st',
    transform_runs Sample.rt Sample.siblings Sample.st0 = (Ok out, st') ∧
    ∀ i j parent child,
      sorted_by dotted_key Sample.siblings !! i = Some parent →
      sorted_by dotted_key Sample.siblings !! j = Some child →
      parent_of child = id_of parent →
      ∃ parent' child' nid,
        out !! i = Some parent' ∧ out !! j = Some child' ∧
        parent' !! "id" = Some (VStr nid) ∧
        child' !! "parent_run_id" = Some (VStr nid).
Proof.
  apply (C6_topology_preserved Sample.rt Sample.siblings Sample.st0
           siblings_valid siblings_payload).
Defined.

(** C4 as stated fails: the timestamp is not of fixed width. [%Y] is not
    padded, so a root that started in the year 999, a valid single-root
    input whose start time [fromisoformat] accepts, gets a timestamp of 20
    characters, where a start in 2023 gets 21. *)
Lemma C4_counterexample :
  valid_trace [Sample.early] ∧ payload_ok Sample.rt Sample.heap0 [Sample.early] ∧
  recorded_start Sample.rt Sample.early
    = Some (mkDatetime 999 5 5 5 13 24 571809 (Some 0%Z)) ∧
  Datetime.valid (mkDatetime 999 5 5 5 13 24 571809 (Some 0%Z)) ∧
  Datetime.strftime_compact (mkDatetime 999 5 5 5 13 24 571809 (Some 0%Z))
    = "9990505T051324571809" ∧
  String.length "9990505T051324571809" = 20%nat ∧
  observe (λ _ t, t !! "dotted_order")
    (transform_runs Sample.rt [Sample.early] Sample.st0)
  = Ok [Some (VStr "9990505T051324571809Zdc74395ec01849ce970d270dcc3d01d8")].
Proof.
  split_and!; [exact early_valid|exact early_payload|..];
    try (vm_compute; reflexivity).
  unfold Datetime.valid. simpl. lia.
Qed.

(** C4, as the code has it. For every record of a valid input the new
    dotted order is built from [current_part]: the compact timestamp of the
    start time (digits and a ['T'], no separator; 21 characters when the
    year has four digits, fewer for an earlier year, which is printed
    without padding), a ['Z'], and the 32 hex digits of the new id, its
    hyphens removed. The root's dotted order is [current_part] alone; a
    child's is the new dotted order of its parent, a ['.'], and
    [current_part]. *)
Theorem C4_dotted_order_construction
    (rt : runtime) (runs : list (gmap string value)) (st : state) :
  valid_trace runs → payload_ok rt (mem st) runs →
  ∃ out st',
    transform_runs rt runs st = (Ok out, st') ∧
    ∀ j r, sorted_by dotted_key runs !! j = Some r →
      ∃ t u d,
        out !! j = Some t ∧
        t !! "id" = Some (VStr (UUID.str u)) ∧
        (∀ d', recorded_start rt r = Some d' → d = d') ∧
        PyStr.all_chars stamp_char (Datetime.strftime_compact d) = true ∧
        (Datetime.valid d → (1000 <= year d)%N →
         String.length (Datetime.strftime_compact d) = 21%nat) ∧
        String.length (UUID.hex u) = 32%nat ∧
        PyStr.replace "-"%char EmptyString (UUID.str u) = UUID.hex u ∧
        let current_part := (Datetime.strftime_compact d +:+ "Z") +:+ UUID.hex u in
        (is_root r = true → t !! "dotted_order" = Some (VStr current_part)) ∧
        (∀ i p, sorted_by dotted_key runs !! i = Some p → parent_of r = id_of p →
           ∃ tp pd,
             out !! i = Some tp ∧ tp !! "dotted_order" = Some (VStr pd) ∧
             t !! "dotted_order" = Some (VStr (pd +:+ "." +:+ current_part))).
Proof.
  intros Hv Hp.
  destruct (valid_transform rt runs st Hv Hp)
    as (out & st' & i0 & r0 & E & Hlen & Hi0 & Hroot0 & Huniq & Hall).
  exists out, st'. split; [done|].
  intros j r Hj.
  destruct (Hall j r Hj) as (t & stj & Ht & Hid & _ & Hroot & Hchild).
  exists t, (uuid4_draw rt (entropy st + j)), (stamp_time rt r stj).
  unfold current_part in Hroot, Hchild. rewrite replace_uuid_str in Hroot, Hchild.
  split_and!; try done.
  - intros d' Hd'. by apply stamp_time_recorded.
  - apply stamp_chars_strftime_compact.
  - apply length_strftime_compact.
  - apply length_uuid_hex.
  - apply replace_uuid_str.
  - cbv zeta. split; [intros Hr; by destruct (Hroot Hr)|].
    intros i p Hi Hpar. destruct (Hchild i p Hi Hpar) as (_ & _ & tp & pd & ? & ? & ?).
    by exists tp, pd.
Qed.

Lemma C4_witness :
  ∃ out st',
    transform_runs Sample.rt Sample.siblings Sample.st0 = (Ok out, st') ∧
    ∀ j r, sorted_by dotted_key Sample.siblings !! j = Some r →
      ∃ t u d,
        out !! j = Some t ∧
        t !! "id" = Some (VStr (UUID.str u)) ∧
        (∀ d', recorded_start Sample.rt r = Some d' → d = d') ∧
        PyStr.all_chars stamp_char (Datetime.strftime_compact d) = true ∧
        (Datetime.valid d → (1000 <= year d)%N →
         String.length (Datetime.strftime_compact d) = 21%nat) ∧
        String.length (UUID.hex u) = 32%nat ∧
        PyStr.replace "-"%char EmptyString (UUID.str u) = UUID.hex u ∧
        let current_part := (Datetime.strftime_compact d +:+ "Z") +:+ UUID.hex u in
        (is_root r = true → t !! "dotted_order" = Some (VStr current_part)) ∧
        (∀ i p, sorted_by dotted_key Sample.siblings !! i = Some p →
           parent_of r = id_of p →
           ∃ tp pd,
             out !! i = Some tp ∧ tp !! "dotted_order" = Some (VStr pd) ∧
             t !! "dotted_order" = Some (VStr (pd +:+ "." +:+ current_part))).
Proof.
  apply (C4_dotted_order_construction Sample.rt Sample.siblings Sample.st0
           siblings_valid siblings_payload).
Defined.

(** C3, as the code has it. For every valid single-root input the output is
    returned in the order of the input sorted by its original dotted order,
    and the new dotted order of every child strictly extends that of its
    parent; sorting the output by its new dotted order therefore places
    every parent before its children. (The order among siblings follows
    their start times and new random ids, not their original keys.) *)
Theorem C3_parents_sort_before_children
    (rt : runtime) (runs : list (gmap string value)) (st : state) :
  valid_trace runs → payload_ok rt (mem st) runs →
  ∃ out st',
    transform_runs rt runs st = (Ok out, st') ∧
    ∀ i j parent child,
      sorted_by dotted_key runs !! i = Some parent →
      sorted_by dotted_key runs !! j = Some child →
      parent_of child = id_of parent →
      ∃ parent' child',
        out !! i = Some parent' ∧ out !! j = Some child' ∧ (i < j)%nat ∧
        String.ltb (dotted_key parent') (dotted_key child') = true ∧
        ∃ a b, (a < b)%nat ∧
          sorted_by dotted_key out !! a = Some parent' ∧
          sorted_by dotted_key out !! b = Some child'.
Proof.
  intros Hv Hp.
  destruct (valid_transform rt runs st Hv Hp)
    as (out & st' & i0 & r0 & E & Hlen & Hi0 & Hroot0 & Huniq & Hall).
  exists out, st'. split; [done|].
  intros i j p c Hi Hj Hpar.
  destruct (Hall j c Hj) as (tc & stj & Htc & _ & _ & _ & Hchild).
  destruct (Hchild i p Hi Hpar) as (Hij & _ & tp & pd & Htp & Hpd & Hcd).
  assert (String.ltb (dotted_key tp) (dotted_key tc) = true) as Hlt.
  { rewrite (dotted_key_lookup _ _ Hpd), (dotted_key_lookup _ _ Hcd). apply ltb_app_cons. }
  exists tp, tc. split_and!; try done.
  apply sorted_by_lt_precedes; [by eapply list_elem_of_lookup_2..|done].
Qed.

Lemma C3_witness :
  ∃ out st',
    transform_runs Sample.rt Sample.siblings Sample.st0 = (Ok out, st') ∧
    ∀ i j parent child,
      sorted_by dotted_key Sample.siblings !! i = Some parent →
      sorted_by dotted_key Sample.siblings !! j = Some child →
      parent_of child = id_of parent →
      ∃ parent' child',
        out !! i = Some parent' ∧ out !! j = Some child' ∧ (i < j)%nat ∧
        String.ltb (dotted_key parent') (dotted_key child') = true ∧
        ∃ a b, (a < b)%nat ∧
          sorted_by dotted_key out !! a = Some parent' ∧
          sorted_by dotted_key out !! b = Some child'.
Proof.
  apply (C3_parents_sort_before_children Sample.rt Sample.siblings Sample.st0
           siblings_valid siblings_payload).
Defined.

(** C3 as stated fails: on a valid trace whose two children started at the
    same instant, the input sorts as A, B, C by its dotted order, while the
    output, sorted by its new dotted order, reads A, C, B. *)
Lemma C3_counterexample :
  valid_trace Sample.siblings ∧
  payload_ok Sample.rt (mem Sample.st0) Sample.siblings ∧
  id_of <$> sorted_by dotted_key Sample.siblings = [Some "A"; Some "B"; Some "C"] ∧
  match transform_runs Sample.rt Sample.siblings Sample.st0 with
  | (Ok out, st') =>
      origin (mem st') <$> sorted_by dotted_key out
        = [Some (VStr "A"); Some (VStr "C"); Some (VStr "B")]
  | (Raise _, _) => False
  end.
Proof.
  split; [exact siblings_valid|]. split; [exact siblings_payload|].
  split; vm_compute; reflexivity.
Qed.

(** C2. For every record that carries a start time, the timestamp in the new
    dotted order is that original start time, whatever [preserve_timestamps]
    is: the dotted order ends with [current_part] of the recorded start and
    the new id. With [preserve_timestamps] false the record's visible
    [start_time] is a reading of the clock taken during the call and its
    [end_time] is [None]; with it true both are copied. *)
Theorem C2_dotted_order_uses_recorded_start
    (rt : runtime) (runs : list (gmap string value)) (st : state) :
  Forall (record_ok rt (mem st)) runs →
  ∃ out st',
    transform_runs rt runs st = (Ok out, st') ∧
    ∀ j r d,
      sorted_by dotted_key runs !! j = Some r → recorded_start rt r = Some d →
      ∃ t nid prefix,
        out !! j = Some t ∧
        t !! "id" = Some (VStr nid) ∧
        t !! "dotted_order" = Some (VStr (prefix +:+ current_part d nid)) ∧
        (preserve_timestamps (self st) = true →
           t !! "start_time" = Some (get "start_time" VNone r) ∧
           t !! "end_time" = Some (get "end_time" VNone r)) ∧
        (preserve_timestamps (self st) = false →
           (∃ n, (clock st ≤ n)%nat ∧
              t !! "start_time" = Some (VStr (Datetime.isoformat (utcnow_at rt n)))) ∧
           t !! "end_time" = Some VNone).
Proof.
  intros Hok.
  destruct (ok_transform rt runs st Hok) as (out & st' & E & _ & _ & Hall).
  exists out, st'. split; [done|].
  intros j r d Hj Hd.
  destruct (Hall j r Hj) as (t & stj & stj' & Ht & Hr & _ & Hpres & Hclock & _).
  destruct (dotted_for_prefix (dotted_order_mapping (self stj))
              (new_parent (id_mapping (self stj)) r) r
              (current_part (stamp_time rt r stj) (new_id_of (id_mapping (self stj)) r)))
    as [prefix Hprefix].
  exists t, (new_id_of (id_mapping (self stj)) r), prefix.
  split_and!; [done|apply Hr| | |].
  - rewrite (rw_dotted _ _ _ _ _ Hr). unfold new_dotted.
    by rewrite Hprefix, (stamp_time_recorded rt r stj d Hd).
  - intros Hp. rewrite (rw_start _ _ _ _ _ Hr), (rw_end _ _ _ _ _ Hr), Hpres, Hp. done.
  - intros Hp. rewrite (rw_start _ _ _ _ _ Hr), (rw_end _ _ _ _ _ Hr), Hpres, Hp.
    split; [|done]. by exists (clock stj).
Qed.

Lemma C2_witness :
  ∃ out st',
    transform_runs Sample.rt Sample.trace Sample.st0_updating = (Ok out, st') ∧
    ∀ j r d,
      sorted_by dotted_key Sample.trace !! j = Some r →
      recorded_start Sample.rt r = Some d →
      ∃ t nid prefix,
        out !! j = Some t ∧
        t !! "id" = Some (VStr nid) ∧
        t !! "dotted_order" = Some (VStr (prefix +:+ current_part d nid)) ∧
        (preserve_timestamps (self Sample.st0_updating) = true →
           t !! "start_time" = Some (get "start_time" VNone r) ∧
           t !! "end_time" = Some (get "end_time" VNone r)) ∧
        (preserve_timestamps (self Sample.st0_updating) = false →
           (∃ n, (clock Sample.st0_updating ≤ n)%nat ∧
              t !! "start_time" =
                Some (VStr (Datetime.isoformat (utcnow_at Sample.rt n)))) ∧
           t !! "end_time" = Some VNone).
Proof.
  apply (C2_dotted_order_uses_recorded_start Sample.rt Sample.trace Sample.st0_updating
           trace_records).
Defined.

(** C10. [transform_runs] changes its input: when an input record has an
    [extra] dictionary, the output record's [extra] is that very object, and
    after the call the [metadata] reached through the input's [extra] holds
    [copied_from_shared_trace] and [original_run_id]. *)
Theorem C10_extra_is_shared
    (rt : runtime) (runs : list (gmap string value)) (st : state) :
  Forall (record_ok rt (mem st)) runs →
  ∃ out st',
    transform_runs rt runs st = (Ok out, st') ∧
    ∀ j r l,
      sorted_by dotted_key runs !! j = Some r → r !! "extra" = Some (VDict l) →
      ∃ t m s,
        out !! j = Some t ∧
        t !! "extra" = Some (VDict l) ∧
        deref (mem st') l !! "metadata" = Some (VDict m) ∧
        deref (mem st') m !! "copied_from_shared_trace" = Some (VBool true) ∧
        deref (mem st') m !! "original_run_id" = Some (VStr s).
Proof.
  intros Hok.
  destruct (ok_transform rt runs st Hok) as (out & st' & E & _ & _ & Hall).
  exists out, st'. split; [done|].
  intros j r l Hj Hl.
  destruct (Hall j r Hj) as (t & stj & stj' & Ht & Hr & _ & _ & _ & Hheap).
  destruct (rw_extra _ _ _ _ _ Hr) as (e & He & Hprov & Halias).
  rewrite (Halias l Hl) in He, Hprov.
  destruct (has_provenance_steps _ _ _ Hheap Hprov) as (_ & m & Hm & _ & Hc & s & Hs).
  by exists t, m, s.
Qed.

Lemma C10_witness :
  deref (mem Sample.st0) 1 !! "original_run_id" = None ∧
  ∃ out st',
    transform_runs Sample.rt Sample.trace Sample.st0 = (Ok out, st') ∧
    ∀ j r l,
      sorted_by dotted_key Sample.trace !! j = Some r → r !! "extra" = Some (VDict l) →
      ∃ t m s,
        out !! j = Some t ∧
        t !! "extra" = Some (VDict l) ∧
        deref (mem st') l !! "metadata" = Some (VDict m) ∧
        deref (mem st') m !! "copied_from_shared_trace" = Some (VBool true) ∧
        deref (mem st') m !! "original_run_id" = Some (VStr s).
Proof.
  split; [by vm_compute|].
  apply (C10_extra_is_shared Sample.rt Sample.trace Sample.st0 trace_records).
Defined.

(** C1 as stated fails: the record ["B"] names a parent ["X"] that no
    record of the collection has as id, and [transform_runs] returns both
    records, ["B"] with [parent_run_id] [None]. *)
Lemma C1_counterexample :
  parent_of Sample.orphan = Some "X" ∧
  (∀ q, q ∈ Sample.orphaned → id_of q ≠ Some "X") ∧
  observe (λ st' t, (origin (mem st') t, t !! "parent_run_id"))
    (transform_runs Sample.rt Sample.orphaned Sample.st0)
  = Ok [ (Some (VStr "B"), Some VNone); (Some (VStr "A"), Some VNone) ].
Proof.
  split; [vm_compute; reflexivity|]. split; [|vm_compute; reflexivity].
  intros q Hq. in_list Hq; vm_compute; discriminate.
Qed.

(** C1, as the code has it. On records it can process, a freshly built
    transformer does not abort on an unresolved parent: [transform_runs]
    returns one record per input record, and a record whose [parent_run_id]
    is the id of no record of the collection comes out as a root, with
    [parent_run_id] [None] and its own [current_part] as dotted order. *)
Theorem C1_unresolved_parent_becomes_root
    (rt : runtime) (runs : list (gmap string value)) (st : state) :
  Forall (record_ok rt (mem st)) runs →
  id_mapping (self st) = ∅ →
  ∃ out st',
    transform_runs rt runs st = (Ok out, st') ∧ length out = length runs ∧
    ∀ j r p,
      sorted_by dotted_key runs !! j = Some r →
      parent_of r = Some p → (∀ q, q ∈ runs → id_of q ≠ Some p) →
      ∃ t nid d,
        out !! j = Some t ∧
        t !! "id" = Some (VStr nid) ∧
        t !! "parent_run_id" = Some VNone ∧
        t !! "dotted_order" = Some (VStr (current_part d nid)).
Proof.
  intros Hok Hfresh.
  destruct (ok_transform rt runs st Hok) as (out & st' & E & Hlen & _ & Hall).
  exists out, st'. split_and!; [done..|].
  intros j r p Hj Hp Hun.
  destruct (Hall j r Hj) as (t & stj & stj' & Ht & Hr & HM & _).
  assert (new_parent (id_mapping (self stj)) r = None) as Hnp.
  { unfold new_parent. rewrite Hp. destruct (PyStr.nonempty p); [|done].
    rewrite HM. simpl. rewrite assigned_ids_other, Hfresh; [done|].
    apply Forall_forall. intros q Hq%elem_of_sorted_by Heq.
    rewrite Forall_forall in Hok. destruct (ok_id _ _ _ (Hok q Hq)) as [s Hs].
    apply (Hun q Hq). by rewrite Hs, <- Heq, (id_of_old_id _ _ Hs). }
  exists t, (new_id_of (id_mapping (self stj)) r), (stamp_time rt r stj).
  split_and!; [done|apply Hr| |].
  - by rewrite (rw_parent _ _ _ _ _ Hr), Hnp.
  - rewrite (rw_dotted _ _ _ _ _ Hr). unfold new_dotted, dotted_for. by rewrite Hnp.
Qed.

Lemma C1_witness :
  ∃ out st',
    transform_runs Sample.rt Sample.orphaned Sample.st0 = (Ok out, st') ∧
    length out = length Sample.orphaned ∧
    ∀ j r p,
      sorted_by dotted_key Sample.orphaned !! j = Some r →
      parent_of r = Some p → (∀ q, q ∈ Sample.orphaned → id_of q ≠ Some p) →
      ∃ t nid d,
        out !! j = Some t ∧
        t !! "id" = Some (VStr nid) ∧
        t !! "parent_run_id" = Some VNone ∧
        t !! "dotted_order" = Some (VStr (current_part d nid)).
Proof.
  apply (C1_unresolved_parent_becomes_root Sample.rt Sample.orphaned Sample.st0
           orphaned_records).
  reflexivity.
Defined.

(** C9 as stated fails: after a completed call the transformer still holds
    the id map, the dotted-order map and the trace id of that call, and a
    second call on the same transformer, for a collection that does not
    contain ["A"], resolves the parent ["A"] to the id the first call drew. *)
Lemma C9_counterexample :
  let st1 := snd (transform_runs Sample.rt [Sample.root] Sample.st0) in
  id_mapping (self st1) !! "A" = Some "dc74395e-c018-49ce-970d-270dcc3d01d8" ∧
  dotted_order_mapping (self st1) !! "A"
    = Some "20230505T051324571809Zdc74395ec01849ce970d270dcc3d01d8" ∧
  new_trace_id (self st1) = Some "dc74395e-c018-49ce-970d-270dcc3d01d8" ∧
  id_of <$> [Sample.child_b] = [Some "B"] ∧
  observe (λ _ t, (t !! "parent_run_id", t !! "trace_id"))
    (transform_runs Sample.rt [Sample.child_b] st1)
  = Ok [ (Some (VStr "dc74395e-c018-49ce-970d-270dcc3d01d8"),
          Some (VStr "dc74395e-c018-49ce-970d-270dcc3d01d8")) ].
Proof. cbv zeta. repeat split; vm_compute; reflexivity. Qed.

(** C9, as the code has it. The two maps and the trace id are attributes of
    the transformer object: empty and unset when it is constructed, and only
    added to by [transform_runs]. After a call on records it can process,
    every entry that was there is still there, both maps have an entry for
    each record of the call, and a trace id that was set is still set. *)
Theorem C9_maps_belong_to_the_transformer
    (rt : runtime) (runs : list (gmap string value)) (st : state) :
  Forall (record_ok rt (mem st)) runs →
  (∀ project preserve,
     id_mapping (__init__ project preserve) = ∅ ∧
     dotted_order_mapping (__init__ project preserve) = ∅ ∧
     new_trace_id (__init__ project preserve) = None) ∧
  ∃ out st',
    transform_runs rt runs st = (Ok out, st') ∧
    (∀ k, is_Some (id_mapping (self st) !! k) → is_Some (id_mapping (self st') !! k)) ∧
    (∀ k, is_Some (dotted_order_mapping (self st) !! k) →
          is_Some (dotted_order_mapping (self st') !! k)) ∧
    (is_Some (new_trace_id (self st)) → is_Some (new_trace_id (self st'))) ∧
    (∀ r, r ∈ runs →
       is_Some (id_mapping (self st') !! old_id r) ∧
       is_Some (dotted_order_mapping (self st') !! old_id r)) ∧
    (∀ r, r ∈ runs → is_root r = true → is_Some (new_trace_id (self st'))).
Proof.
  intros Hok. split; [done|].
  destruct (ok_transform rt runs st Hok) as (out & st' & E & _ & Hrw & _).
  destruct (rewrites_frame _ _ _ _ _ Hrw) as (HM & HT & _).
  exists out, st'. split; [done|]. rewrite HM, HT. simpl. split_and!.
  - intros k. apply assigned_ids_mono.
  - intros k Hk. by eapply rewrites_dotted_mono.
  - apply assigned_trace_id_mono.
  - intros r Hr%(elem_of_sorted_by dotted_key). split.
    + destruct (assigned_ids_elem rt (entropy st) _ (id_mapping (self st)) r Hr) as [u ->].
      eauto.
    + by eapply rewrites_dotted_elem.
  - intros r Hr%(elem_of_sorted_by dotted_key) Hroot.
    apply list_elem_of_lookup_1 in Hr as [i Hi].
    revert Hi. generalize (entropy st), (new_trace_id (self st)).
    generalize (sorted_by dotted_key runs). clear -Hroot.
    intros l. revert i. induction l as [|r0 l IH]; intros i e tid Hi.
    { by rewrite lookup_nil in Hi. }
    destruct i as [|i]; simpl in *.
    + injection Hi as ->. rewrite Hroot. apply assigned_trace_id_mono. eauto.
    + by eapply IH.
Qed.

Lemma C9_witness :
  (∀ project preserve,
     id_mapping (__init__ project preserve) = ∅ ∧
     dotted_order_mapping (__init__ project preserve) = ∅ ∧
     new_trace_id (__init__ project preserve) = None) ∧
  ∃ out st',
    transform_runs Sample.rt [Sample.root] Sample.st0 = (Ok out, st') ∧
    (∀ k, is_Some (id_mapping (self Sample.st0) !! k) →
          is_Some (id_mapping (self st') !! k)) ∧
    (∀ k, is_Some (dotted_order_mapping (self Sample.st0) !! k) →
          is_Some (dotted_order_mapping (self st') !! k)) ∧
    (is_Some (new_trace_id (self Sample.st0)) → is_Some (new_trace_id (self st'))) ∧
    (∀ r, r ∈ [Sample.root] →
       is_Some (id_mapping (self st') !! old_id r) ∧
       is_Some (dotted_order_mapping (self st') !! old_id r)) ∧
    (∀ r, r ∈ [Sample.root] → is_root r = true → is_Some (new_trace_id (self st'))).
Proof.
  apply (C9_maps_belong_to_the_transformer Sample.rt [Sample.root] Sample.st0 root_records).
Defined.

(** C7 as stated fails: a [start_time] that is present and is no timestamp,
    the number zero, does not abort the call; the dotted order is stamped
    with the reading of the clock. *)
Lemma C7_counterexample :
  Sample.zero_start !! "start_time" = Some (VInt 0) ∧
  Datetime.strftime_compact (utcnow_at Sample.rt 0) = "20260102T030405000000" ∧
  observe (λ _ t, (t !! "start_time", t !! "dotted_order"))
    (transform_runs Sample.rt [Sample.zero_start] Sample.st0)
  = Ok [ (Some (VInt 0),
          Some (VStr "20260102T030405000000Zdc74395ec01849ce970d270dcc3d01d8")) ].
Proof. repeat split; vm_compute; reflexivity. Qed.

(** C7, as the code has it. When a record's [start_time] is a string that
    [fromisoformat] rejects (after the [Z] normalisation), or another value
    that is no datetime and counts as true, [transform_runs] raises: the
    whole call aborts, no list of records is returned, and no clock reading
    stands in for the value. *)
Theorem C7_unrecognised_start_time_aborts
    (rt : runtime) (runs : list (gmap string value)) (st : state)
    (r : gmap string value) (v : value) :
  sorted_permutes rt →
  r ∈ runs → r !! "start_time" = Some v → unrecognised rt v →
  ∃ e st', transform_runs rt runs st = (Raise e, st').
Proof.
  intros Hperm Hr Hv Hun. unfold transform_runs.
  destruct (sorted_runs rt runs st) as [[sorted|e] st1] eqn:E1;
    [|exists e, st1; by apply bind_Raise].
  erewrite bind_Ok by exact E1.
  destruct (for_each sorted (assign_new_id rt) st1) as [[[]|e] st2] eqn:E2;
    [|exists e, st2; by apply bind_Raise].
  erewrite bind_Ok by exact E2.
  apply (collect_raises _ _ r).
  - by rewrite (sorted_runs_perm rt runs st sorted st1 Hperm E1).
  - by apply (single_run_raises rt r v).
Qed.

Lemma C7_witness :
  ∃ e st', transform_runs Sample.rt [Sample.bad_start] Sample.st0 = (Raise e, st').
Proof.
  apply (C7_unrecognised_start_time_aborts Sample.rt [Sample.bad_start] Sample.st0
           Sample.bad_start (VStr "yesterday")).
  - intros h l l' H. discriminate H.
  - apply list_elem_of_here.
  - vm_compute. reflexivity.
  - vm_compute. reflexivity.
Defined.

(** * Further properties of the script *)

(** ** The rewriter *)

(** X1. For every list of records the rewriter can process,
    [transform_runs] returns, and every record of the result carries over
    the payload of the record of the sorted input at its position: [name],
    [run_type], [error] and [serialized] as they are ([None] when absent),
    [events] and [tags] (an empty list when absent), [inputs] and [outputs]
    (a new dictionary when absent), the target project as [session_name],
    the token counts the input has, and no key beyond the fixed ones. *)
Theorem X1_payload_carried_over (rt : runtime) (runs : list (gmap string value))
    (st : state) :
  Forall (record_ok rt (mem st)) runs →
  ∃ out st', transform_runs rt runs st = (Ok out, st') ∧
    Forall2 (carried_over (target_project (self st))) (sorted_by dotted_key runs) out.
Proof. apply transform_runs_payload. Qed.

Lemma X1_witness :
  ∃ out st', transform_runs Sample.rt Sample.trace Sample.st0 = (Ok out, st') ∧
    Forall2 (carried_over "Copied Traces") (sorted_by dotted_key Sample.trace) out.
Proof.
  apply (X1_payload_carried_over Sample.rt Sample.trace Sample.st0 trace_records).
Defined.

(** X2. The keys of a rewritten record are exactly the sixteen keys of the
    dictionary literal (with [dotted_order]) and those of the four
    token-count keys that the input record has: every other key of the input
    is dropped, and an absent token count stays absent. *)
Theorem X2_output_keys (rt : runtime) (runs : list (gmap string value)) (st : state) :
  Forall (record_ok rt (mem st)) runs →
  ∃ out st', transform_runs rt runs st = (Ok out, st') ∧
    Forall2 (λ r t, ∀ k, is_Some (t !! k) ↔
                         k ∈ fixed_keys ∨ (k ∈ token_keys ∧ is_Some (r !! k)))
      (sorted_by dotted_key runs) out.
Proof.
  intros Hok.
  destruct (transform_runs_ids rt runs st Hok) as (out & st' & E & _ & _ & _ & Hpay & Hall).
  exists out, st'. split; [done|].
  apply Forall2_same_length_lookup. split; [by eapply Forall2_length|].
  intros j r t Hr Ht k.
  destruct (Hall j r Hr) as (t' & stj & stj' & Ht' & Hrw & _).
  assert (t' = t) as -> by congruence.
  destruct (Forall2_lookup_l _ _ _ _ _ Hpay Hr) as (t' & Ht'' & Hco).
  assert (t' = t) as -> by congruence.
  by eapply rewritten_keys.
Qed.

Lemma X2_witness :
  ∃ out st', transform_runs Sample.rt Sample.trace Sample.st0 = (Ok out, st') ∧
    Forall2 (λ r t, ∀ k, is_Some (t !! k) ↔
                         k ∈ fixed_keys ∨ (k ∈ token_keys ∧ is_Some (r !! k)))
      (sorted_by dotted_key Sample.trace) out.
Proof.
  apply (X2_output_keys Sample.rt Sample.trace Sample.st0 trace_records).
Defined.

(** X3. When a record of the input has no [id] key (and the sort keys are
    strings), [transform_runs] raises [KeyError('id')] in its first pass:
    no record is rewritten, the store is as before the call and no dotted
    order has been recorded. *)
Theorem X3_missing_id_raises (rt : runtime) (runs : list (gmap string value))
    (st : state) (r : gmap string value) :
  Forall (λ r, is_Some (str_of_key (sort_key r))) runs →
  r ∈ runs → r !! "id" = None →
  ∃ st', transform_runs rt runs st = (Raise (KeyError "id"), st') ∧
    mem st' = mem st ∧ clock st' = clock st ∧
    dotted_order_mapping (self st') = dotted_order_mapping (self st).
Proof.
  intros Hk Hr Hid.
  destruct (first_pass_missing_id rt (sorted_by dotted_key runs) st r)
    as (st' & E & H); [by apply elem_of_sorted_by|done|].
  exists st'. split; [|done]. unfold transform_runs.
  erewrite bind_Ok by by apply sorted_runs_str.
  by apply bind_Raise.
Qed.

Lemma X3_witness :
  ∃ st', transform_runs Sample.rt [Sample.root; Scenario.anonymous] Sample.st0
           = (Raise (KeyError "id"), st') ∧
    mem st' = mem Sample.st0 ∧ clock st' = clock Sample.st0 ∧
    dotted_order_mapping (self st') = dotted_order_mapping (self Sample.st0).
Proof.
  apply (X3_missing_id_raises Sample.rt [Sample.root; Scenario.anonymous] Sample.st0
           Scenario.anonymous).
  - repeat (apply Forall_cons_2; [eexists; vm_compute; reflexivity|]). apply Forall_nil_2.
  - apply list_elem_of_further, list_elem_of_here.
  - vm_compute. reflexivity.
Defined.

(** X4. When no record of the input is a root (every [parent_run_id] is
    set), a new transformer still rewrites all of them: the trace id is
    never assigned, and every record of the result has [trace_id] [None]. *)
Theorem X4_no_root_no_trace_id (rt : runtime) (runs : list (gmap string value))
    (st : state) :
  Forall (record_ok rt (mem st)) runs →
  Forall (λ r, is_root r = false) runs →
  new_trace_id (self st) = None →
  ∃ out st', transform_runs rt runs st = (Ok out, st') ∧ length out = length runs ∧
    new_trace_id (self st') = None ∧
    ∀ t, t ∈ out → t !! "trace_id" = Some VNone.
Proof.
  intros Hok Hno Hnew.
  destruct (transform_runs_ids rt runs st Hok)
    as (out & st' & E & Hlen & Htid & _ & Hpay & Hall).
  assert (new_trace_id (self (after_first_pass rt (sorted_by dotted_key runs) st)) = None)
    as Hnone.
  { simpl. rewrite assigned_trace_id_none; [done|]. by rewrite sorted_by_perm. }
  exists out, st'. split_and!; [done|done|congruence|].
  intros t [j Hj]%list_elem_of_lookup_1.
  destruct (Forall2_lookup_r _ _ _ _ _ Hpay Hj) as (r & Hr & _).
  destruct (Hall j r Hr) as (t' & stj & stj' & Ht' & Hrw & _ & Htj).
  assert (t' = t) as -> by congruence.
  by rewrite (rw_trace _ _ _ _ _ Hrw), Htj, Hnone.
Qed.

Lemma X4_witness :
  ∃ out st', transform_runs Sample.rt Scenario.rootless Sample.st0 = (Ok out, st') ∧
    length out = length Scenario.rootless ∧
    new_trace_id (self st') = None ∧
    ∀ t, t ∈ out → t !! "trace_id" = Some VNone.
Proof.
  apply (X4_no_root_no_trace_id Sample.rt Scenario.rootless Sample.st0 rootless_records).
  - repeat (apply Forall_cons_2; [vm_compute; reflexivity|]). apply Forall_nil_2.
  - reflexivity.
Defined.

(** X5. When several records are roots, the last root in the order of the
    sorted input decides: every record of the result has as [trace_id] the
    id drawn for that root, and when no later record shares its id, that is
    the new id of its rewrite. *)
Theorem X5_last_root_gives_trace_id (rt : runtime) (runs : list (gmap string value))
    (st : state) (i : nat) (r : gmap string value) :
  Forall (record_ok rt (mem st)) runs →
  sorted_by dotted_key runs !! i = Some r → is_root r = true →
  Forall (λ r', is_root r' = false) (drop (S i) (sorted_by dotted_key runs)) →
  ∃ out st',
    transform_runs rt runs st = (Ok out, st') ∧
    new_trace_id (self st') = Some (UUID.str (uuid4_draw rt (entropy st + i))) ∧
    (∀ t, t ∈ out →
       t !! "trace_id" = Some (VStr (UUID.str (uuid4_draw rt (entropy st + i))))) ∧
    (Forall (λ r', id_of r' ≠ id_of r) (drop (S i) (sorted_by dotted_key runs)) →
     ∃ t, out !! i = Some t ∧
       t !! "id" = Some (VStr (UUID.str (uuid4_draw rt (entropy st + i))))).
Proof.
  intros Hok Hi Hroot Hlater.
  destruct (transform_runs_ids rt runs st Hok)
    as (out & st' & E & Hlen & Htid & _ & Hpay & Hall).
  assert (new_trace_id (self (after_first_pass rt (sorted_by dotted_key runs) st))
          = Some (UUID.str (uuid4_draw rt (entropy st + i)))) as Hsome.
  { simpl. by eapply assigned_trace_id_root. }
  assert (Forall (record_ok rt (mem st)) (sorted_by dotted_key runs)) as Hsok.
  { by rewrite sorted_by_perm. }
  exists out, st'. split_and!; [done|congruence| |].
  - intros t [j Hj]%list_elem_of_lookup_1.
    destruct (Forall2_lookup_r _ _ _ _ _ Hpay Hj) as (r' & Hr' & _).
    destruct (Hall j r' Hr') as (t' & stj & stj' & Ht' & Hrw & _ & Htj).
    assert (t' = t) as -> by congruence.
    by rewrite (rw_trace _ _ _ _ _ Hrw), Htj, Hsome.
  - intros Hids.
    destruct (Hall i r Hi) as (t & stj & stj' & Ht & Hrw & Hmap & _).
    exists t. split; [done|].
    rewrite (rw_id _ _ _ _ _ Hrw), Hmap. unfold new_id_of. simpl.
    erewrite assigned_ids_lookup; [done|exact Hi|].
    rewrite Forall_forall in Hsok.
    apply Forall_forall. intros r' Hr'. rewrite Forall_forall in Hids.
    rewrite <- (record_ok_old_id rt (mem st)).
    + by apply Hids.
    + apply Hsok. by eapply subseteq_drop.
    + apply Hsok. by eapply list_elem_of_lookup_2.
Qed.

Lemma X5_witness :
  ∃ out st',
    transform_runs Sample.rt Scenario.two_roots Sample.st0 = (Ok out, st') ∧
    new_trace_id (self st') = Some (UUID.str (uuid4_draw Sample.rt 1)) ∧
    (∀ t, t ∈ out → t !! "trace_id" = Some (VStr (UUID.str (uuid4_draw Sample.rt 1)))) ∧
    (Forall (λ r', id_of r' ≠ id_of Scenario.second_root)
       (drop 2 (sorted_by dotted_key Scenario.two_roots)) →
     ∃ t, out !! 1%nat = Some t ∧
       t !! "id" = Some (VStr (UUID.str (uuid4_draw Sample.rt 1)))).
Proof.
  apply (X5_last_root_gives_trace_id Sample.rt Scenario.two_roots Sample.st0 1
           Scenario.second_root two_roots_records).
  - by rewrite sorted_two_roots.
  - vm_compute. reflexivity.
  - rewrite sorted_two_roots. apply Forall_nil_2.
Defined.

(** X6. Records that share an id share the new id: both rewrites carry the
    id drawn for the last record with that id in the order of the sorted
    input, and the ids drawn for the earlier ones are not used. *)
Theorem X6_shared_id_shares_new_id (rt : runtime) (runs : list (gmap string value))
    (st : state) (i j : nat) (ri rj : gmap string value) :
  Forall (record_ok rt (mem st)) runs →
  sorted_by dotted_key runs !! i = Some ri →
  sorted_by dotted_key runs !! j = Some rj →
  id_of ri = id_of rj →
  Forall (λ r', id_of r' ≠ id_of rj) (drop (S j) (sorted_by dotted_key runs)) →
  ∃ out st' ti tj,
    transform_runs rt runs st = (Ok out, st') ∧
    out !! i = Some ti ∧ out !! j = Some tj ∧
    ti !! "id" = Some (VStr (UUID.str (uuid4_draw rt (entropy st + j)))) ∧
    tj !! "id" = Some (VStr (UUID.str (uuid4_draw rt (entropy st + j)))).
Proof.
  intros Hok Hi Hj Hsame Hlast.
  destruct (transform_runs_ids rt runs st Hok)
    as (out & st' & E & _ & _ & _ & _ & Hall).
  assert (Forall (record_ok rt (mem st)) (sorted_by dotted_key runs)) as Hsok.
  { by rewrite sorted_by_perm. }
  rewrite Forall_forall in Hsok.
  assert (record_ok rt (mem st) ri) as Hri by (eapply Hsok, list_elem_of_lookup_2, Hi).
  assert (record_ok rt (mem st) rj) as Hrj by (eapply Hsok, list_elem_of_lookup_2, Hj).
  assert (assigned_ids rt (entropy st) (sorted_by dotted_key runs) (id_mapping (self st))
            !! old_id rj = Some (UUID.str (uuid4_draw rt (entropy st + j)))) as Hnew.
  { apply assigned_ids_lookup; [exact Hj|].
    apply Forall_forall. intros r' Hr'. rewrite Forall_forall in Hlast.
    rewrite <- (record_ok_old_id rt (mem st)); [by apply Hlast| |done].
    apply Hsok. by eapply subseteq_drop. }
  destruct (Hall i ri Hi) as (ti & sti & sti' & Hti & Hrwi & Hmapi & _).
  destruct (Hall j rj Hj) as (tj & stj & stj' & Htj & Hrwj & Hmapj & _).
  exists out, st', ti, tj. split_and!; try done.
  - rewrite (rw_id _ _ _ _ _ Hrwi), Hmapi. unfold new_id_of. simpl.
    apply (record_ok_old_id rt (mem st) ri rj Hri Hrj) in Hsame. by rewrite Hsame, Hnew.
  - rewrite (rw_id _ _ _ _ _ Hrwj), Hmapj. unfold new_id_of. simpl. by rewrite Hnew.
Qed.

Lemma X6_witness :
  ∃ out st' ti tj,
    transform_runs Sample.rt Scenario.twins Sample.st0 = (Ok out, st') ∧
    out !! 0%nat = Some ti ∧ out !! 1%nat = Some tj ∧
    ti !! "id" = Some (VStr (UUID.str (uuid4_draw Sample.rt 1))) ∧
    tj !! "id" = Some (VStr (UUID.str (uuid4_draw Sample.rt 1))).
Proof.
  apply (X6_shared_id_shares_new_id Sample.rt Scenario.twins Sample.st0 0 1
           Sample.orphan Sample.child_b twins_records).
  - by rewrite sorted_twins.
  - by rewrite sorted_twins.
  - vm_compute. reflexivity.
  - rewrite sorted_twins. apply Forall_nil_2.
Defined.

(** X7. The rewrite only adds to the dictionaries of the store: an entry
    that a dictionary holds before [transform_runs] is still there, with
    the same value, after it, unless its key is one of the two provenance
    keys [copied_from_shared_trace] and [original_run_id]. *)
Theorem X7_store_entries_kept (rt : runtime) (runs : list (gmap string value))
    (st : state) (l : loc) (d : gmap string value) (k : string) (v : value) :
  Forall (record_ok rt (mem st)) runs →
  mem st !! l = Some d → d !! k = Some v →
  k ≠ "copied_from_shared_trace" → k ≠ "original_run_id" →
  ∃ out st' d', transform_runs rt runs st = (Ok out, st') ∧
    mem st' !! l = Some d' ∧ d' !! k = Some v.
Proof.
  intros Hok Hl Hk Hc Ho.
  destruct (transform_runs_ids rt runs st Hok) as (out & st' & E & _ & _ & Hheap & _).
  destruct (heap_steps_keep _ _ _ _ _ _ Hheap Hl Hk Hc Ho) as (d' & Hl' & Hk').
  by exists out, st', d'.
Qed.

Lemma X7_witness :
  ∃ out st' d', transform_runs Sample.rt Sample.trace Sample.st0 = (Ok out, st') ∧
    mem st' !! 1%nat = Some d' ∧ d' !! "revision" = Some (VStr "abc").
Proof.
  apply (X7_store_entries_kept Sample.rt Sample.trace Sample.st0 1%nat
           {["revision" := VStr "abc"]} "revision" (VStr "abc") trace_records).
  - vm_compute. reflexivity.
  - vm_compute. reflexivity.
  - discriminate.
  - discriminate.
Defined.

(** ** The downloader *)

(** X8. The constructor of [PublicTraceDownloader] removes every trailing
    slash of the base URL and nothing else: the URL given is the stored one
    followed by slashes only, the stored one does not end with a slash, and
    further trailing slashes on the URL given make no difference. *)
Theorem X8_base_url_without_trailing_slashes (token url : string) (k : nat) :
  let d := PublicTraceDownloader__init__ token url in
  (∃ k', url = base_url d +:+ PyStr.repeat "/" k') ∧
  (∀ t, base_url d ≠ t +:+ "/") ∧
  PublicTraceDownloader__init__ token (url +:+ PyStr.repeat "/" k) = d.
Proof.
  intros d. unfold d, PublicTraceDownloader__init__. simpl.
  destruct (rstrip_spec "/" url) as [Hk Hn]. split_and!; [done|done|].
  by rewrite rstrip_repeat.
Qed.

(** X9. On a server that holds the runs of the trace and serves them in
    pages of at most 100, [get_all_runs] returns all of them, decoded and in
    the order of the server, and it sends exactly the requests for the
    offsets 0, 100, ... up to the first page that is not full (so one more
    request, for an empty page, when the number of runs is a multiple of
    100). *)
Theorem X9_get_all_runs_fetches_every_page (sv : services) (n : nat)
    (d : PublicTraceDownloader) (all : list json) (w : world) :
  serves_pages sv d all (S (length all)) →
  (length all / limit < n)%nat →
  ∃ vs w', get_all_runs sv n d w = (Done vs, w') ∧
    Forall2 (represents (mem (py w'))) all vs ∧
    trail w' = (trail w ++ (Request ∘ page_request d <$> page_offsets (length all)))%list.
Proof.
  intros Hserve Hn.
  destruct (get_all_runs_loop_complete sv n d all [] 0 w Hserve)
    as (vs & w' & E & Hvs & Htr & _); [done|lia| |constructor|].
  { by rewrite Nat.sub_0_r. }
  exists vs, w'. split_and!; [done|done|].
  rewrite Htr, Nat.sub_0_r. unfold page_offsets. done.
Qed.

Lemma X9_witness :
  ∃ vs w', get_all_runs Scenario.sv 1 Scenario.downloader Scenario.w0 = (Done vs, w') ∧
    Forall2 (represents (mem (py w'))) Scenario.all vs ∧
    trail w' = (trail Scenario.w0 ++
      (Request ∘ page_request Scenario.downloader <$> page_offsets (length Scenario.all)))%list.
Proof.
  apply (X9_get_all_runs_fetches_every_page Scenario.sv 1 Scenario.downloader
           Scenario.all Scenario.w0).
  - by apply serve_pages.
  - vm_compute. lia.
Defined.

(** X10. When the server answers the request for a later page with an
    error status (400 to 599), [get_all_runs] raises [HTTPError] for that
    response after having asked for every page up to it; the runs of the
    pages before are not returned. *)
Theorem X10_get_all_runs_error_on_later_page (sv : services) (n : nat)
    (d : PublicTraceDownloader) (all : list json) (w : world) (pages : nat)
    (r : response) :
  serves_pages sv d all (pages * limit) →
  (pages * limit ≤ length all)%nat →
  (∀ w', http sv w' (page_request d (pages * limit)) = inr r) →
  (400 ≤ status_code r < 600)%Z →
  (pages < n)%nat →
  ∃ w', get_all_runs sv n d w = (Fail (HTTPError (Some r)), w') ∧
    requests (trail w') =
      (requests (trail w) ++
       (page_request d <$> ((λ i, i * limit)%nat <$> seq 0 (S pages))))%list.
Proof.
  intros Hserve Hle Herr Hst Hn.
  destruct (get_all_runs_loop_error sv n d all [] 0 w pages r) as (w' & E & Hreq);
    try done.
  by exists w'.
Qed.

Lemma X10_witness :
  ∃ w', get_all_runs Scenario.sv_failing 2 Scenario.downloader Scenario.w0
          = (Fail (HTTPError (Some (mkResponse 500 "Internal Server Error" None))), w') ∧
    requests (trail w') =
      (requests (trail Scenario.w0) ++
       (page_request Scenario.downloader <$> ((λ i, i * limit)%nat <$> seq 0 2)))%list.
Proof.
  apply (X10_get_all_runs_error_on_later_page Scenario.sv_failing 2 Scenario.downloader
           Scenario.many Scenario.w0 1 (mkResponse 500 "Internal Server Error" None)).
  - apply serve_pages. vm_compute. lia.
  - vm_compute. lia.
  - intros w'. reflexivity.
  - simpl. lia.
  - lia.
Defined.

(** X11. [get_all_runs] has no bound on the number of pages: on a server
    that answers every request with a full page, any number of iterations
    of the loop sends that many requests and leaves the loop unfinished. *)
Theorem X11_get_all_runs_unbounded (sv : services) (n : nat)
    (d : PublicTraceDownloader) (w : world) :
  (∀ w offset, ∃ r page, http sv w (page_request d offset) = inr r ∧
     answers r "runs" (JArr page) ∧ (limit ≤ length page)%nat) →
  ∃ w', get_all_runs sv n d w = (Pending, w') ∧
    length (requests (trail w')) = (length (requests (trail w)) + n)%nat.
Proof. intros Hfull. exact (get_all_runs_loop_endless sv n d [] 0 w Hfull). Qed.

Lemma X11_witness :
  ∃ w', get_all_runs Scenario.sv_endless 7 Scenario.downloader Scenario.w0 = (Pending, w') ∧
    length (requests (trail w')) = (length (requests (trail Scenario.w0)) + 7)%nat.
Proof.
  apply (X11_get_all_runs_unbounded Scenario.sv_endless 7 Scenario.downloader Scenario.w0).
  intros w offset. eexists _, _. split; [reflexivity|]. split.
  - split; [left; simpl; lia|]. eexists. split; reflexivity.
  - by rewrite length_replicate.
Defined.

(** X12. On a server that holds the feedbacks asked for and serves them in
    pages, [get_feedbacks] returns all of them in order, and every request
    it sends carries the offset, the limit 100 and, when a non-empty list of
    run ids was given, that list as [run]. *)
Theorem X12_get_feedbacks_fetches_every_page (sv : services) (n : nat)
    (d : PublicTraceDownloader) (run_ids : option (list string)) (all : list json)
    (w : world) :
  serves_feedbacks sv d run_ids all →
  (length all / limit < n)%nat →
  ∃ vs w', get_feedbacks sv n d run_ids w = (Done vs, w') ∧
    Forall2 (represents (mem (py w'))) all vs ∧
    trail w' =
      (trail w ++
       (Request ∘ feedback_request d run_ids <$> page_offsets (length all)))%list.
Proof.
  intros Hserve Hn.
  destruct (get_feedbacks_loop_complete sv n d run_ids all [] 0 w Hserve)
    as (vs & w' & E & Hvs & Htr & _); [done|lia| |constructor|].
  { by rewrite Nat.sub_0_r. }
  exists vs, w'. split_and!; [done|done|].
  rewrite Htr, Nat.sub_0_r. unfold page_offsets. done.
Qed.

Lemma X12_witness :
  ∃ vs w', get_feedbacks Scenario.sv 1 Scenario.downloader (Some ["A"]) Scenario.w0
             = (Done vs, w') ∧
    Forall2 (represents (mem (py w'))) [Scenario.root_run] vs ∧
    trail w' =
      (trail Scenario.w0 ++
       (Request ∘ feedback_request Scenario.downloader (Some ["A"]) <$> page_offsets 1))%list.
Proof.
  apply (X12_get_feedbacks_fetches_every_page Scenario.sv 1 Scenario.downloader
           (Some ["A"]) [Scenario.root_run] Scenario.w0).
  - apply serve_feedbacks.
  - vm_compute. lia.
Defined.

(** ** The uploader *)

(** X13. [upload_runs] on runs that have the required keys, whatever the
    client does: the [create_run] calls are those for a first part of the
    runs, in order, each with the fields of its run and the project name.
    Either every run was sent and nothing was written to the error stream,
    or the last call raised: that exception is raised again after one line
    on the error stream, and the runs sent before stay sent. *)
Theorem X13_upload_in_order_until_failure (rt : runtime) (sv : services)
    (u : TraceUploader) (runs : list (gmap string value)) (project : string)
    (w : world) :
  Forall uploadable runs →
  ∃ calls res w',
    upload_runs rt sv u runs project w = (res, w') ∧
    created (trail w') = (created (trail w) ++ ((client u ,.) <$> calls))%list ∧
    Forall2 (sent project) (take (length calls) runs) calls ∧
    ((res = Done tt ∧ length calls = length runs ∧
      stderr (trail w') = stderr (trail w)) ∨
     (∃ e w0 kw, res = Fail e ∧ last calls = Some kw ∧
        client_create_run sv w0 (client u) kw = Some e ∧
        length (stderr (trail w')) = S (length (stderr (trail w))))).
Proof. apply upload_runs_spec. Qed.

Lemma X13_witness :
  ∃ calls res w',
    upload_runs Sample.rt Scenario.sv Scenario.uploader [Scenario.plain] "Copied Traces"
      Scenario.w0 = (res, w') ∧
    created (trail w') =
      (created (trail Scenario.w0) ++ ((client Scenario.uploader ,.) <$> calls))%list ∧
    Forall2 (sent "Copied Traces") (take (length calls) [Scenario.plain]) calls ∧
    ((res = Done tt ∧ length calls = length [Scenario.plain] ∧
      stderr (trail w') = stderr (trail Scenario.w0)) ∨
     (∃ e w0 kw, res = Fail e ∧ last calls = Some kw ∧
        client_create_run Scenario.sv w0 (client Scenario.uploader) kw = Some e ∧
        length (stderr (trail w')) = S (length (stderr (trail Scenario.w0))))).
Proof.
  apply (X13_upload_in_order_until_failure Sample.rt Scenario.sv Scenario.uploader
           [Scenario.plain] "Copied Traces" Scenario.w0).
  apply Forall_cons_2; [exact plain_uploadable|apply Forall_nil_2].
Defined.

(** X14. When a run lacks one of the keys [name], [run_type], [trace_id]
    and [id], [upload_runs] (with a client that accepts every call) sends
    the runs before it and then raises [KeyError] for a missing key, without
    a call for that run or for any later one; when it is [id] that is
    missing, the error is the [KeyError('id')] of the error message
    itself. *)
Theorem X14_upload_missing_key (rt : runtime) (sv : services) (u : TraceUploader)
    (before : list (gmap string value)) (r : gmap string value)
    (after : list (gmap string value)) (project : string) (w : world) :
  Forall uploadable before → ¬ uploadable r →
  (∀ w0 c kw, client_create_run sv w0 c kw = None) →
  ∃ key calls w',
    upload_runs rt sv u (before ++ r :: after) project w
      = (Fail (Python (KeyError key)), w') ∧
    key ∈ required_keys ∧ r !! key = None ∧
    (r !! "id" = None → key = "id") ∧
    created (trail w') = (created (trail w) ++ ((client u ,.) <$> calls))%list ∧
    Forall2 (sent project) before calls.
Proof. apply upload_runs_missing_key. Qed.

Lemma X14_witness :
  ∃ key calls w',
    upload_runs Sample.rt Scenario.sv Scenario.uploader
      ([Scenario.plain] ++ Scenario.nameless :: []) "Copied Traces" Scenario.w0
      = (Fail (Python (KeyError key)), w') ∧
    key ∈ required_keys ∧ Scenario.nameless !! key = None ∧
    (Scenario.nameless !! "id" = None → key = "id") ∧
    created (trail w') =
      (created (trail Scenario.w0) ++ ((client Scenario.uploader ,.) <$> calls))%list ∧
    Forall2 (sent "Copied Traces") [Scenario.plain] calls.
Proof.
  apply (X14_upload_missing_key Sample.rt Scenario.sv Scenario.uploader
           [Scenario.plain] Scenario.nameless [] "Copied Traces" Scenario.w0).
  - apply Forall_cons_2; [exact plain_uploadable|apply Forall_nil_2].
  - exact nameless_not_uploadable.
  - intros w0 c kw. reflexivity.
Defined.

(** X15. Rewriting a valid single-root trace and uploading the result with
    a client that accepts every call: every rewritten record has the keys
    the upload needs, one run is created per input record, all in the
    project given, and the calls come parents first: all carry the new
    trace id, exactly one has no parent and its id is the trace id, and
    every other one names as parent the id of an earlier call. *)
Theorem X15_transform_then_upload (rt : runtime) (sv : services) (u : TraceUploader)
    (runs : list (gmap string value)) (project : string) (w : world) :
  valid_trace runs → payload_ok rt (mem (py w)) runs →
  (∀ w0 c kw, client_create_run sv w0 c kw = None) →
  ∃ calls tid root w',
    (out ← lift (transform_runs rt runs); upload_runs rt sv u out project) w
      = (Done tt, w') ∧
    created (trail w') = (created (trail w) ++ ((client u ,.) <$> calls))%list ∧
    length calls = length runs ∧ parents_first calls tid root ∧
    (∀ kw, kw ∈ calls → kw !! "project_name" = Some (VStr project)).
Proof. apply transform_then_upload. Qed.

Lemma X15_witness :
  ∃ calls tid root w',
    (out ← lift (transform_runs Sample.rt Sample.trace);
     upload_runs Sample.rt Scenario.sv Scenario.uploader out "Copied Traces") Scenario.w0
      = (Done tt, w') ∧
    created (trail w') =
      (created (trail Scenario.w0) ++ ((client Scenario.uploader ,.) <$> calls))%list ∧
    length calls = length Sample.trace ∧ parents_first calls tid root ∧
    (∀ kw, kw ∈ calls → kw !! "project_name" = Some (VStr "Copied Traces")).
Proof.
  apply (X15_transform_then_upload Sample.rt Scenario.sv Scenario.uploader Sample.trace
           "Copied Traces" Scenario.w0 trace_valid trace_payload).
  intros w0 c kw. reflexivity.
Defined.

(** ** [main] *)

(** X16. Without an API key, that is when [--api-key] is not given or is
    empty and [LANGSMITH_API_KEY] is unset or empty, [main] writes one line
    to the error stream and exits with status 1: no request is sent and no
    client is made. *)
Theorem X16_main_requires_api_key (rt : runtime) (sv : services) (n : nat)
    (a : args.Namespace) (w : world) :
  args.api_key a = None ∨ args.api_key a = Some EmptyString →
  getenv sv "LANGSMITH_API_KEY" = None ∨ getenv sv "LANGSMITH_API_KEY" = Some EmptyString →
  main rt sv n a w =
    (Exit 1, mkWorld (py w)
       (trail w ++
        [Stderr "Error: API key required. Set LANGSMITH_API_KEY or use --api-key"])).
Proof.
  intros Harg Henv. apply main_no_key. unfold api_key_of.
  destruct Harg as [->| ->], Henv as [->| ->]; reflexivity.
Qed.

Lemma X16_witness :
  main Sample.rt Scenario.sv 1 Scenario.cli_without_key Scenario.w0 =
    (Exit 1, mkWorld (py Scenario.w0)
       (trail Scenario.w0 ++
        [Stderr "Error: API key required. Set LANGSMITH_API_KEY or use --api-key"])).
Proof.
  apply (X16_main_requires_api_key Sample.rt Scenario.sv 1 Scenario.cli_without_key
           Scenario.w0).
  - left. reflexivity.
  - left. reflexivity.
Defined.

(** X17. With [--dry-run], whatever the server answers and however the run
    ends, [main] makes no client and calls [create_run] not once. *)
Theorem X17_dry_run_never_uploads (rt : runtime) (sv : services) (n : nat)
    (a : args.Namespace) (w : world) :
  args.dry_run a = true →
  ∃ evs, trail (main rt sv n a w).2 = (trail w ++ evs)%list ∧
    Forall (λ ev, ¬ client_event ev) evs.
Proof.
  intros Hdry. destruct (main rt sv n a w) as [res w'] eqn:E.
  eapply (main_behaves rt sv (λ ev, ¬ client_event ev)); [..|exact E]; try (by intros ? []).
  - by intros r _ [].
  - intros H. congruence.
Qed.

Lemma X17_witness :
  ∃ evs, trail (main Sample.rt Scenario.sv 1 Scenario.cli_dry_run Scenario.w0).2
           = (trail Scenario.w0 ++ evs)%list ∧
    Forall (λ ev, ¬ client_event ev) evs.
Proof.
  apply (X17_dry_run_never_uploads Sample.rt Scenario.sv 1 Scenario.cli_dry_run Scenario.w0).
  reflexivity.
Defined.

(** X18. For every command line and every behaviour of the server, the
    client and the environment, [main] returns normally or exits with
    status 1 (or, in the model, is still in the loop of the download after
    the iterations it was given), with one exception: an [AttributeError]
    leaves [main] when its handler has just reported an [HTTPError] that
    carries no response. No other exception leaves [main], and no other
    exit status occurs. *)
Theorem X18_main_outcomes (rt : runtime) (sv : services) (n : nat)
    (a : args.Namespace) (w : world) :
  (main rt sv n a w).1 = Done tt ∨ (main rt sv n a w).1 = Exit 1 ∨
  (main rt sv n a w).1 = Pending ∨
  ((main rt sv n a w).1 = Fail (Python AttributeError) ∧
   ∃ t, trail (main rt sv n a w).2 =
          (t ++ [Stderr (nl +:+ "HTTP Error: " +:+ str_error sv (HTTPError None))])%list).
Proof.
  destruct (main rt sv n a w) as [res w'] eqn:E.
  by eapply (main_behaves rt sv (λ _, True)); [..|exact E].
Qed.

(** X19. Whatever happens, [main] talks only to the endpoint it chose:
    every request goes to [/public/<share_token>/run] or
    [/public/<share_token>/runs/query] under that endpoint without its
    trailing slashes, the only client made is the one for the API key and
    the endpoint, and every [create_run] call is made by that client with
    the project of the command line as [project_name]. *)
Theorem X19_main_events (rt : runtime) (sv : services) (n : nat)
    (a : args.Namespace) (w : world) :
  ∃ evs, trail (main rt sv n a w).2 = (trail w ++ evs)%list ∧
    Forall (main_event sv a) evs.
Proof.
  destruct (main rt sv n a w) as [res w'] eqn:E.
  by eapply (main_behaves rt sv (main_event sv a)); [..|exact E].
Qed.

(** X20. On a server that holds a valid single-root trace, with an API key,
    without [--dry-run], with a client that accepts every run and enough
    iterations for the pages, [main] returns normally: it creates one run
    per run of the trace, by the client for the key and the endpoint, in
    the project given and parents first under one new trace id, and writes
    nothing to the error stream. *)
Theorem X20_main_copies_the_trace (rt : runtime) (sv : services) (n : nat)
    (a : args.Namespace) (all : list json) (w : world) :
  truthy_opt (api_key_of sv a) = true → args.dry_run a = false →
  serves_root sv (PublicTraceDownloader__init__ (args.share_token a) (endpoint_of sv a)) →
  serves_pages sv (PublicTraceDownloader__init__ (args.share_token a) (endpoint_of sv a))
    all (S (length all)) →
  json_trace rt all →
  (∀ w0 c, client_init sv w0 c = None) →
  (∀ w0 c kw, client_create_run sv w0 c kw = None) →
  (length all / limit < n)%nat →
  ∃ calls tid root w',
    main rt sv n a w = (Done tt, w') ∧
    created (trail w') =
      (created (trail w) ++
       ((mkClient (default EmptyString (api_key_of sv a)) (endpoint_of sv a) ,.)
          <$> calls))%list ∧
    length calls = length all ∧ parents_first calls tid root ∧
    (∀ kw, kw ∈ calls → kw !! "project_name" = Some (VStr (args.project a))) ∧
    stderr (trail w') = stderr (trail w).
Proof. intros. by apply main_copies. Qed.

Lemma X20_witness :
  ∃ calls tid root w',
    main Sample.rt Scenario.sv 1 Scenario.cli Scenario.w0 = (Done tt, w') ∧
    created (trail w') =
      (created (trail Scenario.w0) ++
       ((mkClient "ls__xxx" "https://eu.api.smith.langchain.com" ,.) <$> calls))%list ∧
    length calls = length Scenario.all ∧ parents_first calls tid root ∧
    (∀ kw, kw ∈ calls → kw !! "project_name" = Some (VStr "Copied Traces")) ∧
    stderr (trail w') = stderr (trail Scenario.w0).
Proof.
  apply (X20_main_copies_the_trace Sample.rt Scenario.sv 1 Scenario.cli Scenario.all
           Scenario.w0).
  - reflexivity.
  - reflexivity.
  - apply serve_root.
  - by apply serve_pages.
  - exact all_trace.
  - intros w0 c. reflexivity.
  - intros w0 c kw. reflexivity.
  - vm_compute. lia.
Defined.

(** X21. A dry run on a shared trace without runs fails: the rewrite
    returns an empty list, the sample run [transformed_runs[0]] raises
    [IndexError], and [main] reports it on the error stream, prints the
    traceback and exits with status 1. *)
Theorem X21_dry_run_on_empty_trace (rt : runtime) (sv : services) (n : nat)
    (a : args.Namespace) (w : world) :
  truthy_opt (api_key_of sv a) = true → args.dry_run a = true →
  serves_root sv (PublicTraceDownloader__init__ (args.share_token a) (endpoint_of sv a)) →
  serves_pages sv (PublicTraceDownloader__init__ (args.share_token a) (endpoint_of sv a))
    [] 1 →
  (0 < n)%nat →
  ∃ t w',
    main rt sv n a w = (Exit 1, w') ∧
    trail w' = (trail w ++ t ++
      [Stderr (nl +:+ "Error: " +:+ str_error sv IndexError); Traceback IndexError])%list ∧
    Forall (λ ev, match ev with Request _ | Stdout _ => True | _ => False end) t.
Proof. intros. by apply main_dry_run_empty. Qed.

Lemma X21_witness :
  ∃ t w',
    main Sample.rt Scenario.sv_empty 1 Scenario.cli_dry_run Scenario.w0 = (Exit 1, w') ∧
    trail w' = (trail Scenario.w0 ++ t ++
      [Stderr (nl +:+ "Error: " +:+ str_error Scenario.sv_empty IndexError);
       Traceback IndexError])%list ∧
    Forall (λ ev, match ev with Request _ | Stdout _ => True | _ => False end) t.
Proof.
  apply (X21_dry_run_on_empty_trace Sample.rt Scenario.sv_empty 1 Scenario.cli_dry_run
           Scenario.w0).
  - reflexivity.
  - reflexivity.
  - apply serve_root.
  - by apply serve_pages.
  - lia.
Defined.

(** X22. When the server answers the request for the root run with an
    error status (400 to 599), [main] stops there: after the three lines of
    progress and that one request it writes the HTTP error and the text of
    the response to the error stream and exits with status 1, without a
    traceback, without a further request and without touching the
    interpreter's state. *)
Theorem X22_main_reports_http_error (rt : runtime) (sv : services) (n : nat)
    (a : args.Namespace) (w : world) (r : response) :
  truthy_opt (api_key_of sv a) = true →
  (∀ w', http sv w'
     (GET (rstrip "/" (endpoint_of sv a) +:+ "/public/" +:+ args.share_token a +:+ "/run")
        []) = inr r) →
  (400 ≤ status_code r < 600)%Z →
  main rt sv n a w =
    (Exit 1, mkWorld (py w)
       (trail w ++
        [ Stdout ("Fetching public trace with token: " +:+ args.share_token a);
          Stdout ("Using endpoint: " +:+ endpoint_of sv a);
          Stdout "  Downloading root run...";
          Request (GET (rstrip "/" (endpoint_of sv a) +:+ "/public/"
                          +:+ args.share_token a +:+ "/run") []);
          Stderr (nl +:+ "HTTP Error: " +:+ str_error sv (HTTPError (Some r)));
          Stderr ("Response: " +:+ text r) ])).
Proof. intros. by apply main_root_error. Qed.

Lemma X22_witness :
  main Sample.rt Scenario.sv_missing 1 Scenario.cli Scenario.w0 =
    (Exit 1, mkWorld (py Scenario.w0)
       (trail Scenario.w0 ++
        [ Stdout ("Fetching public trace with token: " +:+ args.share_token Scenario.cli);
          Stdout ("Using endpoint: " +:+ endpoint_of Scenario.sv_missing Scenario.cli);
          Stdout "  Downloading root run...";
          Request (GET (rstrip "/" (endpoint_of Scenario.sv_missing Scenario.cli)
                          +:+ "/public/" +:+ args.share_token Scenario.cli +:+ "/run") []);
          Stderr (nl +:+ "HTTP Error: "
                    +:+ str_error Scenario.sv_missing
                          (HTTPError (Some (mkResponse 404 "Not Found" None))));
          Stderr ("Response: " +:+ text (mkResponse 404 "Not Found" None)) ])).
Proof.
  apply (X22_main_reports_http_error Sample.rt Scenario.sv_missing 1 Scenario.cli
           Scenario.w0 (mkResponse 404 "Not Found" None)).
  - reflexivity.
  - intros w'. reflexivity.
  - simpl. lia.
Defined.

(** X23. When an [HTTPError] that carries no response reaches [main] (here
    it is raised by the request for the root run), the handler reports it
    and then fails on [e.response.text]: an [AttributeError] leaves [main],
    the [Response:] line is not written, no traceback is printed and
    [sys.exit(1)] is not reached. *)
Theorem X23_http_error_without_response (rt : runtime) (sv : services) (n : nat)
    (a : args.Namespace) (w : world) :
  truthy_opt (api_key_of sv a) = true →
  (∀ w', http sv w'
     (GET (rstrip "/" (endpoint_of sv a) +:+ "/public/" +:+ args.share_token a +:+ "/run")
        []) = inl (HTTPError None)) →
  main rt sv n a w =
    (Fail (Python AttributeError), mkWorld (py w)
       (trail w ++
        [ Stdout ("Fetching public trace with token: " +:+ args.share_token a);
          Stdout ("Using endpoint: " +:+ endpoint_of sv a);
          Stdout "  Downloading root run...";
          Request (GET (rstrip "/" (endpoint_of sv a) +:+ "/public/"
                          +:+ args.share_token a +:+ "/run") []);
          Stderr (nl +:+ "HTTP Error: " +:+ str_error sv (HTTPError None)) ])).
Proof. intros. by apply main_root_unanswered. Qed.

Lemma X23_witness :
  main Sample.rt Scenario.sv_broken 1 Scenario.cli Scenario.w0 =
    (Fail (Python AttributeError), mkWorld (py Scenario.w0)
       (trail Scenario.w0 ++
        [ Stdout ("Fetching public trace with token: " +:+ args.share_token Scenario.cli);
          Stdout ("Using endpoint: " +:+ endpoint_of Scenario.sv_broken Scenario.cli);
          Stdout "  Downloading root run...";
          Request (GET (rstrip "/" (endpoint_of Scenario.sv_broken Scenario.cli)
                          +:+ "/public/" +:+ args.share_token Scenario.cli +:+ "/run") []);
          Stderr (nl +:+ "HTTP Error: "
                    +:+ str_error Scenario.sv_broken (HTTPError None)) ])).
Proof.
  apply (X23_http_error_without_response Sample.rt Scenario.sv_broken 1 Scenario.cli
           Scenario.w0).
  - reflexivity.
  - intros w'. reflexivity.
Defined.
